(** * tcp_ping_pong: a shallow embedding of [server.py], [client.py] and
      the command lines of [launcher.py]

    The embedding has four parts; the statements about the programs follow
    it.
    - [Py]: the Python built-ins the two programs rely on (string slicing,
      [str.split], [str.strip], [int()], f-string formatting of integers,
      the exception classes the handlers distinguish, files opened with
      ['w'] and ['a']).
    - [Server]: [TCPServer] as a transition system.  asyncio runs the
      handlers and the keepalive task cooperatively, so every piece of code
      between two [await]s is one atomic step; the labels carry what the
      environment decides (the line read, the clock, the random draws, the
      outcome of a drain).
    - [Client]: [TCPClient] in a state-and-exception monad whose awaits are
      answered from a script of environment outcomes.
    - [Launcher]: the command lines [main] of [launcher.py] builds for the
      server and the clients. *)

From Stdlib Require Import List String Ascii ZArith NArith QArith Lia Bool Arith.
From Stdlib Require DecimalString DecimalZ DecimalPos.
Import ListNotations.

Local Close Scope Q_scope.
Local Open Scope string_scope.
Local Open Scope list_scope.

(* ================================================================== *)
(** * Python built-ins *)
(* ================================================================== *)

Module Py.

(** The exception classes that the [except] clauses of the two programs
    tell apart.  [UnicodeDecodeError] is a [ValueError]; neither
    [IncompleteReadError] (an [EOFError]) nor [TimeoutError] is a
    [ConnectionError]; all of them are [Exception]s. *)
Inductive exn : Type :=
| ConnectionError
| IncompleteReadError
| TimeoutError
| KeyError
| ValueError
| UnicodeDecodeError
| RuntimeError
| OtherError.

Definition is_ConnectionError (e : exn) : bool :=
  match e with ConnectionError => true | _ => false end.

(** [except (asyncio.TimeoutError, asyncio.IncompleteReadError)] *)
Definition is_Timeout_or_IncompleteRead (e : exn) : bool :=
  match e with TimeoutError | IncompleteReadError => true | _ => false end.

(** ** Characters *)

Definition code (c : ascii) : N := N_of_ascii c.

(** [str.isspace] on an ASCII character: TAB..CR, FS..US and the blank. *)
Definition is_space (c : ascii) : bool :=
  ((9 <=? code c) && (code c <=? 13) || (28 <=? code c) && (code c <=? 32))%N.

(** The white space [int()] skips around an ASCII literal: TAB..CR and
    the blank only. *)
Definition is_c_space (c : ascii) : bool :=
  ((9 <=? code c) && (code c <=? 13) || (code c =? 32))%N.

Definition is_digit (c : ascii) : bool :=
  ((48 <=? code c) && (code c <=? 57))%N.

Definition digit_value (c : ascii) : Z := Z.of_N (code c) - 48.

(** ** Strings *)

Fixpoint lstrip_with (sp : ascii -> bool) (s : string) : string :=
  match s with
  | String c t => if sp c then lstrip_with sp t else s
  | EmptyString => EmptyString
  end.

Fixpoint rstrip_with (sp : ascii -> bool) (s : string) : string :=
  match s with
  | String c t =>
      match rstrip_with sp t with
      | EmptyString => if sp c then EmptyString else String c EmptyString
      | t' => String c t'
      end
  | EmptyString => EmptyString
  end.

(** [s.strip()] *)
Definition strip (s : string) : string :=
  rstrip_with is_space (lstrip_with is_space s).

(** [s[1:]]: the empty string when [s] has fewer than two characters. *)
Definition slice_from_1 (s : string) : string :=
  match s with
  | String _ t => t
  | EmptyString => EmptyString
  end.

(** [s.split(']')[0]]: what precedes the first [']'], all of [s] when
    there is none. *)
Fixpoint split_bracket_0 (s : string) : string :=
  match s with
  | String c t => if Ascii.eqb c "]" then EmptyString
                  else String c (split_bracket_0 t)
  | EmptyString => EmptyString
  end.

(** [needle in s] *)
Fixpoint contains (needle s : string) : bool :=
  if String.prefix needle s then true
  else match s with
       | String _ t => contains needle t
       | EmptyString => false
       end.

(** [text + "\n"], as bytes: what [readuntil(b"\n")] returns for the line
    [text]. *)
Definition line_of (text : string) : string :=
  text ++ String (ascii_of_N 10) EmptyString.

(** [bytes.decode('ascii')]: fails on any byte above 127. *)
Definition decode_ascii (data : string) : option string :=
  if forallb (fun c => (code c <? 128)%N) (list_ascii_of_string data)
  then Some data else None.

(** ** [int(s)] on an ASCII string *)

(** CPython's default [sys.int_max_str_digits]. *)
Definition int_max_str_digits : N := 4300.

(** The digits of a literal, single underscores allowed between digits;
    [us] tells that the previous character may not be followed by an
    underscore or by the end of the literal.  Returns the value and the
    number of digits. *)
Fixpoint digits (s : string) (acc : Z) (cnt : N) (us : bool) : option (Z * N) :=
  match s with
  | EmptyString => if us then None else Some (acc, cnt)
  | String c t =>
      if is_digit c then digits t (10 * acc + digit_value c)%Z (cnt + 1)%N false
      else if Ascii.eqb c "_" then (if us then None else digits t acc cnt true)
      else None
  end.

Definition int (s : string) : option Z :=
  let body := rstrip_with is_c_space (lstrip_with is_c_space s) in
  let '(neg, ds) :=
    match body with
    | String "-" t => (true, t)
    | String "+" t => (false, t)
    | _ => (false, body)
    end in
  match digits ds 0%Z 0%N true with
  | Some (n, cnt) =>
      if (cnt <=? int_max_str_digits)%N
      then Some (if neg then (- n)%Z else n)
      else None
  | None => None
  end.

(** [f"{n}"] for an integer. *)
Definition str (n : Z) : string := DecimalString.NilZero.string_of_int (Z.to_int n).

Definition str_nat (n : nat) : string := str (Z.of_nat n).

(** ** The wall clock *)

(** What [_format_time()] and [_format_date()] return: [datetime.now()]
    formatted as [HH:MM:SS.mmm] and as [YYYY-MM-DD]. *)
Record clock : Type := { time_str : string; date_str : string }.

(** ** Files *)

(** A file is the list of the lines written to it, each with its
    newline; a path that does not exist maps to [None]. *)
Definition fs : Type := string -> option (list string).

Definition content (f : fs) (path : string) : list string :=
  match f path with Some ls => ls | None => [] end.

(** [with open(path, 'w') as f: f.write('')] *)
Definition truncate (path : string) (f : fs) : fs :=
  fun q => if String.eqb q path then Some [] else f q.

(** [with open(path, 'a') as f: f.write(line + '\n')] *)
Definition append_line (path line : string) (f : fs) : fs :=
  fun q => if String.eqb q path then Some (content f path ++ [line]) else f q.

(** Several lines appended one after the other. *)
Definition append_lines (path : string) (lines : list string) (f : fs) : fs :=
  fold_left (fun g l => append_line path l g) lines f.

(** ** More built-ins *)

(** Every byte is below 128: what [decode('ascii')] accepts. *)
Definition is_ascii (s : string) : bool :=
  forallb (fun c => (code c <? 128)%N) (list_ascii_of_string s).

(** A digit or the minus sign: the characters of [f"{n}"]. *)
Definition plain (c : ascii) : bool := is_digit c || Ascii.eqb c "-".

(** [sep not in s] *)
Definition free_of (sep : ascii) (s : string) : bool :=
  forallb (fun c => negb (Ascii.eqb c sep)) (list_ascii_of_string s).

(** [s.split(sep)] for a separator of one character. *)
Fixpoint split_on (sep : ascii) (s : string) : list string :=
  match s with
  | EmptyString => [EmptyString]
  | String c t =>
      if Ascii.eqb c sep then EmptyString :: split_on sep t
      else match split_on sep t with
           | field :: fields => String c field :: fields
           | [] => [String c EmptyString]
           end
  end.

(** [range(start, stop)] *)
Definition range (start stop : Z) : list Z :=
  map (fun i => (start + Z.of_nat i)%Z) (seq 0 (Z.to_nat (stop - start))).

(** What an [argparse] parser stores for the option [opt], which takes one
    value, when it reads [args]; the options in [flags] take none. *)
Fixpoint option_value (flags : list string) (opt : string) (args : list string)
    : option string :=
  match args with
  | [] => None
  | a :: t =>
      if existsb (String.eqb a) flags then option_value flags opt t
      else match t with
           | v :: t' => if String.eqb a opt then Some v else option_value flags opt t'
           | [] => None
           end
  end.

(** [f"{n:0{width}d}"] for a natural number; with [width] 2 it is also
    what [strftime] gives for [%H], [%M] and [%S]. *)
Definition zero_padded (width n : nat) : string :=
  string_of_list_ascii (repeat "0"%char (width - String.length (str_nat n)))
    ++ str_nat n.

(** The time of day of a [datetime]. *)
Record datetime : Type := {
  hour : nat; minute : nat; second : nat; microsecond : N
}.

(** The ranges the [datetime] type keeps its fields in. *)
Definition time_of_day (d : datetime) : Prop :=
  hour d < 24 /\ minute d < 60 /\ second d < 60 /\ (microsecond d < 1000000)%N.

(** The body of [_format_time], the same in [TCPServer] and [TCPClient]:
    [now.strftime("%H:%M:%S.") + f"{now.microsecond // 1000:03d}"]. *)
Definition format_time (now : datetime) : string :=
  zero_padded 2 (hour now) ++ ":" ++ zero_padded 2 (minute now) ++ ":"
    ++ zero_padded 2 (second now) ++ "."
    ++ zero_padded 3 (N.to_nat (microsecond now / 1000)).

End Py.


(* ================================================================== *)
(** * server.py *)
(* ================================================================== *)

Module Server.
Import Py.

(** A [StreamWriter] object, known by its identity. *)
Definition writer : Type := nat.

(** The two lines the server writes to a connection. *)
Inductive outmsg : Type :=
| Pong (response_id : nat) (request_num : Z) (client_id : nat)
| Keepalive (response_id : nat).

(** [f"[{response_id}/{request_num}] PONG ({client_id})"] and
    [f"[{response_id}] keepalive"]. *)
Definition render (m : outmsg) : string :=
  match m with
  | Pong response_id request_num client_id =>
      "[" ++ str_nat response_id ++ "/" ++ str request_num ++ "] PONG ("
          ++ str_nat client_id ++ ")"
  | Keepalive response_id => "[" ++ str_nat response_id ++ "] keepalive"
  end.

Definition id_of (m : outmsg) : nat :=
  match m with
  | Pong response_id _ _ => response_id
  | Keepalive response_id => response_id
  end.

(** ** The registry: a [dict] from writer to client id, in insertion order *)

Definition registry : Type := list (writer * nat).

Fixpoint dict_mem (w : writer) (d : registry) : bool :=
  match d with
  | [] => false
  | (k, _) :: t => if Nat.eqb k w then true else dict_mem w t
  end.

(** [d[w] = v] *)
Fixpoint dict_set (w : writer) (v : nat) (d : registry) : registry :=
  match d with
  | [] => [(w, v)]
  | (k, u) :: t => if Nat.eqb k w then (k, v) :: t else (k, u) :: dict_set w v t
  end.

(** [del d[w]]: [None] stands for the [KeyError] raised when [w] is not a
    key. *)
Fixpoint dict_del (w : writer) (d : registry) : option registry :=
  match d with
  | [] => None
  | (k, u) :: t =>
      if Nat.eqb k w then Some t
      else match dict_del w t with
           | Some t' => Some ((k, u) :: t')
           | None => None
           end
  end.

(** ** [TCPServer] *)

Record TCPServer : Type := {
  log_file : string;
  response_counter : nat;
  clients : registry;
  client_counter : nat
}.

(** [__init__] *)
Definition init (log : string) : TCPServer :=
  {| log_file := log; response_counter := 0; clients := []; client_counter := 0 |}.

Definition with_clients (d : registry) (s : TCPServer) : TCPServer :=
  {| log_file := log_file s; response_counter := response_counter s;
     clients := d; client_counter := client_counter s |}.

(** [_get_next_client_id]: increment, return the new value. *)
Definition _get_next_client_id (s : TCPServer) : nat * TCPServer :=
  (S (client_counter s),
   {| log_file := log_file s; response_counter := response_counter s;
      clients := clients s; client_counter := S (client_counter s) |}).

(** [_get_next_response_id]: increment, return the value before. *)
Definition _get_next_response_id (s : TCPServer) : nat * TCPServer :=
  (S (response_counter s) - 1,
   {| log_file := log_file s; response_counter := S (response_counter s);
      clients := clients s; client_counter := client_counter s |}).

Definition ignored : string := "(проигнорировано)".

(** The line [_write_log] builds; [response] is [None] when
    [response_time is None]. *)
Definition log_line (date request_time request_msg : string)
    (response : option (string * string)) : string :=
  match response with
  | None =>
      date ++ ";" ++ request_time ++ ";" ++ request_msg ++ ";" ++ ignored
           ++ ";" ++ ignored
  | Some (response_time, response_msg) =>
      date ++ ";" ++ request_time ++ ";" ++ request_msg ++ ";" ++ response_time
           ++ ";" ++ response_msg
  end.

(** [random.random() < 0.1]; the draw is a rational in [0, 1). *)
Definition drops (rnd : Q) : bool := negb (Qle_bool (1 # 10)%Q rnd).

(** [int(message[1:].split(']')[0])]; [None] is the [ValueError]. *)
Definition parse_request (message : string) : option Z :=
  int (split_bracket_0 (slice_from_1 message)).

(** ** Coroutines between two awaits *)

(** Where the handler of one connection is suspended. *)
Inductive hstate : Type :=
| HRead (client_id : nat)
    (* [await reader.readuntil(b'\n')] *)
| HSleep (client_id : nat) (request_time message : string) (request_num : Z)
         (delay : Z)
    (* [await asyncio.sleep(delay)], the delay in milliseconds *)
| HDrain (client_id : nat) (request_time message response_time : string)
         (response : outmsg)
    (* [await writer.drain()] *)
| HClose (client_id : nat) (pending : option exn)
    (* [await writer.wait_closed()] in the [finally] block; [pending] is
       the exception that goes on propagating afterwards *)
| HReturned
| HRaised (e : exn).

(** Where [keepalive_task] is suspended.  The [for] loop over
    [self.clients.items()] keeps the size the dict had when the loop began
    and its position in the dict. *)
Inductive kstate : Type :=
| KSleep
    (* [await asyncio.sleep(5)] *)
| KDrain (msg : outmsg) (used pos : nat) (current : writer)
         (disconnected : list writer)
    (* [await writer.drain()] inside the loop *)
| KRaised (e : exn).

Record world : Type := {
  server : TCPServer;
  files : fs;
  wire : list (writer * outmsg);     (* every [writer.write], oldest first *)
  closed : list writer;               (* every [writer.close()] *)
  handlers : list (writer * hstate);
  keepalive : kstate
}.

Fixpoint handler_of (w : writer) (hs : list (writer * hstate)) : option hstate :=
  match hs with
  | [] => None
  | (k, h) :: t => if Nat.eqb k w then Some h else handler_of w t
  end.

Fixpoint set_handler (w : writer) (h : hstate) (hs : list (writer * hstate))
    : list (writer * hstate) :=
  match hs with
  | [] => [(w, h)]
  | (k, h0) :: t => if Nat.eqb k w then (k, h) :: t
                    else (k, h0) :: set_handler w h t
  end.

Definition suspend (w : writer) (h : hstate) (x : world) : world :=
  {| server := server x; files := files x; wire := wire x; closed := closed x;
     handlers := set_handler w h (handlers x); keepalive := keepalive x |}.

Definition suspend_keepalive (k : kstate) (x : world) : world :=
  {| server := server x; files := files x; wire := wire x; closed := closed x;
     handlers := handlers x; keepalive := k |}.

Definition with_server (s : TCPServer) (x : world) : world :=
  {| server := s; files := files x; wire := wire x; closed := closed x;
     handlers := handlers x; keepalive := keepalive x |}.

(** [writer.write((msg + '\n').encode('ascii'))] *)
Definition write (w : writer) (m : outmsg) (x : world) : world :=
  {| server := server x; files := files x; wire := wire x ++ [(w, m)];
     closed := closed x; handlers := handlers x; keepalive := keepalive x |}.

(** [writer.close()] *)
Definition close (w : writer) (x : world) : world :=
  {| server := server x; files := files x; wire := wire x;
     closed := closed x ++ [w]; handlers := handlers x; keepalive := keepalive x |}.

(** [_write_log] *)
Definition _write_log (date request_time request_msg : string)
    (response : option (string * string)) (x : world) : world :=
  {| server := server x;
     files := append_line (log_file (server x))
                (log_line date request_time request_msg response) (files x);
     wire := wire x; closed := closed x; handlers := handlers x;
     keepalive := keepalive x |}.

(** The [finally] block of [handle_client].  [del self.clients[writer]]
    raises [KeyError] when the writer is no longer registered; that
    exception replaces the pending one and the rest of the block does not
    run. *)
Definition cleanup (w : writer) (client_id : nat) (pending : option exn)
    (x : world) : world :=
  match dict_del w (clients (server x)) with
  | None => suspend w (HRaised KeyError) x
  | Some d =>
      suspend w (HClose client_id pending)
        (close w (with_server (with_clients d (server x)) x))
  end.

(** An exception raised inside the [try]: [except ConnectionError] logs and
    swallows it, any other goes on after the [finally] block. *)
Definition raised (w : writer) (client_id : nat) (e : exn) (x : world) : world :=
  cleanup w client_id (if is_ConnectionError e then None else Some e) x.

(** ** What the environment decides *)

Inductive read_result : Type :=
| Line (data : string)          (* [readuntil] returned [data] *)
| ReadRaises (e : exn).

Inductive io_result : Type :=
| Completed
| Raises (e : exn).

(** One label per resumption of a coroutine: a connection is accepted, a
    handler's [readuntil], [sleep], [drain] or [wait_closed] completes, the
    keepalive task's [sleep(5)] or [drain] completes.  [rnd] is the value
    of [random.random()] and [delay] that of [random.randint(100, 1000)]. *)
Inductive label : Type :=
| Accept (w : writer)
| Read (w : writer) (res : read_result) (clk : clock) (rnd : Q) (delay : Z)
| Wake (w : writer) (clk : clock)
| Drained (w : writer) (res : io_result) (clk : clock)
| Closed (w : writer)
| Tick
| KDrained (res : io_result).

(** ** [handle_client] *)

(** From the call of [handle_client] to its first [await]. *)
Definition accept (w : writer) (x : world) : world :=
  let '(client_id, s1) := _get_next_client_id (server x) in
  let s2 := with_clients (dict_set w client_id (clients s1)) s1 in
  suspend w (HRead client_id) (with_server s2 x).

(** The loop body once [readuntil] has returned [data], up to the next
    [await]. *)
Definition on_line (w : writer) (client_id : nat) (data : string)
    (clk : clock) (rnd : Q) (delay : Z) (x : world) : world :=
  match decode_ascii data with
  | None => raised w client_id UnicodeDecodeError x
  | Some text =>
      let message := strip text in
      let request_time := time_str clk in
      if drops rnd then
        (* logged as ignored; [continue] *)
        suspend w (HRead client_id)
          (_write_log (date_str clk) request_time message None x)
      else
        match parse_request message with
        | None =>
            (* [except (ValueError, IndexError)]: warning; [continue] *)
            suspend w (HRead client_id) x
        | Some request_num =>
            suspend w (HSleep client_id request_time message request_num delay) x
        end
  end.

Definition on_read (w : writer) (client_id : nat) (res : read_result)
    (clk : clock) (rnd : Q) (delay : Z) (x : world) : world :=
  match res with
  | Line data => on_line w client_id data clk rnd delay x
  | ReadRaises IncompleteReadError => cleanup w client_id None x   (* [break] *)
  | ReadRaises e => raised w client_id e x
  end.

(** After the sleep: allocate the id, format and write the reply. *)
Definition on_wake (w : writer) (client_id : nat) (request_time message : string)
    (request_num : Z) (clk : clock) (x : world) : world :=
  let '(response_id, s1) := _get_next_response_id (server x) in
  let response := Pong response_id request_num client_id in
  let response_time := time_str clk in
  suspend w (HDrain client_id request_time message response_time response)
    (write w response (with_server s1 x)).

(** After the drain: log the exchange and go back to reading. *)
Definition on_drained (w : writer) (client_id : nat)
    (request_time message response_time : string) (response : outmsg)
    (res : io_result) (clk : clock) (x : world) : world :=
  match res with
  | Completed =>
      suspend w (HRead client_id)
        (_write_log (date_str clk) request_time message
           (Some (response_time, render response)) x)
  | Raises e => raised w client_id e x
  end.

Definition on_closed (w : writer) (pending : option exn) (x : world) : world :=
  suspend w (match pending with None => HReturned | Some e => HRaised e end) x.

(** ** [keepalive_task] *)

(** [for writer in disconnected: del self.clients[writer]] *)
Fixpoint remove_disconnected (ws : list writer) (x : world) : world :=
  match ws with
  | [] => suspend_keepalive KSleep x
  | w :: t =>
      match dict_del w (clients (server x)) with
      | None => suspend_keepalive (KRaised KeyError) x
      | Some d => remove_disconnected t (with_server (with_clients d (server x)) x)
      end
  end.

(** One turn of [for writer, client_id in self.clients.items()]: the
    iterator raises [RuntimeError] when the dict has changed size since the
    loop began, otherwise it yields the entry at its position, or ends the
    loop. *)
Definition next_client (msg : outmsg) (used pos : nat)
    (disconnected : list writer) (x : world) : world :=
  if negb (Nat.eqb (List.length (clients (server x))) used) then
    suspend_keepalive (KRaised RuntimeError) x
  else
    match nth_error (clients (server x)) pos with
    | Some (w, _) =>
        suspend_keepalive (KDrain msg used (S pos) w disconnected) (write w msg x)
    | None => remove_disconnected disconnected x
    end.

(** After [sleep(5)]. *)
Definition on_tick (x : world) : world :=
  match clients (server x) with
  | [] => x                                       (* [continue] *)
  | _ :: _ =>
      let '(response_id, s1) := _get_next_response_id (server x) in
      next_client (Keepalive response_id) (List.length (clients s1)) 0 []
        (with_server s1 x)
  end.

Definition on_keepalive_drained (msg : outmsg) (used pos : nat) (current : writer)
    (disconnected : list writer) (res : io_result) (x : world) : world :=
  match res with
  | Completed => next_client msg used pos disconnected x
  | Raises e =>
      if is_ConnectionError e
      then next_client msg used pos (disconnected ++ [current]) x
      else suspend_keepalive (KRaised e) x
  end.

(** ** The server as a transition system *)

(** [None] when the label does not name a coroutine suspended there. *)
Definition step (l : label) (x : world) : option world :=
  match l with
  | Accept w =>
      match handler_of w (handlers x) with
      | None => Some (accept w x)
      | Some _ => None
      end
  | Read w res clk rnd delay =>
      match handler_of w (handlers x) with
      | Some (HRead client_id) => Some (on_read w client_id res clk rnd delay x)
      | _ => None
      end
  | Wake w clk =>
      match handler_of w (handlers x) with
      | Some (HSleep client_id request_time message request_num _) =>
          Some (on_wake w client_id request_time message request_num clk x)
      | _ => None
      end
  | Drained w res clk =>
      match handler_of w (handlers x) with
      | Some (HDrain client_id request_time message response_time response) =>
          Some (on_drained w client_id request_time message response_time
                  response res clk x)
      | _ => None
      end
  | Closed w =>
      match handler_of w (handlers x) with
      | Some (HClose _ pending) => Some (on_closed w pending x)
      | _ => None
      end
  | Tick =>
      match keepalive x with
      | KSleep => Some (on_tick x)
      | _ => None
      end
  | KDrained res =>
      match keepalive x with
      | KDrain msg used pos current disconnected =>
          Some (on_keepalive_drained msg used pos current disconnected res x)
      | _ => None
      end
  end.

(** [run], up to [await asyncio.sleep(timeout)]: the log file is emptied,
    the listener and the keepalive task are started. *)
Definition run (s : TCPServer) (f : fs) : world :=
  {| server := s; files := truncate (log_file s) f; wire := []; closed := [];
     handlers := []; keepalive := KSleep |}.

(** The server after the resumptions [ls]; a label that is not enabled is
    skipped. *)
Fixpoint exec (ls : list label) (x : world) : world :=
  match ls with
  | [] => x
  | l :: t => exec t (match step l x with Some y => y | None => x end)
  end.

(** The ids carried by the writes, in the order of the writes. *)
Definition sent_ids (x : world) : list nat := map (fun p => id_of (snd p)) (wire x).

(** The list without the repetitions of an element after its first
    occurrence. *)
Definition distinct (l : list nat) : list nat := rev (nodup Nat.eq_dec (rev l)).

(** The audit log of the server. *)
Definition audit_log (x : world) : list string :=
  content (files x) (log_file (server x)).

(** The same server over other files. *)
Definition set_files (f : fs) (x : world) : world :=
  {| server := server x; files := f; wire := wire x; closed := closed x;
     handlers := handlers x; keepalive := keepalive x |}.

(** ** Vocabulary of the statements about the server *)

(** The server with the next response id allocated. *)
Definition allocated (x : world) : world :=
  with_server (snd (_get_next_response_id (server x))) x.

(** What holds of the wire whatever the coroutines have done so far. *)
Record ids_inv (x : world) : Prop := {
  inv_distinct : distinct (sent_ids x) = seq 0 (response_counter (server x));
  inv_bound : forall k, In k (sent_ids x) -> k < response_counter (server x);
  inv_pong : forall w r n c,
      In (w, Pong r n c) (wire x) -> count_occ Nat.eq_dec (sent_ids x) r = 1;
  inv_keepalive : forall msg used pos cur disc,
      keepalive x = KDrain msg used pos cur disc ->
      exists k, msg = Keepalive k /\ In k (sent_ids x) /\
                forall w r n c, In (w, Pong r n c) (wire x) -> r <> k
}.

(** Steps of a handler that neither write nor allocate. *)
Definition quiet (x y : world) : Prop :=
  wire y = wire x /\
  response_counter (server y) = response_counter (server x) /\
  keepalive y = keepalive x.

(** [h] reads nothing of the files and only appends lines to the log. *)
Definition appends_only (h : world -> world) (x : world) : Prop :=
  log_file (server (h x)) = log_file (server x) /\
  exists lines, forall f,
      h (set_files f x)
      = set_files (append_lines (log_file (server x)) lines f) (h x).

(** ** Vocabulary of the statements about the registry *)

(** The handler has left its loop: it is in its [finally] block, or it is
    done. *)
Definition left_loop (h : hstate) : bool :=
  match h with
  | HClose _ _ | HReturned | HRaised _ => true
  | _ => false
  end.

(** The client id a suspended handler holds in its frame. *)
Definition cid_of (h : hstate) : option nat :=
  match h with
  | HRead c | HSleep c _ _ _ _ | HDrain c _ _ _ _ | HClose c _ => Some c
  | HReturned | HRaised _ => None
  end.

(** The connections accepted so far, oldest first, each with its rank
    counted from 1. *)
Definition assigned (x : world) : list (writer * nat) :=
  combine (map fst (handlers x)) (seq 1 (client_counter (server x))).

(** What holds of the registry, the handlers and the streams closed,
    whatever the coroutines have done so far. *)
Record accepted_inv (x : world) : Prop := {
  acc_count : List.length (handlers x) = client_counter (server x);
  acc_nodup : NoDup (map fst (handlers x));
  acc_frame : forall w h c,
      handler_of w (handlers x) = Some h -> cid_of h = Some c ->
      In (w, c) (assigned x);
  acc_registered : forall w c,
      In (w, c) (clients (server x)) ->
      In (w, c) (assigned x) /\
      exists h, handler_of w (handlers x) = Some h /\ left_loop h = false;
  acc_keys : NoDup (map fst (clients (server x)));
  acc_pong : forall w r n c,
      In (w, Pong r n c) (wire x) -> In (w, c) (assigned x);
  acc_closed : forall w,
      In w (closed x) ->
      exists h, handler_of w (handlers x) = Some h /\ left_loop h = true;
  acc_closed_once : NoDup (closed x);
  acc_broadcast : forall msg used pos cur disc,
      keepalive x = KDrain msg used pos cur disc -> exists k, msg = Keepalive k
}.

(** The writers of [d] whose drain failed, [os] being the outcomes of the
    drains in the order of [d]. *)
Fixpoint failed (d : registry) (os : list io_result) : list writer :=
  match d, os with
  | (w, _) :: d', Completed :: os' => failed d' os'
  | (w, _) :: d', Raises _ :: os' => w :: failed d' os'
  | _, _ => []
  end.

(** The entries of [d] whose drain completed. *)
Fixpoint kept (d : registry) (os : list io_result) : registry :=
  match d, os with
  | p :: d', Completed :: os' => p :: kept d' os'
  | _ :: d', Raises _ :: os' => kept d' os'
  | _, _ => []
  end.

(** The keepalive lines among the writes. *)
Definition keepalives (wi : list (writer * outmsg)) : list (writer * outmsg) :=
  filter (fun p => match snd p with Keepalive _ => true | Pong _ _ _ => false end) wi.

(** The writes that went to the connection [w]. *)
Definition sent_to (w : writer) (wi : list (writer * outmsg))
    : list (writer * outmsg) :=
  filter (fun p => Nat.eqb (fst p) w) wi.

(** What is settled, from [x] on, for a connection that has a handler and
    no registry entry: in the later world [y] it still has a handler and
    no entry, no keepalive has been written to it and it has not been
    closed. *)
Definition forgotten (w : writer) (x y : world) : Prop :=
  handler_of w (handlers y) <> None /\
  dict_mem w (clients (server y)) = false /\
  sent_to w (keepalives (wire y)) = sent_to w (keepalives (wire x)) /\
  (In w (closed y) -> In w (closed x)).

End Server.

(* ================================================================== *)
(** * client.py *)
(* ================================================================== *)

Module Client.
Import Py.

(** The pair of streams [asyncio.open_connection] returns, known by its
    identity. *)
Definition handle : Type := nat.

Record TCPClient : Type := {
  client_id : nat;
  log_file : string;
  request_counter : nat;
  reader : option handle;
  writer : option handle
}.

(** [__init__] *)
Definition init (id : nat) (log : string) : TCPClient :=
  {| client_id := id; log_file := log; request_counter := 0;
     reader := None; writer := None |}.

(** ** The environment *)

(** How an awaited call ends. *)
Inductive outcome : Type :=
| Done                       (* [drain] returned *)
| Data (data : string)       (* [readuntil] returned [data] *)
| Opened                     (* [open_connection] returned new streams *)
| Fails (e : exn).

(** The answer of the environment to one await, and the wall clock when
    the coroutine resumes. *)
Record answer : Type := { result_of : outcome; clock_of : clock }.

(** What the client does to the outside, in order.  Durations are in
    milliseconds. *)
Inductive event : Type :=
| Write (h : handle) (line : string)
    (* [writer.write((line + "\n").encode("ascii"))] *)
| Sent (h : handle) (request_num : nat)
    (* [logger.debug("... отправлено {request_msg}")], after the drain *)
| WaitLine (h : handle) (timeout : Z)
    (* [asyncio.wait_for(reader.readuntil(b"\n"), timeout)] *)
| ReadLine (h : handle)
    (* [reader.readuntil(b"\n")] *)
| Close (h : handle)
    (* [writer.close()] and [await writer.wait_closed()] *)
| Connect
    (* [asyncio.open_connection(host, port)] *)
| Sleep (duration : Z)
    (* [asyncio.sleep(duration)] *)
| Append (line : string).
    (* [f.write(line + "\n")] on the log file opened with ["a"] *)

Record state : Type := {
  self : TCPClient;
  files : fs;
  now : clock;
  script : list answer;       (* the answers still to come *)
  trace : list event;         (* oldest first *)
  closed : list handle;       (* the streams [close()] was called on *)
  next_handle : handle
}.

(** ** Coroutines: state, exceptions, and awaits that may never resume *)

Inductive result (A : Type) : Type :=
| Returned (a : A)
| Raised (e : exn)
| Suspended.                 (* the script ended at an await *)

Arguments Returned {A} a.
Arguments Raised {A} e.
Arguments Suspended {A}.

Definition M (A : Type) : Type := state -> result A * state.

Definition ret {A} (a : A) : M A := fun s => (Returned a, s).

Definition bind {A B} (m : M A) (k : A -> M B) : M B :=
  fun s =>
    match m s with
    | (Returned a, s1) => k a s1
    | (Raised e, s1) => (Raised e, s1)
    | (Suspended, s1) => (Suspended, s1)
    end.

Definition raise {A} (e : exn) : M A := fun s => (Raised e, s).

(** [try: body except <classes>: handler] *)
Definition try_except {A} (body : M A) (classes : exn -> bool)
    (handler : exn -> M A) : M A :=
  fun s =>
    match body s with
    | (Raised e, s1) => if classes e then handler e s1 else (Raised e, s1)
    | r => r
    end.

(** [try: body finally: final] *)
Definition try_finally {A} (body : M A) (final : M unit) : M A :=
  fun s =>
    match body s with
    | (Suspended, s1) => (Suspended, s1)
    | (r, s1) =>
        match final s1 with
        | (Returned _, s2) => (r, s2)
        | (Raised e, s2) => (Raised e, s2)
        | (Suspended, s2) => (Suspended, s2)
        end
    end.

Declare Scope py_scope.
Delimit Scope py_scope with py.
Notation "x <- m ;; k" := (bind m (fun x => k))
  (at level 61, m at next level, right associativity) : py_scope.
Notation "m ;; k" := (bind m (fun _ => k))
  (at level 61, right associativity) : py_scope.
Local Open Scope py_scope.

Definition get_self : M TCPClient := fun s => (Returned (self s), s).

Definition set_self (c : TCPClient) : M unit :=
  fun s => (Returned tt,
            {| self := c; files := files s; now := now s; script := script s;
               trace := trace s; closed := closed s;
               next_handle := next_handle s |}).

Definition emit (e : event) : M unit :=
  fun s => (Returned tt,
            {| self := self s; files := files s; now := now s;
               script := script s; trace := trace s ++ [e];
               closed := closed s; next_handle := next_handle s |}).

(** An await the environment answers: the next answer of the script, the
    clock moving on to the time of the resumption. *)
Definition await : M outcome :=
  fun s =>
    match script s with
    | [] => (Suspended, s)
    | a :: rest =>
        (Returned (result_of a),
         {| self := self s; files := files s; now := clock_of a;
            script := rest; trace := trace s; closed := closed s;
            next_handle := next_handle s |})
    end.

Definition is_closed (h : handle) : M bool :=
  fun s => (Returned (existsb (Nat.eqb h) (closed s)), s).

(** [self._format_time()] *)
Definition _format_time : M string := fun s => (Returned (time_str (now s)), s).

(** [self._format_date()] *)
Definition _format_date : M string := fun s => (Returned (date_str (now s)), s).

(** ** asyncio *)

(** [await writer.drain()]: on a stream that has been closed it raises
    [ConnectionResetError]; otherwise the environment decides. *)
Definition drain (h : handle) : M unit :=
  c <- is_closed h ;;
  if (c : bool) then raise ConnectionError
  else
    o <- await ;;
    match o with
    | Done => ret tt
    | Fails e => raise e
    | _ => fun s => (Suspended, s)
    end.

(** [await asyncio.wait_for(reader.readuntil(b"\n"), timeout)] and, with no
    timeout, [await reader.readuntil(b"\n")].  The environment decides: a
    line, [TimeoutError], [IncompleteReadError] at the end of the stream,
    or another exception ([RuntimeError] when another coroutine already
    waits on the same reader). *)
Definition readuntil (h : handle) (timeout : option Z) : M string :=
  emit (match timeout with Some t => WaitLine h t | None => ReadLine h end) ;;
  o <- await ;;
  match o with
  | Data data => ret data
  | Fails e => raise e
  | _ => fun s => (Suspended, s)
  end.

(** [writer.close()] followed by [await writer.wait_closed()]. *)
Definition close (h : handle) : M unit :=
  emit (Close h) ;;
  fun s => (Returned tt,
            {| self := self s; files := files s; now := now s;
               script := script s; trace := trace s;
               closed := h :: closed s; next_handle := next_handle s |}).

(** [await asyncio.open_connection(host, port)]: new streams, or an
    exception. *)
Definition open_connection : M handle :=
  emit Connect ;;
  o <- await ;;
  match o with
  | Opened =>
      fun s => (Returned (next_handle s),
                {| self := self s; files := files s; now := now s;
                   script := script s; trace := trace s; closed := closed s;
                   next_handle := S (next_handle s) |})
  | Fails e => raise e
  | _ => fun s => (Suspended, s)
  end.

(** [await asyncio.sleep(duration)] *)
Definition sleep (duration : Z) : M unit := emit (Sleep duration).

(** [data.decode("ascii").strip()] *)
Definition decode_strip (data : string) : M string :=
  match decode_ascii data with
  | Some text => ret (strip text)
  | None => raise UnicodeDecodeError
  end.


(** ** [TCPClient] *)

Definition timeout_marker : string := "(таймаут)".

(** The line [_write_log] builds.  An empty [request_msg] is a keepalive;
    the two other branches of the source build the same line. *)
Definition log_line (date send_time request_msg receive_time response_msg : string)
    : string :=
  if String.eqb request_msg EmptyString then
    date ++ ";;;" ++ receive_time ++ ";" ++ response_msg
  else if String.eqb response_msg timeout_marker then
    date ++ ";" ++ send_time ++ ";" ++ request_msg ++ ";" ++ receive_time
         ++ ";" ++ timeout_marker
  else
    date ++ ";" ++ send_time ++ ";" ++ request_msg ++ ";" ++ receive_time
         ++ ";" ++ response_msg.

(** [_write_log] *)
Definition _write_log (send_time request_msg receive_time response_msg : string)
    : M unit :=
  date <- _format_date ;;
  let line := log_line date send_time request_msg receive_time response_msg in
  emit (Append line) ;;
  fun s =>
    (Returned tt,
     {| self := self s;
        files := append_line (log_file (self s)) line (files s);
        now := now s; script := script s; trace := trace s;
        closed := closed s; next_handle := next_handle s |}).

(** [f"[{self.request_counter}] PING"] *)
Definition request_msg_of (n : nat) : string := "[" ++ str_nat n ++ "] PING".

(** [connect] *)
Definition connect : M bool :=
  try_except
    (h <- open_connection ;;
     c <- get_self ;;
     set_self {| client_id := client_id c; log_file := log_file c;
                 request_counter := request_counter c;
                 reader := Some h; writer := Some h |} ;;
     ret true)
    is_ConnectionError
    (fun _ => ret false).

Definition max_retries : nat := 5.

(** One turn of the [while] loop of [reconnect]; returns the new values of
    [success] and [retries]. *)
Definition reconnect_turn (retries : nat) : M (bool * nat) :=
  try_except
    (success <- connect ;;
     if (success : bool) then ret (true, retries)
     else (sleep 1000 ;; ret (false, S retries)))
    (fun _ => true)                                  (* [except Exception] *)
    (fun _ => sleep 1000 ;; ret (false, S retries)).

(** [while not success and retries < max_retries]; [fuel] bounds the number
    of turns. *)
Fixpoint reconnect_loop (fuel : nat) (success : bool) (retries : nat) : M bool :=
  if negb success && Nat.ltb retries max_retries then
    match fuel with
    | 0 => fun s => (Suspended, s)
    | S fuel' =>
        sr <- reconnect_turn retries ;;
        reconnect_loop fuel' (fst sr) (snd sr)
    end
  else ret success.

(** [reconnect] *)
Definition reconnect : M bool :=
  c <- get_self ;;
  match writer c with
  | Some h => close h
  | None => ret tt
  end ;;
  reconnect_loop max_retries false 0.

Definition is_TimeoutError (e : exn) : bool :=
  match e with TimeoutError => true | _ => false end.

(** [self.reader.readuntil]: [self.reader] is set together with
    [self.writer]; on [None] the attribute lookup fails. *)
Definition the_reader : M handle :=
  c <- get_self ;;
  match reader c with
  | Some r => ret r
  | None => raise OtherError
  end.

(** The inner [try] of [send_ping]: wait for the reply and log. *)
Definition await_reply (send_time request_msg : string) : M unit :=
  try_except
    (r <- the_reader ;;
     data <- readuntil r (Some 2000%Z) ;;
     response_msg <- decode_strip data ;;
     receive_time <- _format_time ;;
     got <-
       (if contains "keepalive" response_msg then
          _write_log EmptyString EmptyString receive_time response_msg ;;
          try_except
            (r' <- the_reader ;;
             data' <- readuntil r' (Some 100%Z) ;;
             response_msg' <- decode_strip data' ;;
             receive_time' <- _format_time ;;
             ret (receive_time', response_msg'))
            is_Timeout_or_IncompleteRead
            (fun _ => ret (receive_time, response_msg))       (* [pass] *)
        else ret (receive_time, response_msg)) ;;
     _write_log send_time request_msg (fst got) (snd got))
    is_TimeoutError
    (fun _ =>
       receive_time <- _format_time ;;
       _write_log send_time request_msg receive_time timeout_marker).

(** [send_ping] *)
Definition send_ping : M unit :=
  c <- get_self ;;
  match writer c with
  | None => ret tt
  | Some w =>
      let request_msg := request_msg_of (request_counter c) in
      send_time <- _format_time ;;
      try_except
        (emit (Write w request_msg) ;;
         drain w ;;
         emit (Sent w (request_counter c)) ;;
         (* [current_request_num = self.request_counter]
            [self.request_counter += 1] *)
         c1 <- get_self ;;
         set_self {| client_id := client_id c1; log_file := log_file c1;
                     request_counter := request_counter c1 + 1;
                     reader := reader c1; writer := writer c1 |} ;;
         await_reply send_time request_msg)
        is_ConnectionError
        (fun _ => reconnect ;; ret tt)
  end.

Definition is_IncompleteRead_or_Connection (e : exn) : bool :=
  match e with IncompleteReadError | ConnectionError => true | _ => false end.

(** One turn of the [while True] loop of [message_receiver].  The two
    [except] clauses are tried in order; the second one is
    [except Exception]. *)
Definition message_receiver_turn : M unit :=
  c <- get_self ;;
  match reader c with
  | None => sleep 100
  | Some r =>
      try_except
        (data <- readuntil r None ;;
         response_msg <- decode_strip data ;;
         receive_time <- _format_time ;;
         if contains "keepalive" response_msg
         then _write_log EmptyString EmptyString receive_time response_msg
         else ret tt)
        (fun _ => true)
        (fun e =>
           if is_IncompleteRead_or_Connection e
           then reconnect ;; ret tt
           else sleep 100)
  end.

(** What the event loop runs next while [run] is in its loop: a cycle of
    the sender (a ping, then a sleep of [delay] milliseconds drawn by
    [random.randint(300, 3000)]), or a turn of the receiver task.  The
    receiver is scheduled between the cycles of the sender; both take their
    answers from the same script. *)
Inductive activity : Type :=
| Cycle (delay : Z)
| Receive.

Definition perform (a : activity) : M unit :=
  match a with
  | Cycle delay => send_ping ;; sleep delay
  | Receive => message_receiver_turn
  end.

Fixpoint perform_all (sched : list activity) : M unit :=
  match sched with
  | [] => ret tt
  | a :: rest => perform a ;; perform_all rest
  end.

(** [with open(self.log_file, "w") as f:] an empty write. *)
Definition truncate_log : M unit :=
  fun s =>
    (Returned tt,
     {| self := self s; files := truncate (log_file (self s)) (files s);
        now := now s; script := script s; trace := trace s;
        closed := closed s; next_handle := next_handle s |}).

(** [run]; [sched] is what happens before the time is up. *)
Definition run (sched : list activity) : M unit :=
  truncate_log ;;
  connected <- connect ;;
  if (connected : bool) then
    try_finally
      (perform_all sched)
      (c <- get_self ;;
       match writer c with
       | Some h => close h
       | None => ret tt
       end)
  else ret tt.

(** A client before [run]. *)
Definition start (c : TCPClient) (f : fs) (t : clock) (answers : list answer)
    : state :=
  {| self := c; files := f; now := t; script := answers; trace := [];
     closed := []; next_handle := 1 |}.

(** The request numbers of the pings that were sent, in order. *)
Definition sent_numbers (tr : list event) : list nat :=
  flat_map (fun e => match e with Sent _ n => [n] | _ => [] end) tr.

(** The lines written to the streams, with the stream. *)
Definition writes (tr : list event) : list (handle * string) :=
  flat_map (fun e => match e with Write h l => [(h, l)] | _ => [] end) tr.

(** The lines appended to the log file. *)
Definition logged (tr : list event) : list string :=
  flat_map (fun e => match e with Append l => [l] | _ => [] end) tr.

Definition audit_log (s : state) : list string :=
  content (files s) (log_file (self s)).

(** How a state relates to a later one: the log file keeps its name, the
    request counter only grows and the pings sent in between carry the
    numbers it went through, the trace and the audit log only grow, and
    the audit log grows by the lines appended in between. *)
Record evolves (s s' : state) : Prop := {
  ev_log_file : log_file (self s') = log_file (self s);
  ev_counter : request_counter (self s) <= request_counter (self s');
  ev_sent :
    sent_numbers (trace s')
    = sent_numbers (trace s)
        ++ seq (request_counter (self s))
               (request_counter (self s') - request_counter (self s));
  ev_trace : exists tr, trace s' = trace s ++ tr;
  ev_log : exists lines,
      audit_log s' = audit_log s ++ lines /\
      logged (trace s') = logged (trace s) ++ lines
}.

(** [m] run from [s] ends in a state related to [s] by [P]. *)
Definition keeps_at (P : state -> state -> Prop) {A} (m : M A) (s : state) : Prop :=
  P s (snd (m s)).

(** The connection the client holds is gone: it has no streams, or it has
    closed the ones it has. *)
Definition stale (s : state) : Prop :=
  match writer (self s) with
  | None => True
  | Some h => In h (closed s)
  end.

(** [k] failed attempts to connect, each followed by the pause of one
    second. *)
Definition failed_attempts (k : nat) : list event :=
  List.concat (repeat [Connect; Sleep 1000%Z] k).

(** ** Vocabulary of the statements about the client *)

(** The [Close] event of [reconnect]: the stale streams, when there are
    any. *)
Definition closes (s : state) : list event :=
  match writer (self s) with
  | Some h => [Close h]
  | None => []
  end.

(** The state once [reconnect] has closed the stale streams. *)
Definition after_close (s : state) : state :=
  match writer (self s) with
  | Some h =>
      {| self := self s; files := files s; now := now s; script := script s;
         trace := trace s ++ [Close h]; closed := h :: closed s;
         next_handle := next_handle s |}
  | None => s
  end.

(** The state once [send_ping] has written its line to the stream [h]. *)
Definition after_write (h : handle) (s : state) : state :=
  {| self := self s; files := files s; now := now s; script := script s;
     trace := trace s ++ [Write h (request_msg_of (request_counter (self s)))];
     closed := closed s; next_handle := next_handle s |}.

(** The state once [readuntil] has been called with a timeout. *)
Definition waiting (r : handle) (timeout : Z) (s : state) : state :=
  {| self := self s; files := files s; now := now s; script := script s;
     trace := trace s ++ [WaitLine r timeout]; closed := closed s;
     next_handle := next_handle s |}.

(** The state once the ping has been written and drained: the drain was
    answered at [t], [rest] is what remains of the script. *)
Definition after_sent (h : handle) (t : clock) (rest : list answer) (s : state)
    : state :=
  {| self := {| client_id := client_id (self s); log_file := log_file (self s);
                request_counter := request_counter (self s) + 1;
                reader := reader (self s); writer := writer (self s) |};
     files := files s; now := t; script := rest;
     trace := trace s ++ [Write h (request_msg_of (request_counter (self s)));
                          Sent h (request_counter (self s))];
     closed := closed s; next_handle := next_handle s |}.

(** The trace only grows. *)
Definition extends (s s' : state) : Prop := exists tr, trace s' = trace s ++ tr.

(** The streams are numbered in the order they are opened: those the client
    has closed and those it holds were opened already, and its reader and
    its writer are the two ends of one connection. *)
Definition handles_ok (s : state) : Prop :=
  (forall h, In h (closed s) -> h < next_handle s) /\
  (forall h, writer (self s) = Some h -> h < next_handle s) /\
  reader (self s) = writer (self s).

Definition keeps_handles (s s' : state) : Prop := handles_ok s -> handles_ok s'.

(** [main]: [f"logs/client_{args.id}.log"], the log file of a client
    started without [--log]. *)
Definition default_log (id : Z) : string := "logs/client_" ++ str id ++ ".log".

End Client.

(* ================================================================== *)
(** * launcher.py *)
(* ================================================================== *)

Module Launcher.
Import Py.

Definition SERVER_SCRIPT : string := "server.py".
Definition CLIENT_SCRIPT : string := "client.py".

(** [common_args] *)
Definition common_args (debug : bool) : list string :=
  if debug then ["--debug"] else [].

(** [server_cmd]; [executable] is [sys.executable]. *)
Definition server_cmd (executable : string) (timeout : Z) (debug : bool)
    : list string :=
  [executable; SERVER_SCRIPT; "--host"; "127.0.0.1"; "--port"; "8888";
   "--log"; "logs/server.log"; "--timeout"; str timeout] ++ common_args debug.

(** [client_cmd] *)
Definition client_cmd (executable : string) (client_id timeout : Z) (debug : bool)
    : list string :=
  [executable; CLIENT_SCRIPT; "--id"; str client_id; "--host"; "127.0.0.1";
   "--port"; "8888"; "--log"; ("logs/client_" ++ str client_id ++ ".log")%string;
   "--timeout"; str timeout] ++ common_args debug.

(** The command lines [main] hands to [subprocess.Popen], in order, when
    the server process stays up: the server, then one client for each id
    of [range(1, args.clients + 1)]. *)
Definition commands (executable : string) (clients timeout : Z) (debug : bool)
    : list (list string) :=
  server_cmd executable timeout debug
    :: map (fun client_id => client_cmd executable client_id timeout debug)
         (range 1 (clients + 1)).

(** [sys.argv[1:]] of the process started with [cmd]: what its [argparse]
    parser reads. *)
Definition argv_1 (cmd : list string) : list string := skipn 2 cmd.

End Launcher.

(* ================================================================== *)
(** * Sample inputs *)
(* ================================================================== *)

Definition noon : Py.clock :=
  {| Py.time_str := "12:00:00.000"; Py.date_str := "2026-01-01" |}.

Definition answered (o : Client.outcome) : Client.answer :=
  {| Client.result_of := o; Client.clock_of := noon |}.

(** A client that has sent pings 0..2 and has closed its streams. *)
Definition lost : Client.state :=
  {| Client.self := {| Client.client_id := 1;
                       Client.log_file := "logs/client_1.log";
                       Client.request_counter := 3;
                       Client.reader := Some 1; Client.writer := Some 1 |};
     Client.files := fun _ => None; Client.now := noon; Client.script := [];
     Client.trace := []; Client.closed := [1]; Client.next_handle := 2 |}.

(** A connected client about to send ping 3; the drain completes and the
    reply does not come. *)
Definition unanswered : Client.state :=
  {| Client.self := {| Client.client_id := 1;
                       Client.log_file := "logs/client_1.log";
                       Client.request_counter := 3;
                       Client.reader := Some 1; Client.writer := Some 1 |};
     Client.files := fun _ => None; Client.now := noon;
     Client.script := [answered Client.Done;
                       answered (Client.Fails Py.TimeoutError)];
     Client.trace := []; Client.closed := []; Client.next_handle := 2 |}.

(** A connected client about to send ping 3, with the answers to come. *)
Definition connected (answers : list Client.answer) : Client.state :=
  {| Client.self := {| Client.client_id := 1;
                       Client.log_file := "logs/client_1.log";
                       Client.request_counter := 3;
                       Client.reader := Some 1; Client.writer := Some 1 |};
     Client.files := fun _ => None; Client.now := noon;
     Client.script := answers;
     Client.trace := []; Client.closed := []; Client.next_handle := 2 |}.

(** A client whose streams are closed; the next attempt to connect fails,
    the one after it succeeds. *)
Definition reachable_again : Client.state :=
  {| Client.self := {| Client.client_id := 1;
                       Client.log_file := "logs/client_1.log";
                       Client.request_counter := 3;
                       Client.reader := Some 1; Client.writer := Some 1 |};
     Client.files := fun _ => None; Client.now := noon;
     Client.script := [answered (Client.Fails Py.ConnectionError);
                       answered Client.Opened];
     Client.trace := []; Client.closed := [1]; Client.next_handle := 2 |}.

(* ================================================================== *)
(** * The built-ins: examples and facts *)
(* ================================================================== *)

Section PyFacts.

Example int_plain : Py.int "5" = Some 5%Z. Proof. reflexivity. Qed.
Example int_blank : Py.int " 5 " = Some 5%Z. Proof. reflexivity. Qed.
Example int_minus : Py.int "-5" = Some (-5)%Z. Proof. reflexivity. Qed.
Example int_zeros : Py.int "+007" = Some 7%Z. Proof. reflexivity. Qed.
Example int_underscore : Py.int "1_0" = Some 10%Z. Proof. reflexivity. Qed.
Example int_underscore_first : Py.int "_1" = None. Proof. reflexivity. Qed.
Example int_underscore_last : Py.int "1_" = None. Proof. reflexivity. Qed.
Example int_underscore_twice : Py.int "1__0" = None. Proof. reflexivity. Qed.
Example int_empty : Py.int EmptyString = None. Proof. reflexivity. Qed.
Example int_sign_only : Py.int "+" = None. Proof. reflexivity. Qed.
Example int_sign_blank : Py.int "+ 5" = None. Proof. reflexivity. Qed.
Example int_hex : Py.int "0x10" = None. Proof. reflexivity. Qed.
Example split_none : Py.split_bracket_0 "abc" = "abc". Proof. reflexivity. Qed.
Example split_some : Py.split_bracket_0 "a]b]c" = "a". Proof. reflexivity. Qed.
Example strip_both : Py.strip "  [1] PING  " = "[1] PING". Proof. reflexivity. Qed.
Example str_neg : Py.str (-12) = "-12". Proof. reflexivity. Qed.
Example str_zero : Py.str 0 = "0". Proof. reflexivity. Qed.
Example contains_yes : Py.contains "keepalive" "[3] keepalive" = true.
Proof. reflexivity. Qed.
Example contains_no : Py.contains "keepalive" "[3/1] PONG (2)" = false.
Proof. reflexivity. Qed.

(** What a file holds after an append. *)
Lemma content_append path l f :
  Py.content (Py.append_line path l f) path = Py.content f path ++ [l].
Proof. unfold Py.content at 1, Py.append_line. now rewrite String.eqb_refl. Qed.

Lemma content_append_lines path lines f :
  Py.content (Py.append_lines path lines f) path = Py.content f path ++ lines.
Proof.
  revert f. induction lines as [| l t IH]; intros f; simpl.
  - now rewrite app_nil_r.
  - rewrite IH, content_append, <- app_assoc. reflexivity.
Qed.

End PyFacts.

(* ================================================================== *)
(** * The server: response ids *)
(* ================================================================== *)

Module ServerIds.
Import Py Server.

Lemma distinct_snoc (l : list nat) (a : nat) :
  distinct (l ++ [a]) =
  if in_dec Nat.eq_dec a l then distinct l else distinct l ++ [a].
Proof.
  unfold distinct. rewrite rev_app_distr. simpl.
  destruct (in_dec Nat.eq_dec a (rev l)) as [H | H];
    destruct (in_dec Nat.eq_dec a l) as [H' | H']; try reflexivity.
  - apply in_rev in H. contradiction.
  - apply in_rev in H'. contradiction.
Qed.

Lemma sent_ids_write w m x : sent_ids (write w m x) = sent_ids x ++ [id_of m].
Proof. unfold sent_ids, write. simpl. now rewrite map_app. Qed.

Lemma in_sent_ids w m x : In (w, m) (wire x) -> In (id_of m) (sent_ids x).
Proof.
  intros H. unfold sent_ids.
  change (id_of m) with ((fun p : writer * outmsg => id_of (snd p)) (w, m)).
  now apply in_map.
Qed.

(** A step that writes nothing, allocates nothing and does not leave the
    keepalive task inside a new broadcast. *)
Lemma ids_inv_frame x y :
  wire y = wire x ->
  response_counter (server y) = response_counter (server x) ->
  (keepalive y = keepalive x \/ keepalive y = KSleep \/
   exists e, keepalive y = KRaised e) ->
  ids_inv x -> ids_inv y.
Proof.
  intros Hw Hc Hk [I1 I2 I3 I4].
  assert (Hs : sent_ids y = sent_ids x) by (unfold sent_ids; now rewrite Hw).
  constructor; rewrite ?Hs, ?Hc, ?Hw; auto.
  intros msg used pos cur disc Hy.
  destruct Hk as [Hk | [Hk | [e Hk]]]; rewrite Hk in Hy; try discriminate.
  eauto.
Qed.

Lemma allocated_id x :
  fst (_get_next_response_id (server x)) = response_counter (server x).
Proof. unfold _get_next_response_id. simpl. lia. Qed.

Lemma fresh_id x : ids_inv x -> ~ In (response_counter (server x)) (sent_ids x).
Proof. intros I Hin. apply (inv_bound x I) in Hin. lia. Qed.

(** A reply written with the id that has just been allocated. *)
Lemma ids_inv_pong x w n c :
  ids_inv x ->
  ids_inv (write w (Pong (response_counter (server x)) n c) (allocated x)).
Proof.
  intros I. pose proof (fresh_id x I) as Hfresh. destruct I as [I1 I2 I3 I4].
  set (r0 := response_counter (server x)) in *.
  set (y := write _ _ _).
  assert (Hs : sent_ids y = sent_ids x ++ [r0])
    by (unfold y, sent_ids; simpl; now rewrite map_app).
  assert (Hc : response_counter (server y) = S r0) by reflexivity.
  assert (Hw : wire y = wire x ++ [(w, Pong r0 n c)]) by reflexivity.
  constructor.
  - rewrite Hs, Hc, distinct_snoc.
    destruct (in_dec Nat.eq_dec r0 (sent_ids x)); [contradiction |].
    rewrite I1. fold r0. now rewrite seq_S.
  - rewrite Hs, Hc. intros j Hj. apply in_app_or in Hj.
    destruct Hj as [Hj | [Hj | []]]; [apply I2 in Hj; fold r0 in Hj; lia | lia].
  - rewrite Hs, Hw. intros w' r n' c' Hin. rewrite count_occ_app.
    apply in_app_or in Hin. destruct Hin as [Hin | [Hin | []]].
    + rewrite (I3 _ _ _ _ Hin). simpl.
      destruct (Nat.eq_dec r0 r) as [E | E]; [| reflexivity].
      exfalso. apply Hfresh. rewrite E.
      now apply (in_sent_ids w' (Pong r n' c')).
    + inversion Hin; subst. simpl.
      match goal with
      | |- context [Nat.eq_dec ?a ?b] => destruct (Nat.eq_dec a b); [| congruence]
      end.
      apply (count_occ_not_In Nat.eq_dec) in Hfresh.
      now rewrite Hfresh.
  - intros msg used pos cur disc Hy. change (keepalive y) with (keepalive x) in Hy.
    rewrite Hs, Hw. destruct (I4 _ _ _ _ _ Hy) as (j & Hj1 & Hj2 & Hj3).
    exists j. repeat split; auto.
    + apply in_or_app. now left.
    + intros w' r' n' c' Hin. apply in_app_or in Hin.
      destruct Hin as [Hin | [Hin | []]]; [eauto |].
      inversion Hin; subst. apply I2 in Hj2. fold r0 in Hj2. lia.
Qed.

(** The first copy of a keepalive, written with the id that has just been
    allocated. *)
Lemma ids_inv_keepalive_first x w used pos disc :
  ids_inv x ->
  ids_inv (suspend_keepalive
             (KDrain (Keepalive (response_counter (server x))) used pos w disc)
             (write w (Keepalive (response_counter (server x))) (allocated x))).
Proof.
  intros I. pose proof (fresh_id x I) as Hfresh. destruct I as [I1 I2 I3 I4].
  set (r0 := response_counter (server x)) in *.
  set (y := suspend_keepalive _ _).
  assert (Hs : sent_ids y = sent_ids x ++ [r0])
    by (unfold y, sent_ids; simpl; now rewrite map_app).
  assert (Hc : response_counter (server y) = S r0) by reflexivity.
  assert (Hw : wire y = wire x ++ [(w, Keepalive r0)]) by reflexivity.
  constructor.
  - rewrite Hs, Hc, distinct_snoc.
    destruct (in_dec Nat.eq_dec r0 (sent_ids x)); [contradiction |].
    rewrite I1. fold r0. now rewrite seq_S.
  - rewrite Hs, Hc. intros j Hj. apply in_app_or in Hj.
    destruct Hj as [Hj | [Hj | []]]; [apply I2 in Hj; fold r0 in Hj; lia | lia].
  - rewrite Hs, Hw. intros w' r n' c' Hin. rewrite count_occ_app.
    apply in_app_or in Hin. destruct Hin as [Hin | [Hin | []]]; [| discriminate].
    rewrite (I3 _ _ _ _ Hin). simpl.
    destruct (Nat.eq_dec r0 r) as [E | E]; [| reflexivity].
    exfalso. apply Hfresh. rewrite E.
    now apply (in_sent_ids w' (Pong r n' c')).
  - intros msg used' pos' cur disc' Hy. unfold y in Hy. simpl in Hy.
    inversion Hy; subst. exists r0. rewrite Hs, Hw. repeat split.
    + apply in_or_app. right. now left.
    + intros w' r' n' c' Hin. apply in_app_or in Hin.
      destruct Hin as [Hin | [Hin | []]]; [| discriminate].
      intros E. apply Hfresh. rewrite <- E.
      now apply (in_sent_ids w' (Pong r' n' c')).
Qed.

(** One more copy of the keepalive being broadcast. *)
Lemma ids_inv_keepalive_copy x w msg used pos cur disc used' pos' disc' :
  ids_inv x ->
  keepalive x = KDrain msg used pos cur disc ->
  ids_inv (suspend_keepalive (KDrain msg used' pos' w disc') (write w msg x)).
Proof.
  intros [I1 I2 I3 I4] Hk.
  destruct (I4 _ _ _ _ _ Hk) as (k & Hm & Hin & Hp). subst msg.
  set (y := suspend_keepalive _ _).
  assert (Hs : sent_ids y = sent_ids x ++ [k])
    by (unfold y, sent_ids; simpl; now rewrite map_app).
  assert (Hc : response_counter (server y) = response_counter (server x))
    by reflexivity.
  assert (Hw : wire y = wire x ++ [(w, Keepalive k)]) by reflexivity.
  constructor.
  - rewrite Hs, Hc, distinct_snoc.
    destruct (in_dec Nat.eq_dec k (sent_ids x)); [assumption | contradiction].
  - rewrite Hs, Hc. intros j Hj. apply in_app_or in Hj.
    destruct Hj as [Hj | [Hj | []]]; [now apply I2 | subst j; now apply I2].
  - rewrite Hs, Hw. intros w' r n' c' Hin'. rewrite count_occ_app.
    apply in_app_or in Hin'. destruct Hin' as [Hin' | [Hin' | []]]; [| discriminate].
    rewrite (I3 _ _ _ _ Hin'). simpl.
    destruct (Nat.eq_dec k r) as [E | E]; [| reflexivity].
    exfalso. exact (Hp _ _ _ _ Hin' (eq_sym E)).
  - intros msg used'' pos'' cur' disc'' Hy. unfold y in Hy. simpl in Hy.
    inversion Hy; subst. exists k. rewrite Hs, Hw. repeat split.
    + apply in_or_app. now left.
    + intros w' r' n' c' Hin'. apply in_app_or in Hin'.
      destruct Hin' as [Hin' | [Hin' | []]]; [eauto | discriminate].
Qed.

Lemma quiet_inv x y : quiet x y -> ids_inv x -> ids_inv y.
Proof. intros (Hw & Hc & Hk). apply ids_inv_frame; auto. Qed.

Lemma quiet_cleanup w cid pending x : quiet x (cleanup w cid pending x).
Proof.
  unfold cleanup. destruct (dict_del w (clients (server x)));
    repeat split; reflexivity.
Qed.

Lemma quiet_on_line w cid data clk rnd delay x :
  quiet x (on_line w cid data clk rnd delay x).
Proof.
  unfold on_line, raised. destruct (decode_ascii data); [| apply quiet_cleanup].
  destruct (drops rnd); [repeat split; reflexivity |].
  destruct (parse_request _); repeat split; reflexivity.
Qed.

Lemma quiet_on_read w cid res clk rnd delay x :
  quiet x (on_read w cid res clk rnd delay x).
Proof.
  unfold on_read, raised. destruct res as [data | e];
    [apply quiet_on_line | destruct e; apply quiet_cleanup].
Qed.

Lemma quiet_on_drained w cid rt msg rst resp res clk x :
  quiet x (on_drained w cid rt msg rst resp res clk x).
Proof.
  unfold on_drained, raised. destruct res;
    [repeat split; reflexivity | apply quiet_cleanup].
Qed.

Lemma remove_disconnected_frame ws x :
  let y := remove_disconnected ws x in
  wire y = wire x /\
  response_counter (server y) = response_counter (server x) /\
  (keepalive y = KSleep \/ exists e, keepalive y = KRaised e).
Proof.
  revert x. induction ws as [| w ws IH]; intros x; simpl.
  - repeat split; auto.
  - destruct (dict_del w (clients (server x))) as [d |].
    + destruct (IH (with_server (with_clients d (server x)) x)) as (Hw & Hc & Hk).
      split; [exact Hw | split; [exact Hc | exact Hk]].
    + split; [reflexivity | split; [reflexivity | right; now exists KeyError]].
Qed.

Lemma ids_inv_next_client x msg used pos cur disc used' pos' disc' :
  ids_inv x ->
  keepalive x = KDrain msg used pos cur disc ->
  ids_inv (next_client msg used' pos' disc' x).
Proof.
  intros I Hk. unfold next_client.
  destruct (negb _).
  - apply (ids_inv_frame x); simpl; eauto.
  - destruct (nth_error (clients (server x)) pos') as [[w c] |].
    + now apply (ids_inv_keepalive_copy x w msg used pos cur disc).
    + destruct (remove_disconnected_frame disc' x) as (Hw & Hc & Hk').
      apply (ids_inv_frame x); auto.
Qed.

Lemma ids_inv_on_tick x : ids_inv x -> ids_inv (on_tick x).
Proof.
  intros I. unfold on_tick.
  destruct (clients (server x)) as [| [w c] t] eqn:E; [assumption |].
  pose proof (allocated_id x) as Hid.
  destruct (_get_next_response_id (server x)) as [rid s1] eqn:Ea.
  simpl in Hid. subst rid.
  assert (Hs1 : s1 = snd (_get_next_response_id (server x))) by now rewrite Ea.
  assert (Hcl : clients s1 = (w, c) :: t) by (rewrite Hs1; simpl; exact E).
  unfold next_client. rewrite Hcl. cbn [server with_server clients].
  rewrite Hcl, Nat.eqb_refl. cbn [negb nth_error].
  rewrite Hs1. apply ids_inv_keepalive_first. exact I.
Qed.

Lemma ids_inv_step l x y : ids_inv x -> step l x = Some y -> ids_inv y.
Proof.
  intros I Hstep. destruct l as [w | w res clk rnd delay | w clk | w res clk | w | | res];
    simpl in Hstep.
  - destruct (handler_of w (handlers x)); [discriminate |].
    inversion Hstep; subst. apply (quiet_inv x); auto.
    repeat split; reflexivity.
  - destruct (handler_of w (handlers x)) as [[] |]; try discriminate.
    inversion Hstep; subst. apply (quiet_inv x); auto. apply quiet_on_read.
  - destruct (handler_of w (handlers x)) as [[] |]; try discriminate.
    inversion Hstep; subst. unfold on_wake.
    pose proof (allocated_id x) as Hid.
    destruct (_get_next_response_id (server x)) as [rid s1] eqn:Ea.
    simpl in Hid. subst rid.
    assert (Hs1 : s1 = snd (_get_next_response_id (server x))) by now rewrite Ea.
    rewrite Hs1.
    apply (quiet_inv (write w (Pong (response_counter (server x)) request_num
                                 client_id) (allocated x))).
    + repeat split; reflexivity.
    + now apply ids_inv_pong.
  - destruct (handler_of w (handlers x)) as [[] |]; try discriminate.
    inversion Hstep; subst. apply (quiet_inv x); auto. apply quiet_on_drained.
  - destruct (handler_of w (handlers x)) as [[] |]; try discriminate.
    inversion Hstep; subst. apply (quiet_inv x); auto.
    repeat split; reflexivity.
  - destruct (keepalive x) eqn:Ek; try discriminate.
    inversion Hstep; subst. now apply ids_inv_on_tick.
  - destruct (keepalive x) as [| msg used pos cur disc | e] eqn:Ek;
      try discriminate.
    inversion Hstep; subst. unfold on_keepalive_drained.
    destruct res as [| e].
    + now apply (ids_inv_next_client x msg used pos cur disc).
    + destruct (is_ConnectionError e).
      * now apply (ids_inv_next_client x msg used pos cur disc).
      * apply (ids_inv_frame x); simpl; eauto.
Qed.

Lemma ids_inv_run log f : ids_inv (run (init log) f).
Proof.
  constructor; simpl.
  - reflexivity.
  - intros k [].
  - intros w r n c [].
  - intros; discriminate.
Qed.

Lemma ids_inv_exec ls x : ids_inv x -> ids_inv (exec ls x).
Proof.
  revert x. induction ls as [| l ls IH]; intros x I; simpl; [assumption |].
  apply IH. destruct (step l x) as [y |] eqn:E; [| assumption].
  now apply (ids_inv_step l x).
Qed.

End ServerIds.

(** The claim as it is stated fails once two connections are registered:
    [keepalive_task] allocates one id for a broadcast and writes the same
    line to every registered writer. *)
Lemma keepalive_copies_share_id :
  let x := Server.exec
             [Server.Accept 1; Server.Accept 2; Server.Tick;
              Server.KDrained Server.Completed]
             (Server.run (Server.init "logs/server.log") (fun _ => None)) in
  Server.wire x = [(1, Server.Keepalive 0); (2, Server.Keepalive 0)] /\
  Server.sent_ids x = [0; 0] /\
  Server.sent_ids x <> seq 0 (List.length (Server.wire x)) /\
  ~ NoDup (Server.sent_ids x).
Proof.
  cbv zeta. repeat split; try reflexivity.
  - discriminate.
  - intros H. inversion H as [| a l Hn Hd]; subst. apply Hn. now left.
Qed.

Lemma unique_by_count {A} (g : A -> nat) (l : list A) (a b : A) :
  count_occ Nat.eq_dec (map g l) (g a) = 1 ->
  In a l -> In b l -> g b = g a -> a = b.
Proof.
  induction l as [| x t IH]; intros Hc Ha Hb Hg; [destruct Ha |].
  simpl in Hc. destruct (Nat.eq_dec (g x) (g a)) as [E | E].
  - assert (Hz : count_occ Nat.eq_dec (map g t) (g a) = 0) by lia.
    assert (Hnot : forall y, In y t -> g y <> g a).
    { intros y Hy Ey. apply (in_map g) in Hy. rewrite Ey in Hy.
      apply (count_occ_In Nat.eq_dec) in Hy. lia. }
    destruct Ha as [Ha | Ha]; destruct Hb as [Hb | Hb].
    + congruence.
    + exfalso. exact (Hnot _ Hb Hg).
    + exfalso. exact (Hnot _ Ha eq_refl).
    + exfalso. exact (Hnot _ Ha eq_refl).
  - destruct Ha as [Ha | Ha]; [subst; contradiction |].
    destruct Hb as [Hb | Hb]; [subst; rewrite Hg in E; contradiction |].
    now apply IH.
Qed.

(** C1 (amended).  Whatever the handlers and the keepalive task have done,
    the ids read off the wire in the order of their first appearance are
    0, 1, ..., n-1, where n is the number of ids allocated; the id of a
    reply is carried by no other write; and two writes that carry the same
    id carry the same message, so only the copies of one keepalive
    broadcast share an id. *)
Theorem response_ids_in_allocation_order (log : string) (f : Py.fs)
    (ls : list Server.label) :
  let x := Server.exec ls (Server.run (Server.init log) f) in
  Server.distinct (Server.sent_ids x)
    = seq 0 (Server.response_counter (Server.server x)) /\
  (forall w r n c,
      In (w, Server.Pong r n c) (Server.wire x) ->
      count_occ Nat.eq_dec (Server.sent_ids x) r = 1) /\
  (forall w1 m1 w2 m2,
      In (w1, m1) (Server.wire x) -> In (w2, m2) (Server.wire x) ->
      Server.id_of m1 = Server.id_of m2 -> m1 = m2).
Proof.
  intros x.
  pose proof (ServerIds.ids_inv_exec ls _ (ServerIds.ids_inv_run log f)) as I.
  fold x in I. destruct I as [I1 I2 I3 I4].
  split; [exact I1 |]. split; [exact I3 |].
  assert (Hpong : forall w r n c w' m',
             In (w, Server.Pong r n c) (Server.wire x) ->
             In (w', m') (Server.wire x) ->
             Server.id_of m' = r -> Server.Pong r n c = m').
  { intros w r n c w' m' H1 H2 E.
    pose proof (I3 _ _ _ _ H1) as Hc.
    assert (Heq : (w, Server.Pong r n c) = (w', m')).
    { apply (unique_by_count (fun p => Server.id_of (snd p)) (Server.wire x));
        auto. }
    congruence. }
  intros w1 m1 w2 m2 H1 H2 E.
  destruct m1 as [r n c | k].
  - apply (Hpong w1 r n c w2 m2); auto.
  - destruct m2 as [r n c | k'].
    + symmetry. apply (Hpong w2 r n c w1 (Server.Keepalive k)); auto.
    + simpl in E. now subst.
Qed.

Lemma response_ids_in_allocation_order_witness :
  let x := Server.exec
             [Server.Accept 1;
              Server.Read 1 (Server.Line (Py.line_of "[7] PING")) noon (1 # 2)%Q 100;
              Server.Wake 1 noon]
             (Server.run (Server.init "logs/server.log") (fun _ => None)) in
  In (1, Server.Pong 0 7 1) (Server.wire x) /\
  count_occ Nat.eq_dec (Server.sent_ids x) 0 = 1.
Proof.
  cbv zeta. split.
  - vm_compute. left. reflexivity.
  - apply (proj1 (proj2 (response_ids_in_allocation_order _ _ _)) 1 0 7%Z 1).
    vm_compute. left. reflexivity.
Defined.

(* ================================================================== *)
(** * The server: one line of one connection *)
(* ================================================================== *)

Module ServerLines.
Import Py Server.

Lemma set_handler_same w h hs : handler_of w hs = Some h -> set_handler w h hs = hs.
Proof.
  induction hs as [| [k h0] t IH]; simpl; [discriminate |].
  destruct (Nat.eqb k w) eqn:E.
  - intros H. now inversion H.
  - intros H. now rewrite IH.
Qed.

Lemma handler_of_set w h hs : handler_of w (set_handler w h hs) = Some h.
Proof.
  induction hs as [| [k h0] t IH]; simpl.
  - now rewrite Nat.eqb_refl.
  - destruct (Nat.eqb k w) eqn:E; simpl; now rewrite E.
Qed.

(** Suspending a handler where it already is changes nothing. *)
Lemma suspend_same w h x : handler_of w (handlers x) = Some h -> suspend w h x = x.
Proof.
  intros H. destruct x as [s f wi c hs k]. unfold suspend. simpl in *.
  now rewrite set_handler_same.
Qed.

Lemma drops_iff rnd : drops rnd = true <-> (rnd < 1 # 10)%Q.
Proof.
  unfold drops. rewrite negb_true_iff. split.
  - intros H. apply Qnot_le_lt. intros Hle.
    apply Qle_bool_iff in Hle. congruence.
  - intros H. destruct (Qle_bool (1 # 10) rnd) eqn:E; [| reflexivity].
    apply Qle_bool_iff in E. exfalso. exact (Qlt_not_le _ _ H E).
Qed.

Lemma split_bracket_0_app body rest :
  forallb (fun c => negb (Ascii.eqb c "]")) (list_ascii_of_string body) = true ->
  split_bracket_0 (body ++ "]" ++ rest)%string = body.
Proof.
  induction body as [| c t IH]; simpl; [reflexivity |].
  intros H. apply andb_true_iff in H. destruct H as [Hc Ht].
  apply negb_true_iff in Hc. rewrite Hc. f_equal. now apply IH.
Qed.

(** The format check looks at nothing but the text between the first
    character and the first [']']. *)
Lemma parse_request_shape (c : ascii) (body rest : string) :
  forallb (fun c => negb (Ascii.eqb c "]")) (list_ascii_of_string body) = true ->
  parse_request (String c (body ++ "]" ++ rest)%string) = int body.
Proof.
  intros H. unfold parse_request.
  change (slice_from_1 (String c (body ++ "]" ++ rest)%string))
    with (body ++ "]" ++ rest)%string.
  now rewrite split_bracket_0_app.
Qed.

(** [del d[w]] raises exactly when [w] is not a key of [d]. *)
Lemma dict_del_raises w d : dict_del w d = None <-> dict_mem w d = false.
Proof.
  induction d as [| [k u] t IH]; simpl; [tauto |].
  destruct (Nat.eqb k w); [split; discriminate |].
  destruct (dict_del w t); split; intros H; try discriminate;
    try (apply IH in H; discriminate); tauto.
Qed.

(** The cleanup of a handler whose writer is no longer registered ends in
    [KeyError], whatever made the handler leave its loop. *)
Lemma cleanup_unregistered_raises w cid pending x :
  dict_mem w (clients (server x)) = false ->
  cleanup w cid pending x = suspend w (HRaised KeyError) x.
Proof.
  intros H. apply dict_del_raises in H. unfold cleanup. now rewrite H.
Qed.

(** A line with a byte above 127 is not decoded: [UnicodeDecodeError]
    passes the [except ConnectionError] clause and leaves the handler once
    the [finally] block has run. *)
Lemma undecodable_line_raises x w cid data clk rnd delay :
  handler_of w (handlers x) = Some (HRead cid) ->
  decode_ascii data = None ->
  step (Read w (Line data) clk rnd delay) x
  = Some (cleanup w cid (Some UnicodeDecodeError) x).
Proof.
  intros Hh Hd. simpl. rewrite Hh. unfold on_read, on_line. now rewrite Hd.
Qed.

End ServerLines.



(** The claim as it is stated fails: the drop decision comes before the
    format check, so a line that does not pass the check is logged as
    ignored when the draw is below 1/10. *)
Lemma malformed_line_logged_when_dropped :
  let x := Server.exec [Server.Accept 1]
             (Server.run (Server.init "logs/server.log") (fun _ => None)) in
  let y := Server.exec
             [Server.Read 1 (Server.Line (Py.line_of "hello")) noon (1 # 20)%Q 100]
             x in
  Server.parse_request (Py.strip (Py.line_of "hello")) = None /\
  Server.audit_log x = [] /\
  Server.audit_log y =
    ["2026-01-01;12:00:00.000;hello;(проигнорировано);(проигнорировано)"] /\
  Server.audit_log y <> Server.audit_log x.
Proof. cbv zeta. repeat split; try reflexivity. discriminate. Qed.

(** C4 (amended).  An ASCII line that is not dropped and does not pass the
    format check changes nothing: nothing is written to the connection, no
    entry is added to the audit log, no response id is allocated, no
    exception leaves the handler, and the handler goes on reading. *)
Theorem malformed_line_skipped (x : Server.world) (w : Server.writer) (cid : nat)
    (data text : string) (clk : Py.clock) (rnd : Q) (delay : Z) :
  Server.handler_of w (Server.handlers x) = Some (Server.HRead cid) ->
  Py.decode_ascii data = Some text ->
  Server.drops rnd = false ->
  Server.parse_request (Py.strip text) = None ->
  Server.step (Server.Read w (Server.Line data) clk rnd delay) x = Some x.
Proof.
  intros Hh Hd Hr Hp. simpl. rewrite Hh.
  unfold Server.on_read, Server.on_line. rewrite Hd, Hr, Hp.
  now rewrite ServerLines.suspend_same.
Qed.

Lemma malformed_line_skipped_witness :
  let x := Server.exec [Server.Accept 1]
             (Server.run (Server.init "logs/server.log") (fun _ => None)) in
  Server.step (Server.Read 1 (Server.Line (Py.line_of "hello")) noon (1 # 2)%Q 100) x
  = Some x.
Proof.
  cbv zeta.
  apply (malformed_line_skipped _ 1 1 (Py.line_of "hello") (Py.line_of "hello"));
    reflexivity.
Defined.



(** Lines without the token PING, without an opening bracket, and without
    a closing one are answered alike. *)
Example answered_without_ping :
  map (fun p => Server.render (snd p))
    (Server.wire
       (Server.exec
          [Server.Accept 1;
           Server.Read 1 (Server.Line (Py.line_of "(12] hello")) noon (1 # 2)%Q 100;
           Server.Wake 1 noon; Server.Drained 1 Server.Completed noon;
           Server.Read 1 (Server.Line (Py.line_of "x-3")) noon (1 # 2)%Q 100;
           Server.Wake 1 noon]
          (Server.run (Server.init "logs/server.log") (fun _ => None))))
  = ["[0/12] PONG (1)"; "[1/-3] PONG (1)"].
Proof. reflexivity. Qed.

(** C8.  The handler's cleanup deletes its writer from the registry
    without looking whether it is still there.  Once the keepalive task has
    removed the writer after a failed write, the [del] in the [finally]
    block raises [KeyError]: the exception leaves the handler and
    [writer.close()] is never reached. *)
Theorem unregister_after_keepalive_removal_raises :
  let x := Server.exec
             [Server.Accept 1; Server.Tick;
              Server.KDrained (Server.Raises Py.ConnectionError)]
             (Server.run (Server.init "logs/server.log") (fun _ => None)) in
  let y := Server.exec
             [Server.Read 1 (Server.ReadRaises Py.IncompleteReadError) noon
                (1 # 2)%Q 100] x in
  Server.clients (Server.server x) = [] /\
  Server.handler_of 1 (Server.handlers x) = Some (Server.HRead 1) /\
  Server.dict_del 1 (Server.clients (Server.server x)) = None /\
  Server.handler_of 1 (Server.handlers y) = Some (Server.HRaised Py.KeyError) /\
  Server.closed y = [].
Proof. cbv zeta. repeat split; reflexivity. Qed.

(* ================================================================== *)
(** * The server: the audit log *)
(* ================================================================== *)

Module ServerLog.
Import Py Server.

Ltac no_line := split; [reflexivity | exists []; intros f; reflexivity].

Lemma set_files_id x : set_files (files x) x = x.
Proof. now destruct x. Qed.

Lemma appends_cleanup w cid pending x : appends_only (cleanup w cid pending) x.
Proof.
  unfold appends_only, cleanup. simpl.
  destruct (dict_del w (clients (server x))); no_line.
Qed.

Lemma appends_on_read w cid res clk rnd delay x :
  appends_only (on_read w cid res clk rnd delay) x.
Proof.
  unfold on_read. destruct res as [data | e].
  - unfold on_line, raised. destruct (decode_ascii data) as [text |].
    + destruct (drops rnd).
      * split; [reflexivity |].
        exists [log_line (date_str clk) (time_str clk) (strip text) None].
        intros f. reflexivity.
      * destruct (parse_request (strip text)); no_line.
    + apply appends_cleanup.
  - unfold raised. destruct e; apply appends_cleanup.
Qed.

Lemma appends_on_wake w cid rt msg n clk x :
  appends_only (on_wake w cid rt msg n clk) x.
Proof. unfold on_wake. no_line. Qed.

Lemma appends_on_drained w cid rt msg rst resp res clk x :
  appends_only (on_drained w cid rt msg rst resp res clk) x.
Proof.
  unfold on_drained, raised. destruct res as [| e].
  - split; [reflexivity |].
    exists [log_line (date_str clk) rt msg (Some (rst, render resp))].
    intros f. reflexivity.
  - apply appends_cleanup.
Qed.

Lemma appends_remove_disconnected ws x : appends_only (remove_disconnected ws) x.
Proof.
  revert x. induction ws as [| w ws IH]; intros x; [no_line |].
  unfold appends_only. simpl.
  destruct (dict_del w (clients (server x))) as [d |]; [| no_line].
  destruct (IH (with_server (with_clients d (server x)) x)) as (Hl & lines & Hf).
  split; [exact Hl |]. exists lines. intros f. exact (Hf f).
Qed.

Lemma appends_next_client msg used pos disc x :
  appends_only (next_client msg used pos disc) x.
Proof.
  unfold appends_only, next_client. simpl.
  destruct (negb _); [no_line |].
  destruct (nth_error (clients (server x)) pos) as [[w c] |]; [no_line |].
  apply appends_remove_disconnected.
Qed.

Lemma appends_on_tick x : appends_only on_tick x.
Proof.
  unfold appends_only, on_tick. simpl.
  destruct (clients (server x)) as [| p t] eqn:E; [no_line |].
  rewrite <- E.
  apply (appends_next_client (Keepalive (response_counter (server x) - 0))
           (List.length (clients (server x))) 0 []
           (with_server (snd (_get_next_response_id (server x))) x)).
Qed.

Lemma appends_on_keepalive_drained msg used pos cur disc res x :
  appends_only (on_keepalive_drained msg used pos cur disc res) x.
Proof.
  unfold on_keepalive_drained. destruct res as [| e];
    [apply appends_next_client |].
  destruct (is_ConnectionError e); [apply appends_next_client | no_line].
Qed.

(** A step reads nothing of the files and only appends lines to the log. *)
Lemma step_appends l x :
  match step l x with
  | Some y =>
      log_file (server y) = log_file (server x) /\
      exists lines, forall f,
          step l (set_files f x)
          = Some (set_files (append_lines (log_file (server x)) lines f) y)
  | None => forall f, step l (set_files f x) = None
  end.
Proof.
  destruct l as [w | w res clk rnd delay | w clk | w res clk | w | | res]; simpl.
  - destruct (handler_of w (handlers x)); [reflexivity |].
    split; [reflexivity | exists []; reflexivity].
  - destruct (handler_of w (handlers x)) as [[] |]; try reflexivity.
    destruct (appends_on_read w client_id res clk rnd delay x) as (Hl & lines & Hf).
    split; [exact Hl |]. exists lines. intros f. now rewrite Hf.
  - destruct (handler_of w (handlers x)) as [[] |]; try reflexivity.
    split; [reflexivity | exists []; reflexivity].
  - destruct (handler_of w (handlers x)) as [[] |]; try reflexivity.
    destruct (appends_on_drained w client_id request_time message response_time
                response res clk x) as (Hl & lines & Hf).
    split; [exact Hl |]. exists lines. intros f. now rewrite Hf.
  - destruct (handler_of w (handlers x)) as [[] |]; try reflexivity.
    split; [reflexivity | exists []; reflexivity].
  - destruct (keepalive x); try reflexivity.
    destruct (appends_on_tick x) as (Hl & lines & Hf).
    split; [exact Hl |]. exists lines. intros f. now rewrite Hf.
  - destruct (keepalive x) as [| msg used pos cur disc | e]; try reflexivity.
    destruct (appends_on_keepalive_drained msg used pos cur disc res x)
      as (Hl & lines & Hf).
    split; [exact Hl |]. exists lines. intros f. now rewrite Hf.
Qed.

Lemma exec_appends ls x :
  log_file (server (exec ls x)) = log_file (server x) /\
  exists lines, forall f,
      exec ls (set_files f x)
      = set_files (append_lines (log_file (server x)) lines f) (exec ls x).
Proof.
  revert x. induction ls as [| l ls IH]; intros x; simpl.
  - split; [reflexivity | exists []; reflexivity].
  - pose proof (step_appends l x) as Hs.
    destruct (step l x) as [y |].
    + destruct Hs as (Hl & lines1 & H1).
      destruct (IH y) as (Hl2 & lines2 & H2).
      split; [congruence |]. exists (lines1 ++ lines2). intros f.
      rewrite H1, H2, Hl. unfold append_lines. now rewrite fold_left_app.
    + destruct (IH x) as (Hl2 & lines2 & H2).
      split; [exact Hl2 |]. exists lines2. intros f. now rewrite Hs, H2.
Qed.

(** After any steps the log is what it was, followed by new lines. *)
Lemma exec_extends ls x : exists lines, audit_log (exec ls x) = audit_log x ++ lines.
Proof.
  destruct (exec_appends ls x) as (Hl & lines & Hf).
  exists lines. specialize (Hf (files x)). rewrite set_files_id in Hf.
  unfold audit_log. rewrite Hl, Hf. simpl. apply content_append_lines.
Qed.

(** What the file held before [run] does not show in the log. *)
Lemma run_forgets s f f' ls :
  audit_log (exec ls (run s f)) = audit_log (exec ls (run s f')).
Proof.
  destruct (exec_appends ls (run s f')) as (Hl & lines & Hf).
  assert (H : forall g, audit_log (exec ls (run s g)) = lines).
  { intros g.
    change (run s g) with (set_files (truncate (log_file s) g) (run s f')).
    rewrite Hf. unfold audit_log. cbn [files server set_files].
    rewrite Hl. cbn [run server]. rewrite content_append_lines.
    unfold content, truncate. now rewrite String.eqb_refl. }
  now rewrite (H f), (H f').
Qed.

End ServerLog.

(* ================================================================== *)
(** * The client: reasoning about coroutines *)
(* ================================================================== *)

Section Keeps.
Import Py Client.

Variable P : state -> state -> Prop.
Hypothesis P_refl : forall s, P s s.
Hypothesis P_trans : forall a b c, P a b -> P b c -> P a c.

Lemma keeps_pure {A} (m : M A) s : snd (m s) = s -> keeps_at P m s.
Proof. unfold keeps_at. intros ->. apply P_refl. Qed.

Lemma keeps_bind {A B} (m : M A) (k : A -> M B) s :
  keeps_at P m s ->
  (forall a s1, m s = (Returned a, s1) -> keeps_at P (k a) s1) ->
  keeps_at P (bind m k) s.
Proof.
  unfold keeps_at, bind. intros Hm Hk.
  destruct (m s) as [[a | e |] s1] eqn:E; simpl in *; auto.
  apply (P_trans _ s1); [assumption | now apply Hk].
Qed.

Lemma keeps_try_except {A} (body : M A) classes handler s :
  keeps_at P body s ->
  (forall e s1, body s = (Raised e, s1) -> classes e = true ->
                keeps_at P (handler e) s1) ->
  keeps_at P (try_except body classes handler) s.
Proof.
  unfold keeps_at, try_except. intros Hb Hh.
  destruct (body s) as [[a | e |] s1] eqn:E; simpl in *; auto.
  destruct (classes e) eqn:Ec; simpl; auto.
  apply (P_trans _ s1); [assumption | now apply Hh].
Qed.

Lemma keeps_try_finally {A} (body : M A) final s :
  keeps_at P body s ->
  (forall s1, keeps_at P final s1) ->
  keeps_at P (try_finally body final) s.
Proof.
  unfold keeps_at, try_finally. intros Hb Hf.
  destruct (body s) as [[a | e |] s1] eqn:E; simpl in *; auto;
    specialize (Hf s1); destruct (final s1) as [[u | e' |] s2] eqn:Ef;
    simpl in *; apply (P_trans _ s1); auto.
Qed.

End Keeps.

Module ClientEvolves.
Import Py Client.

Lemma sent_numbers_app a b : sent_numbers (a ++ b) = sent_numbers a ++ sent_numbers b.
Proof. unfold sent_numbers. apply flat_map_app. Qed.

Lemma logged_app a b : logged (a ++ b) = logged a ++ logged b.
Proof. unfold logged. apply flat_map_app. Qed.

Lemma evolves_refl s : evolves s s.
Proof.
  constructor; auto.
  - now rewrite Nat.sub_diag, app_nil_r.
  - exists []. now rewrite app_nil_r.
  - exists []. now rewrite !app_nil_r.
Qed.

Lemma evolves_trans a b c : evolves a b -> evolves b c -> evolves a c.
Proof.
  intros [L1 C1 S1 (t1 & T1) (l1 & A1 & G1)] [L2 C2 S2 (t2 & T2) (l2 & A2 & G2)].
  constructor.
  - congruence.
  - lia.
  - rewrite S2, S1, <- app_assoc. f_equal.
    replace (request_counter (self c) - request_counter (self a))
      with ((request_counter (self b) - request_counter (self a))
            + (request_counter (self c) - request_counter (self b))) by lia.
    rewrite seq_app. do 2 f_equal. lia.
  - exists (t1 ++ t2). now rewrite T2, T1, app_assoc.
  - exists (l1 ++ l2). rewrite A2, A1, G2, G1, !app_assoc. now split.
Qed.

(** A change that sends no ping and appends no line. *)
Lemma evolves_quiet s s' tr :
  log_file (self s') = log_file (self s) ->
  request_counter (self s') = request_counter (self s) ->
  files s' = files s ->
  trace s' = trace s ++ tr ->
  sent_numbers tr = [] -> logged tr = [] ->
  evolves s s'.
Proof.
  intros Hl Hc Hf Ht Hs Hg. constructor.
  - exact Hl.
  - lia.
  - now rewrite Ht, sent_numbers_app, Hs, Hc, Nat.sub_diag.
  - now exists tr.
  - exists []. unfold audit_log.
    rewrite Hf, Hl, Ht, logged_app, Hg, !app_nil_r. now split.
Qed.

Local Abbreviation ok := (keeps_at evolves).

Lemma ok_ret {A} (a : A) s : ok (ret a) s.
Proof. apply keeps_pure; [apply evolves_refl | reflexivity]. Qed.

Lemma ok_raise {A} e s : ok (@raise A e) s.
Proof. apply keeps_pure; [apply evolves_refl | reflexivity]. Qed.

Lemma ok_suspended {A} s : ok (fun s => (@Suspended A, s)) s.
Proof. apply keeps_pure; [apply evolves_refl | reflexivity]. Qed.

Lemma ok_get_self s : ok get_self s.
Proof. apply keeps_pure; [apply evolves_refl | reflexivity]. Qed.

Lemma ok_is_closed h s : ok (is_closed h) s.
Proof. apply keeps_pure; [apply evolves_refl | reflexivity]. Qed.

Lemma ok_format_time s : ok _format_time s.
Proof. apply keeps_pure; [apply evolves_refl | reflexivity]. Qed.

Lemma ok_format_date s : ok _format_date s.
Proof. apply keeps_pure; [apply evolves_refl | reflexivity]. Qed.

Lemma ok_emit e s :
  sent_numbers [e] = [] -> logged [e] = [] -> ok (emit e) s.
Proof.
  intros Hs Hg. unfold keeps_at. simpl.
  apply (evolves_quiet _ _ [e]); auto.
Qed.

Lemma ok_await s : ok await s.
Proof.
  unfold keeps_at, await. destruct (script s) as [| a rest]; simpl.
  - apply evolves_refl.
  - apply (evolves_quiet _ _ []); simpl; rewrite ?app_nil_r; reflexivity.
Qed.

(** A new value of [self] that keeps the counter and the log file. *)
Lemma ok_set_self c s :
  log_file c = log_file (self s) ->
  request_counter c = request_counter (self s) ->
  ok (set_self c) s.
Proof.
  intros Hl Hc. unfold keeps_at. simpl.
  apply (evolves_quiet _ _ []); simpl; rewrite ?app_nil_r; auto.
Qed.

Create HintDb coroutine.
#[export] Hint Resolve ok_ret ok_raise ok_suspended ok_get_self ok_is_closed
  ok_format_time ok_format_date ok_await : coroutine.

(** Takes a coroutine apart along its binds, handlers and case
    distinctions. *)
Ltac ok_auto :=
  repeat first
    [ progress auto with coroutine
    | apply ok_emit; [reflexivity | reflexivity]
    | apply (keeps_bind evolves evolves_trans); [| intros ? ? ?]
    | apply (keeps_try_except evolves evolves_trans); [| intros ? ? ? ?]
    | match goal with
      | |- keeps_at evolves (match ?x with _ => _ end) _ => destruct x
      | |- keeps_at evolves (if ?x then _ else _) _ => destruct x
      end ].

Lemma ok_drain h s : ok (drain h) s.
Proof. unfold drain. ok_auto. Qed.

Lemma ok_readuntil h t s : ok (readuntil h t) s.
Proof. unfold readuntil. destruct t; ok_auto. Qed.

Lemma ok_close h s : ok (close h) s.
Proof.
  unfold close. ok_auto.
  unfold keeps_at. simpl.
  apply (evolves_quiet _ _ []); simpl; rewrite ?app_nil_r; reflexivity.
Qed.

Lemma ok_open_connection s : ok open_connection s.
Proof.
  unfold open_connection. ok_auto.
  unfold keeps_at. simpl.
  apply (evolves_quiet _ _ []); simpl; rewrite ?app_nil_r; reflexivity.
Qed.

Lemma ok_sleep d s : ok (sleep d) s.
Proof. unfold sleep. ok_auto. Qed.

Lemma ok_decode_strip d s : ok (decode_strip d) s.
Proof. unfold decode_strip. ok_auto. Qed.

Lemma ok_write_log st rm rt resp s : ok (_write_log st rm rt resp) s.
Proof.
  unfold keeps_at, _write_log, bind, _format_date, emit. simpl.
  constructor; simpl.
  - reflexivity.
  - lia.
  - now rewrite sent_numbers_app, Nat.sub_diag.
  - now eexists.
  - eexists. split.
    + unfold audit_log. simpl. apply content_append.
    + now rewrite logged_app.
Qed.

#[export] Hint Resolve ok_drain ok_readuntil ok_close ok_open_connection
  ok_sleep ok_decode_strip ok_write_log : coroutine.

Lemma get_self_returns a s s1 : get_self s = (Returned a, s1) -> a = self s /\ s1 = s.
Proof. unfold get_self. intros H. inversion H. now split. Qed.

Lemma ok_connect s : ok connect s.
Proof.
  unfold connect. ok_auto.
  match goal with H : get_self _ = _ |- _ => apply get_self_returns in H;
    destruct H as [-> ->] end.
  apply ok_set_self; reflexivity.
Qed.

#[export] Hint Resolve ok_connect : coroutine.

Lemma ok_reconnect_turn r s : ok (reconnect_turn r) s.
Proof. unfold reconnect_turn. ok_auto. Qed.

#[export] Hint Resolve ok_reconnect_turn : coroutine.

Lemma ok_reconnect_loop fuel success retries s :
  ok (reconnect_loop fuel success retries) s.
Proof.
  revert success retries s. induction fuel as [| fuel IH]; intros success retries s;
    simpl; ok_auto.
Qed.

#[export] Hint Resolve ok_reconnect_loop : coroutine.

Lemma ok_reconnect s : ok reconnect s.
Proof. unfold reconnect. ok_auto. Qed.

Lemma ok_the_reader s : ok the_reader s.
Proof. unfold the_reader. ok_auto. Qed.

#[export] Hint Resolve ok_reconnect ok_the_reader : coroutine.

Lemma ok_await_reply st rm s : ok (await_reply st rm) s.
Proof. unfold await_reply. ok_auto. Qed.

#[export] Hint Resolve ok_await_reply : coroutine.

Lemma drain_returns h a s s1 :
  drain h s = (Returned a, s1) -> self s1 = self s /\ trace s1 = trace s.
Proof.
  unfold drain, bind, is_closed, await, raise, ret.
  destruct (existsb (Nat.eqb h) (closed s)); [discriminate |].
  destruct (script s) as [| [o c] rest]; [discriminate |].
  simpl. destruct o; intros H; inversion H; now split.
Qed.

Lemma ok_send_ping s : ok send_ping s.
Proof.
  unfold send_ping.
  apply (keeps_bind evolves evolves_trans); [apply ok_get_self |].
  intros c s0 H0. apply get_self_returns in H0. destruct H0 as [-> ->].
  destruct (writer (self s)) as [w |]; [| apply ok_ret].
  apply (keeps_bind evolves evolves_trans); [apply ok_format_time |].
  intros send_time s1 H1.
  assert (s1 = s) by (unfold _format_time in H1; now inversion H1). subst s1.
  apply (keeps_try_except evolves evolves_trans); [| intros; ok_auto].
  apply (keeps_bind evolves evolves_trans); [ok_auto |].
  intros [] s1 H1'.
  assert (Hs1 : self s1 = self s) by (unfold emit in H1'; now inversion H1').
  apply (keeps_bind evolves evolves_trans); [ok_auto |].
  intros [] s2 H2. apply drain_returns in H2. destruct H2 as [Hs2 Ht2].
  rewrite <- Hs1, <- Hs2.
  unfold keeps_at, bind at 1 2 3, emit, get_self, set_self. simpl.
  match goal with
  | |- evolves _ (snd (await_reply _ _ ?s3)) =>
      apply (evolves_trans _ s3); [| apply ok_await_reply]
  end.
  constructor; simpl.
  - reflexivity.
  - lia.
  - rewrite sent_numbers_app. simpl. f_equal.
    replace (request_counter (self s2) + 1 - request_counter (self s2)) with 1
      by lia.
    reflexivity.
  - now eexists.
  - exists []. rewrite logged_app. simpl. now rewrite !app_nil_r.
Qed.

#[export] Hint Resolve ok_send_ping : coroutine.

Lemma ok_message_receiver_turn s : ok message_receiver_turn s.
Proof. unfold message_receiver_turn. ok_auto. Qed.

#[export] Hint Resolve ok_message_receiver_turn : coroutine.

Lemma ok_perform a s : ok (perform a) s.
Proof. unfold perform. ok_auto. Qed.

#[export] Hint Resolve ok_perform : coroutine.

Lemma ok_perform_all sched s : ok (perform_all sched) s.
Proof.
  revert s. induction sched as [| a rest IH]; intros s; simpl; ok_auto.
Qed.

(** [run] once the log file has been emptied. *)
Lemma ok_run_after_truncate sched s :
  ok (connected <- connect ;;
      if (connected : bool) then
        try_finally
          (perform_all sched)
          (c <- get_self ;;
           match writer c with
           | Some h => close h
           | None => ret tt
           end)
      else ret tt)%py s.
Proof.
  ok_auto.
  apply (keeps_try_finally evolves evolves_trans); [apply ok_perform_all |].
  intros s2. ok_auto.
Qed.

(** After [run], the sequence of the numbers sent is the initial stretch of
    the naturals up to the counter, and the audit log holds the lines
    appended during this run and no other. *)
Lemma run_evolves sched c f t answers :
  request_counter c = 0 ->
  let s' := snd (run sched (start c f t answers)) in
  sent_numbers (trace s') = seq 0 (request_counter (self s')) /\
  audit_log s' = logged (trace s') /\
  log_file (self s') = log_file c.
Proof.
  intros Hc s'.
  set (s0 := snd (truncate_log (start c f t answers))).
  assert (E : evolves s0 s').
  { unfold s', run, bind at 1. fold s0. simpl. apply ok_run_after_truncate. }
  destruct E as [L C S (tr & T) (lines & A & G)].
  assert (H0 : audit_log s0 = []).
  { unfold audit_log, s0, truncate_log, start. cbn [snd files self].
    unfold content, truncate. now rewrite String.eqb_refl. }
  repeat split.
  - rewrite S. simpl. rewrite Hc. now rewrite Nat.sub_0_r.
  - rewrite A, G, H0. reflexivity.
  - exact L.
Qed.

End ClientEvolves.

(* ================================================================== *)
(** * The client: reconnect *)
(* ================================================================== *)

Module ClientReconnect.
Import Py Client.

(** One turn of the loop: the connection is opened, or the attempt fails
    and the client pauses for a second, or the answer never comes. *)
Lemma reconnect_turn_cases retries s :
  let r := fst (reconnect_turn retries s) in
  let s' := snd (reconnect_turn retries s) in
  request_counter (self s') = request_counter (self s) /\
  closed s' = closed s /\
  ((r = Returned (true, retries) /\ trace s' = trace s ++ [Connect]) \/
   (r = Returned (false, S retries) /\
    trace s' = trace s ++ [Connect; Sleep 1000] /\ self s' = self s) \/
   (r = Suspended /\ trace s' = trace s ++ [Connect])).
Proof.
  cbv [reconnect_turn connect try_except bind open_connection emit await
         get_self set_self sleep ret raise].
  cbn [script]. destruct (script s) as [| [o c] rest]; simpl.
  - split; [reflexivity |]. split; [reflexivity |]. right. right. now split.
  - destruct o as [| data | | e]; simpl.
    + split; [reflexivity |]. split; [reflexivity |]. right. right. now split.
    + split; [reflexivity |]. split; [reflexivity |]. right. right. now split.
    + split; [reflexivity |]. split; [reflexivity |]. left. now split.
    + destruct (is_ConnectionError e); simpl;
        (split; [reflexivity |]; split; [reflexivity |]; right; left;
         split; [reflexivity |]; split; [| reflexivity];
         now rewrite <- app_assoc).
Qed.

Lemma failed_attempts_S k :
  failed_attempts (S k) = [Connect; Sleep 1000] ++ failed_attempts k.
Proof. reflexivity. Qed.

(** The loop makes at most [max_retries] attempts. *)
Lemma reconnect_loop_spec fuel retries s :
  retries <= max_retries -> max_retries - retries <= fuel ->
  exists k tail,
    let r := fst (reconnect_loop fuel false retries s) in
    let s' := snd (reconnect_loop fuel false retries s) in
    trace s' = trace s ++ failed_attempts k ++ tail /\
    request_counter (self s') = request_counter (self s) /\
    closed s' = closed s /\
    ((r = Returned false /\ retries + k = max_retries /\ tail = [] /\
      self s' = self s) \/
     (r = Returned true /\ retries + k < max_retries /\ tail = [Connect]) \/
     (r = Suspended /\ retries + k < max_retries /\ tail = [Connect])).
Proof.
  revert retries s. induction fuel as [| fuel IH]; intros retries s Hle Hfuel.
  - assert (retries = max_retries) by lia. subst retries.
    exists 0, []. simpl. rewrite app_nil_r. repeat split; auto.
  - cbn [reconnect_loop]. destruct (Nat.ltb retries max_retries) eqn:Hlt;
      cbn [negb andb].
    2: { apply Nat.ltb_ge in Hlt. exists 0, []. simpl. rewrite app_nil_r.
         split; [reflexivity |]. split; [reflexivity |]. split; [reflexivity |].
         left. repeat split; auto. lia. }
    apply Nat.ltb_lt in Hlt.
    pose proof (reconnect_turn_cases retries s) as Hturn.
    unfold bind. cbv beta. destruct (reconnect_turn retries s) as [r1 s1].
    cbn [fst snd] in Hturn.
    destruct Hturn as (Hc & Hcl & [(Hr & Ht) | [(Hr & Ht & Hself) | (Hr & Ht)]]);
      subst r1.
    + exists 0, [Connect]. cbn [fst snd].
      assert (E : reconnect_loop fuel true retries s1 = (Returned true, s1))
        by (destruct fuel; reflexivity).
      rewrite E. cbn [fst snd failed_attempts repeat List.concat app].
      split; [exact Ht |]. split; [exact Hc |]. split; [exact Hcl |].
      right. left. repeat split; auto. lia.
    + cbn [fst snd].
      destruct (IH (S retries) s1) as (k & tail & Ht' & Hc' & Hcl' & Hcases);
        [lia | lia |].
      exists (S k), tail. cbn zeta in *.
      rewrite Ht', Ht, failed_attempts_S, <- !app_assoc.
      split; [reflexivity |]. split; [congruence |]. split; [congruence |].
      destruct Hcases as [(H1 & H2 & H3 & H4) | [(H1 & H2 & H3) | (H1 & H2 & H3)]].
      * left. repeat split; auto; [lia | congruence].
      * right. left. repeat split; auto. lia.
      * right. right. repeat split; auto. lia.
    + exists 0, [Connect]. cbn [fst snd failed_attempts repeat List.concat app].
      split; [exact Ht |]. split; [exact Hc |]. split; [exact Hcl |].
      right. right. repeat split; auto. lia.
Qed.

(** The fuel [reconnect] gives the loop is enough: more fuel changes
    nothing. *)
Lemma reconnect_loop_fuel fuel fuel' success retries s :
  max_retries - retries <= fuel -> max_retries - retries <= fuel' ->
  reconnect_loop fuel success retries s = reconnect_loop fuel' success retries s.
Proof.
  revert fuel' success retries s.
  induction fuel as [| fuel IH]; intros fuel' success retries s H1 H2.
  - assert (E : Nat.ltb retries max_retries = false) by (apply Nat.ltb_ge; lia).
    destruct fuel'; cbn [reconnect_loop]; rewrite E, andb_false_r; reflexivity.
  - destruct fuel' as [| fuel'].
    + assert (E : Nat.ltb retries max_retries = false) by (apply Nat.ltb_ge; lia).
      cbn [reconnect_loop]. rewrite E, andb_false_r. reflexivity.
    + cbn [reconnect_loop].
      destruct (negb success && Nat.ltb retries max_retries) eqn:E; [| reflexivity].
      unfold bind. pose proof (reconnect_turn_cases retries s) as Hturn.
      destruct (reconnect_turn retries s) as [r1 s1]. cbn [fst snd] in Hturn.
      destruct Hturn as (_ & _ & [(Hr & _) | [(Hr & _) | (Hr & _)]]); subst r1.
      * cbn [fst snd]. destruct fuel, fuel'; reflexivity.
      * cbn [fst snd]. apply IH; lia.
      * reflexivity.
Qed.

Lemma reconnect_unfold s :
  reconnect s = reconnect_loop max_retries false 0 (after_close s).
Proof.
  unfold reconnect, after_close, bind at 1 2, get_self, close, bind, emit, ret.
  destruct (writer (self s)); reflexivity.
Qed.

Lemma after_close_stale s : stale (after_close s).
Proof.
  unfold stale, after_close. destruct (writer (self s)) as [h |] eqn:E; simpl.
  - rewrite E. now left.
  - now rewrite E.
Qed.

Lemma reconnect_spec s :
  exists k tail,
    let r := fst (reconnect s) in
    let s' := snd (reconnect s) in
    trace s' = trace s ++ closes s ++ failed_attempts k ++ tail /\
    request_counter (self s') = request_counter (self s) /\
    ((r = Returned false /\ k = max_retries /\ tail = [] /\
      self s' = self s /\ stale s') \/
     (r = Returned true /\ k < max_retries /\ tail = [Connect]) \/
     (r = Suspended /\ k < max_retries /\ tail = [Connect])).
Proof.
  rewrite reconnect_unfold.
  destruct (reconnect_loop_spec max_retries 0 (after_close s)) as (k & tail & H);
    [lia | lia |].
  exists k, tail. cbn zeta in *. destruct H as (Ht & Hc & Hcl & Hcases).
  assert (Ha : trace (after_close s) = trace s ++ closes s /\
               self (after_close s) = self s).
  { unfold after_close, closes. destruct (writer (self s)); simpl;
      rewrite ?app_nil_r; now split. }
  destruct Ha as [Ha1 Ha2].
  split; [rewrite Ht, Ha1, <- app_assoc; reflexivity |].
  split; [now rewrite Hc, Ha2 |].
  destruct Hcases as [(H1 & H2 & H3 & H4) | [(H1 & H2 & H3) | (H1 & H2 & H3)]].
  - left. repeat split; auto; [congruence |].
    pose proof (after_close_stale s) as Hst. unfold stale in *.
    rewrite H4, Hcl. exact Hst.
  - right. left. repeat split; auto.
  - right. right. repeat split; auto.
Qed.

Lemma send_ping_no_writer s :
  writer (self s) = None -> send_ping s = (Returned tt, s).
Proof.
  intros Hw. unfold send_ping, bind at 1, get_self. now rewrite Hw.
Qed.

Lemma send_ping_closed s h :
  writer (self s) = Some h ->
  In h (closed s) ->
  send_ping s =
  (match fst (reconnect (after_write h s)) with
   | Returned _ => Returned tt
   | Raised e => Raised e
   | Suspended => Suspended
   end, snd (reconnect (after_write h s))).
Proof.
  intros Hw Hin.
  assert (Hclosed : existsb (Nat.eqb h) (closed s) = true).
  { apply existsb_exists. exists h. split; [exact Hin | apply Nat.eqb_refl]. }
  unfold send_ping, bind at 1, get_self. rewrite Hw.
  unfold bind at 1, _format_time, try_except, bind at 1, emit.
  unfold bind at 1, drain, bind at 1, is_closed. cbn [closed].
  rewrite Hclosed. unfold raise. cbn [is_ConnectionError].
  unfold bind at 1. fold (after_write h s).
  destruct (reconnect (after_write h s)) as [[[] | e |] s2]; reflexivity.
Qed.

(** A ping from a client whose streams are gone: nothing at all without
    streams; otherwise the drain fails on the closed stream and the client
    goes through [reconnect] again.  No exception leaves [send_ping]. *)
Lemma send_ping_stale s :
  stale s ->
  let r := fst (send_ping s) in
  let s' := snd (send_ping s) in
  (forall e, r <> Raised e) /\
  (writer (self s) = None -> r = Returned tt /\ s' = s) /\
  (forall h, writer (self s) = Some h ->
     exists k tail,
       trace s' = trace s
                    ++ [Write h (request_msg_of (request_counter (self s))); Close h]
                    ++ failed_attempts k ++ tail /\
       request_counter (self s') = request_counter (self s) /\
       ((r = Returned tt /\ k = max_retries /\ tail = [] /\ stale s') \/
        (r = Returned tt /\ k < max_retries /\ tail = [Connect]) \/
        (r = Suspended /\ k < max_retries /\ tail = [Connect]))).
Proof.
  intros Hst. unfold stale in Hst. cbn zeta.
  destruct (writer (self s)) as [h |] eqn:Hw.
  2: { rewrite (send_ping_no_writer s Hw). simpl. split; [discriminate |].
       split; [auto | intros h' Hh'; discriminate]. }
  rewrite (send_ping_closed s h Hw Hst). cbn [fst snd].
  destruct (reconnect_spec (after_write h s)) as (k & tail & H).
  cbn zeta in H. unfold closes in H. cbn [trace self after_write] in H.
  rewrite Hw in H. destruct H as (Ht & Hc & Hcases).
  split.
  { intros e.
    destruct Hcases as [(H1 & _) | [(H1 & _) | (H1 & _)]]; rewrite H1;
      discriminate. }
  split; [discriminate |].
  intros h' Hh'. inversion Hh'; subst h'.
  exists k, tail.
  split; [rewrite Ht, <- !app_assoc; reflexivity |].
  split; [exact Hc |].
  destruct Hcases as [(H1 & H2 & H3 & H4 & H5) | [(H1 & H2 & H3) | (H1 & H2 & H3)]];
    rewrite H1.
  - left. repeat split; auto.
  - right. left. repeat split; auto.
  - right. right. repeat split; auto.
Qed.

End ClientReconnect.

(* ================================================================== *)
(** * The client: one ping *)
(* ================================================================== *)

Module ClientPing.
Import Py Client ClientEvolves.

Lemma try_the_reader {A} (k : handle -> M A) classes handler s r :
  reader (self s) = Some r ->
  try_except (bind the_reader k) classes handler s
  = try_except (k r) classes handler s.
Proof.
  intros Hr. unfold try_except, bind at 1, the_reader, bind at 1, get_self.
  now rewrite Hr.
Qed.

(** The reply wait of a ping opens with a read bounded by two seconds. *)
Lemma await_reply_waits st rm s r :
  reader (self s) = Some r ->
  exists tr, trace (snd (await_reply st rm s)) = trace s ++ WaitLine r 2000 :: tr.
Proof.
  intros Hr. unfold await_reply. rewrite (try_the_reader _ _ _ s r Hr).
  unfold readuntil.
  match goal with
  | |- context [try_except (bind (bind (emit ?e) ?k1) ?K) ?cls ?H s] =>
      change (try_except (bind (bind (emit e) k1) K) cls H s)
        with (try_except (bind (k1 tt) K) cls H (waiting r 2000 s));
      assert (E : keeps_at evolves (try_except (bind (k1 tt) K) cls H)
                    (waiting r 2000 s))
  end.
  { ok_auto. }
  destruct E as [_ _ _ (tr & Ht) _]. exists tr. rewrite Ht. simpl.
  now rewrite <- app_assoc.
Qed.

Lemma send_ping_sent s h t rest :
  writer (self s) = Some h ->
  existsb (Nat.eqb h) (closed s) = false ->
  script s = {| result_of := Done; clock_of := t |} :: rest ->
  send_ping s
  = try_except
      (await_reply (time_str (now s)) (request_msg_of (request_counter (self s))))
      is_ConnectionError
      (fun _ => bind reconnect (fun _ => ret tt))
      (after_sent h t rest s).
Proof.
  intros Hw Hc Hs.
  unfold send_ping, bind at 1, get_self. rewrite Hw.
  unfold bind at 1, _format_time, try_except.
  unfold bind at 1, emit. unfold bind at 1, drain, bind at 1, is_closed.
  cbn [closed]. rewrite Hc.
  unfold bind at 1, await. cbn [script]. rewrite Hs. cbn [result_of clock_of ret].
  unfold bind at 1, emit. unfold bind at 1, get_self. unfold bind at 1, set_self.
  cbn [self files now script trace closed next_handle].
  rewrite <- app_assoc. reflexivity.
Qed.

Lemma log_line_timeout date send_time n receive_time :
  log_line date send_time (request_msg_of n) receive_time timeout_marker
  = (date ++ ";" ++ send_time ++ ";" ++ request_msg_of n ++ ";" ++ receive_time
          ++ ";" ++ timeout_marker)%string.
Proof.
  unfold log_line.
  change (request_msg_of n) with (String "[" (str_nat n ++ "] PING")) at 1.
  cbn [String.eqb]. now rewrite String.eqb_refl.
Qed.

Lemma await_reply_timeout st n s r t rest :
  reader (self s) = Some r ->
  script s = {| result_of := Fails TimeoutError; clock_of := t |} :: rest ->
  await_reply st (request_msg_of n) s
  = (Returned tt,
     {| self := self s;
        files := append_line (log_file (self s))
                   (log_line (date_str t) st (request_msg_of n) (time_str t)
                      timeout_marker) (files s);
        now := t; script := rest;
        trace := trace s ++ [WaitLine r 2000;
                             Append (log_line (date_str t) st (request_msg_of n)
                                       (time_str t) timeout_marker)];
        closed := closed s; next_handle := next_handle s |}).
Proof.
  intros Hr Hs. unfold await_reply. rewrite (try_the_reader _ _ _ s r Hr).
  unfold try_except, bind at 1, readuntil, bind at 1, emit.
  unfold bind at 1, await. cbn [script]. rewrite Hs.
  cbn [result_of clock_of raise is_TimeoutError].
  unfold bind at 1, _format_time. unfold _write_log, bind, _format_date, emit.
  cbn [self files now script trace closed next_handle].
  rewrite <- app_assoc. reflexivity.
Qed.

(** A keepalive, then silence: the wait of a tenth of a second ends in a
    timeout or at the end of the stream, and the request is logged with
    the keepalive as its response. *)
Lemma await_reply_keepalive st n s r t1 t2 data text e rest :
  reader (self s) = Some r ->
  script s = {| result_of := Data data; clock_of := t1 |}
               :: {| result_of := Fails e; clock_of := t2 |} :: rest ->
  decode_ascii data = Some text ->
  contains "keepalive" (strip text) = true ->
  is_Timeout_or_IncompleteRead e = true ->
  let s' := snd (await_reply st (request_msg_of n) s) in
  fst (await_reply st (request_msg_of n) s) = Returned tt /\
  audit_log s'
  = audit_log s
      ++ [log_line (date_str t1) EmptyString EmptyString (time_str t1) (strip text);
          log_line (date_str t2) st (request_msg_of n) (time_str t1) (strip text)].
Proof.
  intros Hr Hs Hd Hk He. cbv zeta.
  unfold await_reply. rewrite (try_the_reader _ _ _ s r Hr).
  cbv [try_except bind readuntil emit await ret raise decode_strip _format_time
         _write_log _format_date the_reader get_self audit_log].
  repeat (cbn [script self now files trace closed next_handle result_of clock_of
                 fst snd];
          first [rewrite Hs | rewrite Hd | rewrite Hk | rewrite Hr | rewrite He]).
  cbn [script self now files trace closed next_handle result_of clock_of fst snd].
  split; [reflexivity |].
  rewrite !content_append, <- app_assoc. reflexivity.
Qed.

Lemma extends_refl s : extends s s.
Proof. exists []. now rewrite app_nil_r. Qed.

Lemma extends_trans a b c : extends a b -> extends b c -> extends a c.
Proof. intros [t1 H1] [t2 H2]. exists (t1 ++ t2). now rewrite H2, H1, app_assoc. Qed.

Lemma ok_extends {A} (m : M A) s : keeps_at evolves m s -> keeps_at extends m s.
Proof. intros [_ _ _ H _]. exact H. Qed.

Lemma ext_emit e s : keeps_at extends (emit e) s.
Proof. now exists [e]. Qed.

Lemma ext_set_self c s : keeps_at extends (set_self c) s.
Proof. exists []. simpl. now rewrite app_nil_r. Qed.

Ltac ext_auto :=
  repeat first
    [ apply ok_extends; solve [ok_auto]
    | apply ext_emit
    | apply ext_set_self
    | apply (keeps_bind extends extends_trans); [| intros ? ? ?]
    | apply (keeps_try_except extends extends_trans); [| intros ? ? ? ?] ].

(** The line a ping writes carries the value the counter has when
    [send_ping] is entered. *)
Lemma send_ping_writes_counter s h :
  writer (self s) = Some h ->
  exists tr,
    trace (snd (send_ping s))
    = trace s ++ Write h (request_msg_of (request_counter (self s))) :: tr.
Proof.
  intros Hw. unfold send_ping, bind at 1, get_self. rewrite Hw.
  unfold bind at 1, _format_time.
  match goal with
  | |- context [try_except (bind (emit ?e) ?k) ?cls ?H s] =>
      change (try_except (bind (emit e) k) cls H s)
        with (try_except (k tt) cls H (Client.after_write h s));
      assert (E : keeps_at extends (try_except (k tt) cls H)
                    (Client.after_write h s))
  end.
  { ext_auto. }
  destruct E as [tr Ht]. exists tr. rewrite Ht. simpl. now rewrite <- app_assoc.
Qed.

(** Once a ping has been sent the client waits for a line for at most two
    seconds. *)
Lemma send_ping_waits s h r t rest :
  writer (self s) = Some h ->
  reader (self s) = Some r ->
  existsb (Nat.eqb h) (closed s) = false ->
  script s = {| result_of := Done; clock_of := t |} :: rest ->
  exists tr,
    trace (snd (send_ping s))
    = trace s ++ [Write h (request_msg_of (request_counter (self s)));
                  Sent h (request_counter (self s)); WaitLine r 2000] ++ tr.
Proof.
  intros Hw Hr Hc Hs. rewrite (send_ping_sent s h t rest Hw Hc Hs).
  destruct (await_reply_waits (time_str (now s))
              (request_msg_of (request_counter (self s)))
              (after_sent h t rest s) r Hr) as [tr Ht].
  assert (Hpre : forall x, trace x = trace (after_sent h t rest s) ++ WaitLine r 2000 :: tr ->
                 trace x = trace s ++ [Write h (request_msg_of (request_counter (self s)));
                                       Sent h (request_counter (self s));
                                       WaitLine r 2000] ++ tr).
  { intros x Hx. rewrite Hx. simpl. now rewrite <- app_assoc. }
  unfold try_except.
  destruct (await_reply _ _ (after_sent h t rest s)) as [[[] | e |] s4];
    cbn [snd] in Ht; apply Hpre in Ht.
  - exists tr. exact Ht.
  - destruct (is_ConnectionError e).
    + assert (E : keeps_at extends (bind reconnect (fun _ => ret tt)) s4)
        by ext_auto.
      destruct E as [tr2 Ht2]. exists (tr ++ tr2). rewrite Ht2, Ht.
      rewrite <- !app_assoc. reflexivity.
    + exists tr. exact Ht.
  - exists tr. exact Ht.
Qed.

End ClientPing.

(* ================================================================== *)
(** * The client: the claims *)
(* ================================================================== *)

(** The claim as it is stated fails: [reconnect] does not touch
    [request_counter].  The second ping is lost with the connection, the
    client reconnects, and the first ping on the new connection carries 1,
    not 0. *)
Lemma numbering_continues_after_reconnect :
  let s := snd (Client.run
                  [Client.Cycle 300; Client.Cycle 300; Client.Cycle 300]
                  (Client.start (Client.init 1 "logs/client_1.log")
                     (fun _ => None) noon
                     (map answered
                        [Client.Opened;
                         Client.Done; Client.Fails Py.TimeoutError;
                         Client.Fails Py.ConnectionError; Client.Opened;
                         Client.Done; Client.Fails Py.TimeoutError]))) in
  Client.writes (Client.trace s)
  = [(1, "[0] PING"); (1, "[1] PING"); (2, "[1] PING")] /\
  Client.sent_numbers (Client.trace s) = [0; 1] /\
  ~ In (2, "[0] PING") (Client.writes (Client.trace s)).
Proof.
  cbv zeta. split; [reflexivity |]. split; [reflexivity |].
  vm_compute. intros [H | [H | [H | []]]]; discriminate.
Qed.

(** C2 (amended).  Over the whole life of a client, across its
    connections, the pings that were sent carry 0, 1, 2, ... in order: the
    counter goes up by one for each ping sent, whatever becomes of the
    reply; [reconnect] leaves the counter as it is; and the line a ping
    writes carries the current value of the counter. *)
Theorem request_numbers_continue (id : nat) (log : string) (f : Py.fs)
    (t : Py.clock) (answers : list Client.answer) (sched : list Client.activity) :
  let s' := snd (Client.run sched (Client.start (Client.init id log) f t answers)) in
  Client.sent_numbers (Client.trace s')
    = seq 0 (Client.request_counter (Client.self s')) /\
  (forall s,
      Client.request_counter (Client.self (snd (Client.reconnect s)))
      = Client.request_counter (Client.self s)) /\
  (forall s h,
      Client.writer (Client.self s) = Some h ->
      exists tr,
        Client.trace (snd (Client.send_ping s))
        = Client.trace s
            ++ Client.Write h
                 (Client.request_msg_of (Client.request_counter (Client.self s)))
               :: tr).
Proof.
  intros s'. split; [| split].
  - apply (ClientEvolves.run_evolves sched (Client.init id log) f t answers).
    reflexivity.
  - intros s. destruct (ClientReconnect.reconnect_spec s) as (k & tail & H).
    cbn zeta in H. apply H.
  - apply ClientPing.send_ping_writes_counter.
Qed.

Lemma request_numbers_continue_witness :
  exists tr,
    Client.trace (snd (Client.send_ping unanswered))
    = Client.Write 1 "[3] PING" :: tr.
Proof.
  exact (proj2 (proj2 (request_numbers_continue 1 "logs/client_1.log"
                         (fun _ => None) noon [] []))
           unanswered 1 eq_refl).
Defined.

(** C3.  A keepalive that arrives while the client waits for its reply is
    logged as a push; the client then waits a tenth of a second for
    another line, and when none comes it logs the request with the text of
    the keepalive as its response. *)
Theorem keepalive_logged_as_reply :
  let s := snd (Client.run [Client.Cycle 300]
                  (Client.start (Client.init 1 "logs/client_1.log")
                     (fun _ => None) noon
                     (map answered
                        [Client.Opened; Client.Done;
                         Client.Data (Py.line_of "[0] keepalive");
                         Client.Fails Py.TimeoutError]))) in
  Client.audit_log s
  = ["2026-01-01;;;12:00:00.000;[0] keepalive";
     "2026-01-01;12:00:00.000;[0] PING;12:00:00.000;[0] keepalive"] /\
  Client.trace s
  = [Client.Connect; Client.Write 1 "[0] PING"; Client.Sent 1 0;
     Client.WaitLine 1 2000;
     Client.Append "2026-01-01;;;12:00:00.000;[0] keepalive";
     Client.WaitLine 1 100;
     Client.Append "2026-01-01;12:00:00.000;[0] PING;12:00:00.000;[0] keepalive";
     Client.Sleep 300; Client.Close 1].
Proof. cbv zeta. split; reflexivity. Qed.



(** Five failed attempts, a pause of a second after each. *)
Example reconnect_exhausted :
  let s := snd (Client.reconnect
                  (Client.start
                     {| Client.client_id := 1; Client.log_file := "logs/client_1.log";
                        Client.request_counter := 3;
                        Client.reader := Some 1; Client.writer := Some 1 |}
                     (fun _ => None) noon
                     (map answered (repeat (Client.Fails Py.ConnectionError) 7)))) in
  Client.trace s
  = [Client.Close 1;
     Client.Connect; Client.Sleep 1000; Client.Connect; Client.Sleep 1000;
     Client.Connect; Client.Sleep 1000; Client.Connect; Client.Sleep 1000;
     Client.Connect; Client.Sleep 1000] /\
  List.length (Client.script s) = 2 /\
  Client.writer (Client.self s) = Some 1 /\
  Client.closed s = [1].
Proof. cbv zeta. repeat split; reflexivity. Qed.

(** A ping from the state five failures leave: the line goes to the
    closed stream, the drain fails, and the client closes and tries to
    connect again. *)
Example stale_send_reenters :
  let s := {| Client.self := Client.self lost; Client.files := Client.files lost;
              Client.now := noon;
              Client.script := map answered [Client.Fails Py.ConnectionError;
                                             Client.Opened];
              Client.trace := []; Client.closed := [1];
              Client.next_handle := 2 |} in
  fst (Client.send_ping s) = Client.Returned tt /\
  Client.trace (snd (Client.send_ping s))
  = [Client.Write 1 "[3] PING"; Client.Close 1;
     Client.Connect; Client.Sleep 1000; Client.Connect] /\
  Client.writer (Client.self (snd (Client.send_ping s))) = Some 2 /\
  Client.request_counter (Client.self (snd (Client.send_ping s))) = 3.
Proof. cbv zeta. repeat split; reflexivity. Qed.




(* ================================================================== *)
(** * Texts that cross the wire or go to the logs *)
(* ================================================================== *)

Module PyText.
Import Py.

(** ** Integers printed by one side and parsed by the other *)

Lemma count_succ (cnt : N) (n : nat) :
  (cnt + 1 + N.of_nat n = cnt + N.of_nat (S n))%N.
Proof. lia. Qed.

Ltac digit_step :=
  cbn [DecimalString.NilEmpty.string_of_uint String.length Pos.of_uint_acc
       Pos.of_uint];
  rewrite <- count_succ;
  match goal with
  | |- digits (String ?c ?s) ?acc ?cnt ?us = _ =>
      change (digits (String c s) acc cnt us)
        with (digits s (10 * acc + digit_value c)%Z (cnt + 1)%N false)
  end.

Lemma digits_after (d : Decimal.uint) (p : positive) (cnt : N) :
  digits (DecimalString.NilEmpty.string_of_uint d) (Zpos p) cnt false
  = Some (Zpos (Pos.of_uint_acc d p),
          (cnt + N.of_nat (String.length
                             (DecimalString.NilEmpty.string_of_uint d)))%N).
Proof.
  revert p cnt. induction d; intros p cnt;
    [simpl; do 2 f_equal; lia | ..];
    digit_step;
    match goal with
    | |- digits _ ?acc _ _ = Some (Zpos (Pos.of_uint_acc _ ?q), _) =>
        replace acc with (Zpos q) by (vm_compute (digit_value _); lia)
    end;
    apply IHd.
Qed.

Lemma digits_first (d : Decimal.uint) (cnt : N) (us : bool) :
  d <> Decimal.Nil ->
  digits (DecimalString.NilEmpty.string_of_uint d) 0 cnt us
  = Some (Z.of_N (Pos.of_uint d),
          (cnt + N.of_nat (String.length
                             (DecimalString.NilEmpty.string_of_uint d)))%N).
Proof.
  assert (G : forall d cnt us, (us = false \/ d <> Decimal.Nil) ->
             digits (DecimalString.NilEmpty.string_of_uint d) 0 cnt us
             = Some (Z.of_N (Pos.of_uint d),
                     (cnt + N.of_nat (String.length
                              (DecimalString.NilEmpty.string_of_uint d)))%N)).
  { clear. induction d; intros cnt us Hus;
      [destruct Hus as [-> | Hus]; [simpl; do 2 f_equal; lia | contradiction] | ..];
      digit_step;
      [ change (10 * 0 + digit_value "0")%Z with 0%Z; apply IHd; now left | ..];
      match goal with
      | |- digits _ ?acc _ _ = Some (Z.of_N (Npos (Pos.of_uint_acc _ ?q)), _) =>
          change acc with (Zpos q)
      end;
      apply digits_after. }
  intros Hd. apply G. now right.
Qed.

Lemma lstrip_head sp c t : sp c = false -> lstrip_with sp (String c t) = String c t.
Proof. intros H. simpl. now rewrite H. Qed.

Lemma rstrip_none sp s :
  forallb (fun c => negb (sp c)) (list_ascii_of_string s) = true ->
  rstrip_with sp s = s.
Proof.
  induction s as [| c t IH]; simpl; [reflexivity |].
  intros H. apply andb_true_iff in H. destruct H as [Hc Ht].
  rewrite (IH Ht). apply negb_true_iff in Hc. rewrite Hc. now destruct t.
Qed.

Lemma forallb_impl {A} (f g : A -> bool) l :
  (forall a, f a = true -> g a = true) -> forallb f l = true -> forallb g l = true.
Proof. intros H. rewrite !forallb_forall. auto. Qed.

Lemma digit_cases c : is_digit c = true ->
  is_c_space c = false /\ is_space c = false /\ Ascii.eqb c "-" = false /\
  Ascii.eqb c "+" = false /\ Ascii.eqb c "]" = false /\ Ascii.eqb c ";" = false.
Proof.
  destruct c as [[] [] [] [] [] [] [] []]; vm_compute; intros H;
    try discriminate; repeat split.
Qed.

Lemma lstrip_none sp s :
  forallb (fun c => negb (sp c)) (list_ascii_of_string s) = true ->
  lstrip_with sp s = s.
Proof.
  destruct s as [| c t]; simpl; [reflexivity |].
  intros H. apply andb_true_iff in H. destruct H as [Hc _].
  apply negb_true_iff in Hc. now rewrite Hc.
Qed.

Lemma printed_uint (d : Decimal.uint) :
  d <> Decimal.Nil ->
  DecimalString.NilZero.string_of_uint d = DecimalString.NilEmpty.string_of_uint d.
Proof. destruct d; [contradiction | reflexivity ..]. Qed.

Lemma digits_printed (d : Decimal.uint) :
  forallb is_digit (list_ascii_of_string (DecimalString.NilEmpty.string_of_uint d))
  = true.
Proof. induction d; simpl; auto. Qed.

(** [int()] on a string of digits: no white space to skip, no sign. *)
Lemma int_unsigned (s : string) :
  forallb is_digit (list_ascii_of_string s) = true ->
  int s = match digits s 0 0 true with
          | Some (n, cnt) => if (cnt <=? int_max_str_digits)%N then Some n else None
          | None => None
          end.
Proof.
  intros H. unfold int.
  assert (Hs : forallb (fun c => negb (is_c_space c)) (list_ascii_of_string s) = true).
  { revert H. apply forallb_impl. intros c Hc.
    now rewrite (proj1 (digit_cases c Hc)). }
  rewrite (lstrip_none _ _ Hs), (rstrip_none _ _ Hs).
  destruct s as [| c t]; [reflexivity |].
  simpl in H. apply andb_true_iff in H. destruct H as [Hc _].
  destruct (digit_cases c Hc) as (_ & _ & Hm & Hp & _).
  destruct c as [[] [] [] [] [] [] [] []]; try discriminate; reflexivity.
Qed.

(** [int(f"{z}")] is [z] as long as the text stays within the limit on the
    length of integer literals. *)
Lemma int_str (z : Z) : String.length (str z) <= 4300 -> int (str z) = Some z.
Proof.
  unfold str. intros Hlen.
  destruct z as [| p | p]; [reflexivity | |];
    cbn [Z.to_int DecimalString.NilZero.string_of_int] in *;
    pose proof (DecimalPos.Unsigned.to_uint_nonnil p) as Hnil;
    pose proof (DecimalPos.Unsigned.of_to p) as Hof;
    rewrite (printed_uint _ Hnil) in *.
  - rewrite (int_unsigned _ (digits_printed _)), (digits_first _ _ _ Hnil), Hof.
    replace (_ <=? _)%N with true; [reflexivity |].
    symmetry. apply N.leb_le. unfold int_max_str_digits. lia.
  - unfold int.
    assert (Hs : forallb (fun c => negb (is_c_space c))
                   (list_ascii_of_string
                      (String "-" (DecimalString.NilEmpty.string_of_uint
                                     (Pos.to_uint p)))) = true).
    { simpl. generalize (digits_printed (Pos.to_uint p)).
      apply forallb_impl. intros c Hc. now rewrite (proj1 (digit_cases c Hc)). }
    rewrite (lstrip_none _ _ Hs), (rstrip_none _ _ Hs).
    rewrite (digits_first _ _ _ Hnil), Hof.
    replace (_ <=? _)%N with true; [reflexivity |].
    symmetry. apply N.leb_le. unfold int_max_str_digits.
    cbn [String.length] in Hlen. lia.
Qed.

Lemma int_str_nat (n : nat) :
  String.length (str_nat n) <= 4300 -> int (str_nat n) = Some (Z.of_nat n).
Proof. apply int_str. Qed.

(** Beyond the limit on the length of integer literals [int()] raises. *)
Lemma int_str_nat_limit (n : nat) :
  4300 < String.length (str_nat n) -> int (str_nat n) = None.
Proof.
  unfold str_nat, str. intros Hlen.
  destruct (Z.of_nat n) as [| p | p] eqn:E; [simpl in Hlen; lia | | lia].
  cbn [Z.to_int DecimalString.NilZero.string_of_int] in *.
  pose proof (DecimalPos.Unsigned.to_uint_nonnil p) as Hnil.
  rewrite (printed_uint _ Hnil) in *.
  rewrite (int_unsigned _ (digits_printed _)), (digits_first _ _ _ Hnil).
  replace (_ <=? _)%N with false; [reflexivity |].
  symmetry. apply N.leb_gt. unfold int_max_str_digits. lia.
Qed.

(** [f"{n}"] determines [n]. *)
Lemma str_inj (a b : Z) : str a = str b -> a = b.
Proof.
  unfold str. intros H. apply DecimalZ.to_int_inj.
  assert (G : forall z, DecimalString.NilZero.int_of_string
                          (DecimalString.NilZero.string_of_int (Z.to_int z))
                        = Some (Z.to_int z)).
  { intros z. apply DecimalString.NilZero.isi; destruct z; simpl; try discriminate;
      intros E; inversion E as [E']; now apply DecimalPos.Unsigned.to_uint_nonnil in E'. }
  pose proof (G a) as Ha. rewrite H, G in Ha. now inversion Ha.
Qed.

Lemma str_nat_inj (a b : nat) : str_nat a = str_nat b -> a = b.
Proof. unfold str_nat. intros H. apply str_inj in H. lia. Qed.

(** ** Lines *)

Lemma chars_app a b :
  list_ascii_of_string (a ++ b) = list_ascii_of_string a ++ list_ascii_of_string b.
Proof. induction a as [| c t IH]; simpl; [reflexivity | now rewrite IH]. Qed.

Lemma append_assoc (a b c : string) : ((a ++ b) ++ c = a ++ (b ++ c))%string.
Proof. induction a as [| x t IH]; simpl; [reflexivity | now rewrite IH]. Qed.

Lemma all_app (f : ascii -> bool) a b :
  forallb f (list_ascii_of_string (a ++ b))
  = forallb f (list_ascii_of_string a) && forallb f (list_ascii_of_string b).
Proof. now rewrite chars_app, forallb_app. Qed.

(** White space at the end goes. *)
Lemma rstrip_trailing sp s c :
  sp c = true -> rstrip_with sp (s ++ String c EmptyString) = rstrip_with sp s.
Proof.
  intros Hc. induction s as [| a t IH]; simpl; [now rewrite Hc |].
  now rewrite IH.
Qed.

(** What ends in text that [rstrip] keeps is kept as a whole. *)
Lemma rstrip_app sp a b :
  rstrip_with sp b = b -> b <> EmptyString -> rstrip_with sp (a ++ b) = (a ++ b)%string.
Proof.
  intros Hb Hne. induction a as [| c t IH]; simpl; [exact Hb |].
  rewrite IH. destruct (t ++ b)%string eqn:E; [| reflexivity].
  destruct t; simpl in E; [contradiction | discriminate].
Qed.

(** [(text + "\n").decode().strip()] is [text] when [text] neither begins
    nor ends with white space. *)
Lemma strip_line c t tail :
  is_space c = false ->
  rstrip_with is_space tail = tail -> tail <> EmptyString ->
  strip (line_of (String c (t ++ tail))) = String c (t ++ tail).
Proof.
  intros Hc Ht Hne. unfold strip, line_of.
  change (String c (t ++ tail) ++ String (ascii_of_N 10) EmptyString)%string
    with (String c ((t ++ tail) ++ String (ascii_of_N 10) EmptyString)).
  rewrite lstrip_head by exact Hc.
  change (String c ((t ++ tail) ++ String (ascii_of_N 10) EmptyString))
    with (String c (t ++ tail) ++ String (ascii_of_N 10) EmptyString)%string.
  rewrite rstrip_trailing by reflexivity.
  now apply (rstrip_app is_space (String c t) tail).
Qed.

Lemma decode_ascii_ok s : is_ascii s = true -> decode_ascii s = Some s.
Proof. unfold decode_ascii, is_ascii. now intros ->. Qed.

Lemma is_ascii_app a b : is_ascii (a ++ b) = is_ascii a && is_ascii b.
Proof. apply all_app. Qed.

Lemma plain_cases c : plain c = true ->
  (code c <? 128)%N = true /\ Ascii.eqb c "k" = false /\ Ascii.eqb c ";" = false
  /\ Ascii.eqb c "]" = false.
Proof.
  destruct c as [[] [] [] [] [] [] [] []]; vm_compute; intros H;
    try discriminate; repeat split.
Qed.

(** [f"{n}"] is made of digits and at most a leading minus sign. *)
Lemma str_plain (z : Z) : forallb plain (list_ascii_of_string (str z)) = true.
Proof.
  assert (H : forall d, forallb plain
                (list_ascii_of_string (DecimalString.NilZero.string_of_uint d)) = true).
  { intros d. destruct d; try reflexivity;
      rewrite printed_uint by discriminate;
      generalize (digits_printed d); simpl; intros Hd;
      (try (revert Hd; apply forallb_impl; intros c Hc; unfold plain; now rewrite Hc)). }
  unfold str. destruct (Z.to_int z) as [d | d]; simpl; [apply H |].
  now rewrite H.
Qed.

Lemma str_all (f : ascii -> bool) (z : Z) :
  (forall c, plain c = true -> f c = true) ->
  forallb f (list_ascii_of_string (str z)) = true.
Proof. intros H. generalize (str_plain z). now apply forallb_impl. Qed.

Lemma str_is_ascii z : is_ascii (str z) = true.
Proof. apply str_all. intros c Hc. apply (plain_cases c Hc). Qed.

Lemma str_no (x : ascii) z :
  plain x = false ->
  forallb (fun c => negb (Ascii.eqb c x)) (list_ascii_of_string (str z)) = true.
Proof.
  intros Hx. apply str_all. intros c Hc.
  destruct (Ascii.eqb_spec c x) as [-> | _]; [congruence | reflexivity].
Qed.

(** ** [needle in s] *)

Lemma prefix_app a b : String.prefix a (a ++ b) = true.
Proof.
  induction a as [| c t IH]; simpl; [now destruct b |].
  destruct (ascii_dec c c); [exact IH | contradiction].
Qed.

Lemma contains_unfold needle s :
  contains needle s
  = if String.prefix needle s then true
    else match s with String _ t => contains needle t | EmptyString => false end.
Proof. destruct s; reflexivity. Qed.

Lemma contains_app needle a b : contains needle (a ++ needle ++ b) = true.
Proof.
  induction a as [| c t IH].
  - simpl append. now rewrite contains_unfold, prefix_app.
  - change (contains needle (String c (t ++ needle ++ b)) = true).
    rewrite contains_unfold, IH. now destruct (String.prefix needle _).
Qed.

(** A text without the first character of the needle does not hold it. *)
Lemma contains_none c needle s :
  forallb (fun a => negb (Ascii.eqb a c)) (list_ascii_of_string s) = true ->
  contains (String c needle) s = false.
Proof.
  induction s as [| a t IH]; simpl; [reflexivity |].
  intros H. apply andb_true_iff in H. destruct H as [Ha Ht].
  destruct (ascii_dec c a) as [E | E].
  - subst. now rewrite Ascii.eqb_refl in Ha.
  - now apply IH.
Qed.

Lemma request_msg_ascii n : is_ascii (Client.request_msg_of n) = true.
Proof.
  unfold Client.request_msg_of, str_nat.
  now rewrite !is_ascii_app, str_is_ascii.
Qed.

Lemma line_ascii s : is_ascii s = true -> is_ascii (line_of s) = true.
Proof. intros H. unfold line_of. now rewrite is_ascii_app, H. Qed.

Lemma request_msg_strip n :
  strip (line_of (Client.request_msg_of n)) = Client.request_msg_of n.
Proof.
  unfold Client.request_msg_of.
  change ("[" ++ str_nat n ++ "] PING")%string
    with (String "[" (str_nat n ++ "] PING")).
  now apply strip_line.
Qed.

Lemma render_ascii m : is_ascii (Server.render m) = true.
Proof.
  destruct m; unfold Server.render, str_nat;
    now rewrite !is_ascii_app, !str_is_ascii.
Qed.

Lemma render_strip m : strip (line_of (Server.render m)) = Server.render m.
Proof.
  destruct m as [r n c | k]; unfold Server.render.
  - replace ("[" ++ str_nat r ++ "/" ++ str n ++ "] PONG (" ++ str_nat c ++ ")")%string
      with (String "[" ((str_nat r ++ "/" ++ str n ++ "] PONG (" ++ str_nat c) ++ ")")).
    + now apply strip_line.
    + rewrite !append_assoc. reflexivity.
  - change ("[" ++ str_nat k ++ "] keepalive")%string
      with (String "[" (str_nat k ++ "] keepalive")).
    now apply strip_line.
Qed.

Lemma render_keepalive m :
  contains "keepalive" (Server.render m)
  = match m with Server.Keepalive _ => true | Server.Pong _ _ _ => false end.
Proof.
  destruct m as [r n c | k]; unfold Server.render.
  - apply contains_none. unfold str_nat.
    rewrite !all_app, !str_no by reflexivity. reflexivity.
  - replace ("[" ++ str_nat k ++ "] keepalive")%string
      with (("[" ++ str_nat k ++ "] ") ++ "keepalive" ++ EmptyString)%string.
    + apply contains_app.
    + rewrite !append_assoc. reflexivity.
Qed.

(** The format check of the server on a ping of the client. *)
Lemma request_msg_parsed n :
  Server.parse_request (Client.request_msg_of n)
  = if Nat.leb (String.length (str_nat n)) 4300 then Some (Z.of_nat n) else None.
Proof.
  unfold Client.request_msg_of.
  change ("[" ++ str_nat n ++ "] PING")%string
    with (String "[" (str_nat n ++ "]" ++ " PING")).
  rewrite ServerLines.parse_request_shape by (apply str_no; reflexivity).
  destruct (Nat.leb_spec (String.length (str_nat n)) 4300) as [H | H].
  - now apply int_str_nat.
  - now apply int_str_nat_limit.
Qed.

(** ** Fields separated by a character *)

Lemma split_on_free sep s : free_of sep s = true -> split_on sep s = [s].
Proof.
  unfold free_of. induction s as [| c t IH]; simpl; [reflexivity |].
  intros H. apply andb_true_iff in H. destruct H as [Hc Ht].
  apply negb_true_iff in Hc. now rewrite Hc, (IH Ht).
Qed.

Lemma split_on_app sep a b :
  free_of sep a = true ->
  split_on sep (a ++ String sep b) = a :: split_on sep b.
Proof.
  unfold free_of. induction a as [| c t IH]; simpl.
  - now rewrite Ascii.eqb_refl.
  - intros H. apply andb_true_iff in H. destruct H as [Hc Ht].
    apply negb_true_iff in Hc. now rewrite Hc, (IH Ht).
Qed.

(** [s.split(']')[0]] as the source writes it. *)
Lemma split_bracket_0_hd s :
  split_bracket_0 s = hd EmptyString (split_on "]" s).
Proof.
  induction s as [| c t IH]; simpl; [reflexivity |].
  destruct (Ascii.eqb c "]"); [reflexivity |].
  rewrite IH. now destruct (split_on "]" t).
Qed.

Lemma free_of_app sep a b : free_of sep (a ++ b) = free_of sep a && free_of sep b.
Proof. apply all_app. Qed.

Lemma free_of_str sep z : plain sep = false -> free_of sep (str z) = true.
Proof. apply str_no. Qed.

Lemma render_free m : free_of ";" (Server.render m) = true.
Proof.
  destruct m; unfold Server.render, str_nat;
    now rewrite !free_of_app, !free_of_str.
Qed.

Lemma request_msg_free n : free_of ";" (Client.request_msg_of n) = true.
Proof.
  unfold Client.request_msg_of, str_nat. now rewrite !free_of_app, !free_of_str.
Qed.

Lemma five_fields a b c d e :
  free_of ";" a = true -> free_of ";" b = true -> free_of ";" c = true ->
  free_of ";" d = true -> free_of ";" e = true ->
  split_on ";" (a ++ ";" ++ b ++ ";" ++ c ++ ";" ++ d ++ ";" ++ e)
  = [a; b; c; d; e].
Proof.
  intros Ha Hb Hc Hd He.
  cbn [append].
  repeat (rewrite split_on_app by assumption).
  now rewrite split_on_free.
Qed.

End PyText.


(** X2.  Every line the server writes, a reply or a keepalive, is ASCII and
    neither begins nor ends with white space, so the client's [decode] and
    [strip] give back its text; and the test the client applies to that
    text, ["keepalive" in response_msg], holds of the keepalives and of no
    reply, whatever the numbers in it. *)
Theorem server_lines_classified (m : Server.outmsg) :
  let line := Py.line_of (Server.render m) in
  Py.decode_ascii line = Some line /\
  Py.strip line = Server.render m /\
  Py.contains "keepalive" (Server.render m)
  = match m with Server.Keepalive _ => true | Server.Pong _ _ _ => false end.
Proof.
  cbv zeta. split; [| split].
  - apply PyText.decode_ascii_ok, PyText.line_ascii, PyText.render_ascii.
  - apply PyText.render_strip.
  - apply PyText.render_keepalive.
Qed.

(* ================================================================== *)
(** * The server: the registry and the handlers *)
(* ================================================================== *)

Module ServerRegistry.
Import Py Server.

Lemma handler_of_other w w' h hs :
  w' <> w -> handler_of w' (set_handler w h hs) = handler_of w' hs.
Proof.
  intros Hne. induction hs as [| [k h0] t IH]; simpl.
  - destruct (Nat.eqb_spec w w'); [congruence | reflexivity].
  - destruct (Nat.eqb_spec k w) as [-> | Hk]; simpl.
    + destruct (Nat.eqb_spec w w'); [congruence | reflexivity].
    + destruct (Nat.eqb_spec k w'); [reflexivity | exact IH].
Qed.

Lemma handler_of_none w hs : handler_of w hs = None <-> ~ In w (map fst hs).
Proof.
  induction hs as [| [k h] t IH]; simpl; [tauto |].
  destruct (Nat.eqb_spec k w) as [-> | Hk].
  - split; [discriminate | intros H; exfalso; apply H; now left].
  - rewrite IH. tauto.
Qed.

Lemma keys_set_handler w h h0 hs :
  handler_of w hs = Some h0 -> map fst (set_handler w h hs) = map fst hs.
Proof.
  induction hs as [| [k h1] t IH]; simpl; [discriminate |].
  destruct (Nat.eqb_spec k w) as [-> | Hk]; [reflexivity |].
  intros H. simpl. now rewrite IH.
Qed.

Lemma set_handler_new w h hs :
  handler_of w hs = None -> set_handler w h hs = hs ++ [(w, h)].
Proof.
  induction hs as [| [k h1] t IH]; simpl; [reflexivity |].
  destruct (Nat.eqb_spec k w) as [-> | Hk]; [discriminate |].
  intros H. now rewrite IH.
Qed.

Lemma dict_mem_in w d : dict_mem w d = true <-> In w (map fst d).
Proof.
  induction d as [| [k u] t IH]; simpl; [split; [discriminate | tauto] |].
  destruct (Nat.eqb_spec k w) as [-> | Hk]; [tauto |].
  rewrite IH. tauto.
Qed.

Lemma dict_mem_out w d : dict_mem w d = false <-> ~ In w (map fst d).
Proof.
  rewrite <- dict_mem_in. destruct (dict_mem w d); split; congruence.
Qed.

Lemma dict_set_new w v d : dict_mem w d = false -> dict_set w v d = d ++ [(w, v)].
Proof.
  induction d as [| [k u] t IH]; simpl; [reflexivity |].
  destruct (Nat.eqb_spec k w) as [-> | Hk]; [discriminate |].
  intros H. now rewrite IH.
Qed.

(** Deleting a key of a dict leaves the other entries, in their order. *)
Lemma dict_del_filter w d d' :
  NoDup (map fst d) -> dict_del w d = Some d' ->
  d' = filter (fun p => negb (Nat.eqb (fst p) w)) d.
Proof.
  revert d'. induction d as [| [k u] t IH]; simpl; intros d' Hnd Hdel;
    [discriminate |].
  inversion Hnd as [| ? ? Hk Ht]; subst.
  destruct (Nat.eqb_spec k w) as [-> | Hkw]; simpl.
  - inversion Hdel; subst. symmetry. apply forallb_filter_id.
    rewrite forallb_forall. intros [k' u'] Hin. simpl.
    destruct (Nat.eqb_spec k' w) as [-> | _]; [| reflexivity].
    exfalso. apply Hk. change w with (fst (w, u')). now apply in_map.
  - destruct (dict_del w t) as [t' |]; [| discriminate].
    inversion Hdel; subst. f_equal. now apply IH.
Qed.

Lemma NoDup_keys_filter (f : writer * nat -> bool) d :
  NoDup (map fst d) -> NoDup (map fst (filter f d)).
Proof.
  induction d as [| p t IH]; simpl; intros H; [constructor |].
  inversion H as [| ? ? Hp Ht]; subst.
  destruct (f p); simpl; [| now apply IH].
  constructor; [| now apply IH].
  intros Hin. apply Hp. apply in_map_iff in Hin.
  destruct Hin as (q & Hq & Hin). apply filter_In in Hin.
  rewrite <- Hq. apply in_map. tauto.
Qed.

Lemma dict_del_spec w d d' :
  NoDup (map fst d) -> dict_del w d = Some d' ->
  NoDup (map fst d') /\ ~ In w (map fst d') /\
  (forall p, In p d' <-> In p d /\ fst p <> w).
Proof.
  intros Hnd Hdel. rewrite (dict_del_filter w d d' Hnd Hdel).
  split; [now apply NoDup_keys_filter |]. split.
  - intros Hin. apply in_map_iff in Hin. destruct Hin as (q & Hq & Hin).
    apply filter_In in Hin. destruct Hin as [_ Hin]. cbv beta in Hin.
    destruct q as [k u]. simpl in *. subst k. rewrite Nat.eqb_refl in Hin. discriminate.
  - intros p. rewrite filter_In, negb_true_iff, Nat.eqb_neq. tauto.
Qed.

Lemma combine_app {A B} (a a' : list A) (b b' : list B) :
  List.length a = List.length b ->
  combine (a ++ a') (b ++ b') = combine a b ++ combine a' b'.
Proof.
  revert b. induction a as [| x t IH]; intros [| y u] H; simpl in *;
    try discriminate; [reflexivity |].
  f_equal. apply IH. lia.
Qed.

Lemma map_fst_combine {A B} (a : list A) (b : list B) :
  List.length a = List.length b -> map fst (combine a b) = a.
Proof.
  revert b. induction a as [| x t IH]; intros [| y u] H; simpl in *;
    try discriminate; [reflexivity |].
  f_equal. apply IH. lia.
Qed.

Lemma map_snd_combine {A B} (a : list A) (b : list B) :
  List.length a = List.length b -> map snd (combine a b) = b.
Proof.
  revert b. induction a as [| x t IH]; intros [| y u] H; simpl in *;
    try discriminate; [reflexivity |].
  f_equal. apply IH. lia.
Qed.

Lemma NoDup_fst_unique {A B} (l : list (A * B)) a b b' :
  NoDup (map fst l) -> In (a, b) l -> In (a, b') l -> b = b'.
Proof.
  induction l as [| [x y] t IH]; simpl; intros Hnd H1 H2; [contradiction |].
  inversion Hnd as [| ? ? Hx Ht]; subst.
  destruct H1 as [H1 | H1]; destruct H2 as [H2 | H2].
  - congruence.
  - inversion H1; subst. exfalso. apply Hx.
    change a with (fst (a, b')). now apply in_map.
  - inversion H2; subst. exfalso. apply Hx.
    change a with (fst (a, b)). now apply in_map.
  - now apply IH.
Qed.

Lemma NoDup_snd_unique {A B} (l : list (A * B)) a a' b :
  NoDup (map snd l) -> In (a, b) l -> In (a', b) l -> a = a'.
Proof.
  induction l as [| [x y] t IH]; simpl; intros Hnd H1 H2; [contradiction |].
  inversion Hnd as [| ? ? Hx Ht]; subst.
  destruct H1 as [H1 | H1]; destruct H2 as [H2 | H2].
  - congruence.
  - inversion H1; subst. exfalso. apply Hx.
    change b with (snd (a', b)). now apply in_map.
  - inversion H2; subst. exfalso. apply Hx.
    change b with (snd (a, b)). now apply in_map.
  - now apply IH.
Qed.

(** What [assigned] says. *)
Lemma assigned_keys x :
  accepted_inv x -> map fst (assigned x) = map fst (handlers x).
Proof.
  intros I. unfold assigned. apply map_fst_combine.
  now rewrite length_map, length_seq, (acc_count x I).
Qed.

Lemma assigned_ids x :
  accepted_inv x -> map snd (assigned x) = seq 1 (client_counter (server x)).
Proof.
  intros I. unfold assigned. apply map_snd_combine.
  now rewrite length_map, length_seq, (acc_count x I).
Qed.

Lemma assigned_same x y :
  handlers y = handlers x ->
  client_counter (server y) = client_counter (server x) ->
  assigned y = assigned x.
Proof. intros Hh Hc. unfold assigned. now rewrite Hh, Hc. Qed.

(** Steps that touch neither the handlers, nor the registry, nor the
    streams closed, and write no reply. *)
Lemma inv_same x y :
  handlers y = handlers x ->
  clients (server y) = clients (server x) ->
  client_counter (server y) = client_counter (server x) ->
  closed y = closed x ->
  (forall w r n c, In (w, Pong r n c) (wire y) -> In (w, Pong r n c) (wire x)) ->
  (forall msg used pos cur disc,
      keepalive y = KDrain msg used pos cur disc -> exists k, msg = Keepalive k) ->
  accepted_inv x -> accepted_inv y.
Proof.
  intros Hh Hr Hc Hcl Hw Hk [I1 I2 I3 I4 I5 I6 I7 I8 I9].
  pose proof (assigned_same x y Hh Hc) as Ha.
  constructor; rewrite ?Ha, ?Hh, ?Hr, ?Hc, ?Hcl; auto.
  intros w r n c Hin. apply (I6 w r n c). now apply Hw.
Qed.

(** A handler moves on inside its loop, or inside its exit. *)
Lemma inv_suspend x w h0 h :
  handler_of w (handlers x) = Some h0 ->
  (forall c, cid_of h = Some c -> cid_of h0 = Some c) ->
  left_loop h = left_loop h0 ->
  accepted_inv x -> accepted_inv (suspend w h x).
Proof.
  intros H0 Hc Hl [I1 I2 I3 I4 I5 I6 I7 I8 I9].
  assert (Hk : map fst (set_handler w h (handlers x)) = map fst (handlers x))
    by exact (keys_set_handler w h h0 _ H0).
  assert (Ha : assigned (suspend w h x) = assigned x).
  { unfold assigned, suspend. simpl. now rewrite Hk. }
  assert (Hof : forall w' h', handler_of w' (handlers x) = Some h' ->
            exists h'', handler_of w' (set_handler w h (handlers x)) = Some h'' /\
                        left_loop h'' = left_loop h').
  { intros w' h' Hw'. destruct (Nat.eq_dec w' w) as [-> | Hne].
    - exists h. rewrite ServerLines.handler_of_set. split; [reflexivity |].
      congruence.
    - exists h'. now rewrite handler_of_other. }
  constructor; rewrite ?Ha; cbn [suspend handlers server wire closed keepalive]; auto.
  - rewrite <- (length_map fst), Hk, length_map. exact I1.
  - now rewrite Hk.
  - intros w' h' c Hw' Hc'. destruct (Nat.eq_dec w' w) as [-> | Hne].
    + rewrite ServerLines.handler_of_set in Hw'. inversion Hw'; subst h'.
      apply (I3 w h0 c H0). now apply Hc.
    + rewrite handler_of_other in Hw' by exact Hne. now apply (I3 w' h' c).
  - intros w' c Hin. destruct (I4 w' c Hin) as (Hin' & h' & Hh' & Hl').
    split; [exact Hin' |]. destruct (Hof w' h' Hh') as (h'' & E1 & E2).
    exists h''. split; [exact E1 | congruence].
  - intros w' Hin. destruct (I7 w' Hin) as (h' & Hh' & Hl').
    destruct (Hof w' h' Hh') as (h'' & E1 & E2).
    exists h''. split; [exact E1 | congruence].
Qed.

(** An entry leaves the registry. *)
Lemma inv_unregister x w d :
  dict_del w (clients (server x)) = Some d ->
  accepted_inv x -> accepted_inv (with_server (with_clients d (server x)) x).
Proof.
  intros Hd I. pose proof I as [I1 I2 I3 I4 I5 I6 I7 I8 I9].
  destruct (dict_del_spec w _ d I5 Hd) as (D1 & D2 & D3).
  constructor; cbn [with_server with_clients handlers server wire closed keepalive
                    clients client_counter]; auto.
  intros w' c Hin. apply D3 in Hin. now apply I4.
Qed.

(** The [finally] block of a handler that was in its loop. *)
Lemma inv_cleanup x w h0 cid pending :
  handler_of w (handlers x) = Some h0 ->
  left_loop h0 = false ->
  cid_of h0 = Some cid ->
  accepted_inv x -> accepted_inv (cleanup w cid pending x).
Proof.
  intros H0 Hl Hc I. pose proof I as [I1 I2 I3 I4 I5 I6 I7 I8 I9].
  assert (Hk : forall h, map fst (set_handler w h (handlers x)) = map fst (handlers x))
    by (intros h; exact (keys_set_handler w h h0 _ H0)).
  assert (Hnc : ~ In w (closed x)).
  { intros Hin. destruct (I7 w Hin) as (h' & Hh' & Hl'). congruence. }
  unfold cleanup. destruct (dict_del w (clients (server x))) as [d |] eqn:Ed.
  - destruct (dict_del_spec w _ d I5 Ed) as (D1 & D2 & D3).
    assert (Ha : assigned (suspend w (HClose cid pending)
                   (close w (with_server (with_clients d (server x)) x)))
                 = assigned x).
    { unfold assigned. simpl. now rewrite Hk. }
    constructor; rewrite ?Ha;
      cbn [suspend close with_server with_clients handlers server wire closed
           keepalive clients client_counter]; auto.
    + rewrite <- (length_map fst), Hk, length_map. exact I1.
    + now rewrite Hk.
    + intros w' h' c Hw' Hc'. destruct (Nat.eq_dec w' w) as [-> | Hne].
      * rewrite ServerLines.handler_of_set in Hw'. inversion Hw'; subst h'.
        simpl in Hc'. inversion Hc'; subst c. now apply (I3 w h0).
      * rewrite handler_of_other in Hw' by exact Hne. now apply (I3 w' h' c).
    + intros w' c Hin. apply D3 in Hin. destruct Hin as [Hin Hne]. simpl in Hne.
      destruct (I4 w' c Hin) as (Hin' & h' & Hh' & Hl').
      split; [exact Hin' |]. exists h'. now rewrite handler_of_other.
    + intros w' Hin. apply in_app_or in Hin.
      destruct (Nat.eq_dec w' w) as [-> | Hne].
      * exists (HClose cid pending). now rewrite ServerLines.handler_of_set.
      * destruct Hin as [Hin | [Hin | []]]; [| congruence].
        destruct (I7 w' Hin) as (h' & Hh' & Hl').
        exists h'. now rewrite handler_of_other.
    + apply NoDup_app; [exact I8 | constructor; [tauto | constructor] |].
      intros a Ha1 [Ha2 | []]. now subst.
  - apply ServerLines.dict_del_raises, dict_mem_out in Ed.
    assert (Ha : assigned (suspend w (HRaised KeyError) x) = assigned x).
    { unfold assigned. simpl. now rewrite Hk. }
    constructor; rewrite ?Ha;
      cbn [suspend handlers server wire closed keepalive clients client_counter];
      auto.
    + rewrite <- (length_map fst), Hk, length_map. exact I1.
    + now rewrite Hk.
    + intros w' h' c Hw' Hc'. destruct (Nat.eq_dec w' w) as [-> | Hne].
      * rewrite ServerLines.handler_of_set in Hw'. inversion Hw'; subst h'.
        discriminate.
      * rewrite handler_of_other in Hw' by exact Hne. now apply (I3 w' h' c).
    + intros w' c Hin. destruct (I4 w' c Hin) as (Hin' & h' & Hh' & Hl').
      split; [exact Hin' |]. exists h'. rewrite handler_of_other; [tauto |].
      intros ->. apply Ed. change w with (fst (w, c)). now apply in_map.
    + intros w' Hin. destruct (Nat.eq_dec w' w) as [-> | Hne]; [contradiction |].
      destruct (I7 w' Hin) as (h' & Hh' & Hl').
      exists h'. now rewrite handler_of_other.
Qed.

Lemma unregistered_without_handler x w :
  accepted_inv x -> handler_of w (handlers x) = None ->
  dict_mem w (clients (server x)) = false.
Proof.
  intros I Hn. apply dict_mem_out. intros Hin. apply in_map_iff in Hin.
  destruct Hin as ([w' c] & Hw & Hin). simpl in Hw. subst w'.
  destruct (acc_registered x I w c Hin) as (_ & h & Hh & _). congruence.
Qed.

Lemma assigned_accept x w :
  accepted_inv x -> handler_of w (handlers x) = None ->
  assigned (accept w x) = assigned x ++ [(w, S (client_counter (server x)))].
Proof.
  intros I Hn. unfold assigned, accept, _get_next_client_id.
  cbn [suspend with_server with_clients handlers server client_counter].
  rewrite (set_handler_new _ _ _ Hn), map_app, seq_S.
  cbn [map fst Nat.add].
  rewrite combine_app; [reflexivity |].
  now rewrite length_map, length_seq, (acc_count x I).
Qed.

(** A connection is accepted. *)
Lemma inv_accept x w :
  handler_of w (handlers x) = None ->
  accepted_inv x -> accepted_inv (accept w x).
Proof.
  intros Hn I. pose proof (assigned_accept x w I Hn) as Ha.
  pose proof (unregistered_without_handler x w I Hn) as Hu.
  pose proof I as [I1 I2 I3 I4 I5 I6 I7 I8 I9].
  assert (Hother : forall w' h', handler_of w' (handlers x) = Some h' ->
             handler_of w' (set_handler w (HRead (S (client_counter (server x))))
                              (handlers x)) = Some h').
  { intros w' h' Hw'. rewrite handler_of_other; [exact Hw' |]. congruence. }
  constructor; rewrite ?Ha; unfold accept;
    cbn [suspend with_server with_clients _get_next_client_id handlers server wire
         closed keepalive clients client_counter fst snd]; auto.
  - rewrite (set_handler_new _ _ _ Hn), length_app, I1. simpl. lia.
  - rewrite (set_handler_new _ _ _ Hn), map_app. simpl.
    apply NoDup_app; [exact I2 | constructor; [tauto | constructor] |].
    intros a Ha1 [Ha2 | []]. subst a. now apply handler_of_none in Hn.
  - intros w' h' c Hw' Hc'. destruct (Nat.eq_dec w' w) as [-> | Hne].
    + rewrite ServerLines.handler_of_set in Hw'. inversion Hw'; subst h'.
      simpl in Hc'. inversion Hc'; subst c. apply in_or_app. right. now left.
    + rewrite handler_of_other in Hw' by exact Hne.
      apply in_or_app. left. now apply (I3 w' h' c).
  - rewrite (dict_set_new _ _ _ Hu). intros w' c Hin. apply in_app_or in Hin.
    destruct Hin as [Hin | [Hin | []]].
    + destruct (I4 w' c Hin) as (Hin' & h' & Hh' & Hl').
      split; [apply in_or_app; now left |]. exists h'. split; [| exact Hl'].
      now apply Hother.
    + inversion Hin; subst w' c. split; [apply in_or_app; right; now left |].
      exists (HRead (S (client_counter (server x)))).
      now rewrite ServerLines.handler_of_set.
  - rewrite (dict_set_new _ _ _ Hu), map_app. simpl.
    apply NoDup_app; [exact I5 | constructor; [tauto | constructor] |].
    intros a Ha1 [Ha2 | []]. subst a. now apply dict_mem_out in Hu.
  - intros w' r n c Hin. apply in_or_app. left. now apply (I6 w' r n c).
  - intros w' Hin. destruct (I7 w' Hin) as (h' & Hh' & Hl').
    exists h'. split; [| exact Hl']. now apply Hother.
Qed.

Lemma inv_on_read x w cid res clk rnd delay :
  handler_of w (handlers x) = Some (HRead cid) ->
  accepted_inv x -> accepted_inv (on_read w cid res clk rnd delay x).
Proof.
  intros Hh I. unfold on_read, on_line, raised.
  assert (Hc : forall p, accepted_inv (cleanup w cid p x))
    by (intros p; now apply (inv_cleanup x w (HRead cid))).
  destruct res as [data | e]; [| destruct e; apply Hc].
  destruct (decode_ascii data); [| apply Hc].
  destruct (drops rnd).
  - apply (inv_suspend _ w (HRead cid)); auto.
    apply (inv_same x); auto. exact (acc_broadcast x I).
  - destruct (parse_request _); apply (inv_suspend _ w (HRead cid)); auto.
Qed.

Lemma inv_on_wake x w cid rt msg n delay clk :
  handler_of w (handlers x) = Some (HSleep cid rt msg n delay) ->
  accepted_inv x -> accepted_inv (on_wake w cid rt msg n clk x).
Proof.
  intros Hh I. unfold on_wake.
  destruct (_get_next_response_id (server x)) as [rid s1] eqn:E.
  assert (Hs1 : s1 = snd (_get_next_response_id (server x))) by now rewrite E.
  apply (inv_suspend _ w (HSleep cid rt msg n delay)); auto.
  pose proof I as [I1 I2 I3 I4 I5 I6 I7 I8 I9].
  assert (Ha : assigned (write w (Pong rid n cid) (with_server s1 x)) = assigned x).
  { apply assigned_same; [reflexivity |]. now rewrite Hs1. }
  constructor; rewrite ?Ha;
    cbn [write with_server handlers server wire closed keepalive]; rewrite ?Hs1;
    cbn [_get_next_response_id snd clients client_counter]; auto.
  intros w' r n' c Hin. apply in_app_or in Hin.
  destruct Hin as [Hin | [Hin | []]]; [now apply (I6 w' r n' c) |].
  inversion Hin; subst. now apply (I3 w' _ c Hh).
Qed.

Lemma inv_on_drained x w cid rt msg rst resp res clk :
  handler_of w (handlers x) = Some (HDrain cid rt msg rst resp) ->
  accepted_inv x -> accepted_inv (on_drained w cid rt msg rst resp res clk x).
Proof.
  intros Hh I. unfold on_drained, raised. destruct res as [| e].
  - apply (inv_suspend _ w (HDrain cid rt msg rst resp)); auto.
    apply (inv_same x); auto. exact (acc_broadcast x I).
  - now apply (inv_cleanup x w (HDrain cid rt msg rst resp)).
Qed.

Lemma inv_on_closed x w cid pending :
  handler_of w (handlers x) = Some (HClose cid pending) ->
  accepted_inv x -> accepted_inv (on_closed w pending x).
Proof.
  intros Hh I. unfold on_closed.
  apply (inv_suspend _ w (HClose cid pending)); auto;
    destruct pending; simpl; auto; discriminate.
Qed.

Lemma inv_remove_disconnected ws x :
  accepted_inv x -> accepted_inv (remove_disconnected ws x).
Proof.
  revert x. induction ws as [| w t IH]; intros x I; simpl.
  - apply (inv_same x); auto. discriminate.
  - destruct (dict_del w (clients (server x))) as [d |] eqn:E.
    + apply IH. now apply (inv_unregister x w).
    + apply (inv_same x); auto. discriminate.
Qed.

Lemma inv_next_client k used pos disc x :
  accepted_inv x -> accepted_inv (next_client (Keepalive k) used pos disc x).
Proof.
  intros I. unfold next_client. destruct (negb _).
  - apply (inv_same x); auto. discriminate.
  - destruct (nth_error (clients (server x)) pos) as [[w c] |].
    + apply (inv_same x); auto.
      * simpl. intros w' r n c' Hin. apply in_app_or in Hin.
        destruct Hin as [Hin | [Hin | []]]; [exact Hin | discriminate].
      * simpl. intros ? ? ? ? ? H. inversion H. now exists k.
    + now apply inv_remove_disconnected.
Qed.

Lemma inv_on_tick x : accepted_inv x -> accepted_inv (on_tick x).
Proof.
  intros I. unfold on_tick. destruct (clients (server x)) eqn:E; [exact I |].
  destruct (_get_next_response_id (server x)) as [rid s1] eqn:Ea.
  assert (Hs1 : s1 = snd (_get_next_response_id (server x))) by now rewrite Ea.
  apply inv_next_client. apply (inv_same x); auto; rewrite ?Hs1; auto.
  exact (acc_broadcast x I).
Qed.

Lemma inv_on_keepalive_drained msg used pos cur disc res x :
  keepalive x = KDrain msg used pos cur disc ->
  accepted_inv x ->
  accepted_inv (on_keepalive_drained msg used pos cur disc res x).
Proof.
  intros Hk I. destruct (acc_broadcast x I _ _ _ _ _ Hk) as [k ->].
  unfold on_keepalive_drained. destruct res as [| e].
  - now apply inv_next_client.
  - destruct (is_ConnectionError e); [now apply inv_next_client |].
    apply (inv_same x); auto. discriminate.
Qed.

Lemma inv_step l x y : accepted_inv x -> step l x = Some y -> accepted_inv y.
Proof.
  intros I Hstep.
  destruct l as [w | w res clk rnd delay | w clk | w res clk | w | | res];
    simpl in Hstep.
  - destruct (handler_of w (handlers x)) eqn:E; [discriminate |].
    inversion Hstep; subst. now apply inv_accept.
  - destruct (handler_of w (handlers x)) as [[] |] eqn:E; try discriminate.
    inversion Hstep; subst. now apply inv_on_read.
  - destruct (handler_of w (handlers x)) as [[] |] eqn:E; try discriminate.
    inversion Hstep; subst. now apply (inv_on_wake x w _ _ _ _ delay).
  - destruct (handler_of w (handlers x)) as [[] |] eqn:E; try discriminate.
    inversion Hstep; subst. now apply inv_on_drained.
  - destruct (handler_of w (handlers x)) as [[] |] eqn:E; try discriminate.
    inversion Hstep; subst. now apply (inv_on_closed x w client_id).
  - destruct (keepalive x) eqn:E; try discriminate.
    inversion Hstep; subst. now apply inv_on_tick.
  - destruct (keepalive x) eqn:E; try discriminate.
    inversion Hstep; subst. now apply inv_on_keepalive_drained.
Qed.

Lemma inv_run s f : client_counter s = 0 -> clients s = [] -> accepted_inv (run s f).
Proof.
  intros Hc Hr. constructor; simpl; rewrite ?Hc, ?Hr; try constructor;
    try contradiction; try discriminate.
Qed.

Lemma inv_exec ls x : accepted_inv x -> accepted_inv (exec ls x).
Proof.
  revert x. induction ls as [| l t IH]; intros x I; simpl; [exact I |].
  apply IH. destruct (step l x) as [y |] eqn:E; [| exact I].
  now apply (inv_step l x).
Qed.

Lemma in_numbered {A} (ws : list A) (start n : nat) (w : A) (c : nat) :
  In (w, c) (combine ws (seq start n)) ->
  start <= c /\ nth_error ws (c - start) = Some w.
Proof.
  revert start n. induction ws as [| a t IH]; intros start [| n] H; simpl in H;
    try contradiction.
  destruct H as [H | H].
  - inversion H; subst. now rewrite Nat.sub_diag.
  - apply IH in H. destruct H as [H1 H2]. split; [lia |].
    replace (c - start) with (S (c - S start)) by lia. exact H2.
Qed.

Lemma reachable_inv log f ls : accepted_inv (exec ls (run (init log) f)).
Proof. apply inv_exec. now apply inv_run. Qed.

Lemma cleanup_left_loop w cid pending x :
  exists h, handler_of w (handlers (cleanup w cid pending x)) = Some h /\
            left_loop h = true.
Proof.
  unfold cleanup. destruct (dict_del w (clients (server x))); eexists;
    (split; [simpl; apply ServerLines.handler_of_set | reflexivity]).
Qed.

Lemma audit_log_cleanup w cid pending x :
  audit_log (cleanup w cid pending x) = audit_log x.
Proof. unfold cleanup. now destruct (dict_del w (clients (server x))). Qed.

(** How [readuntil] failing leaves the loop: the end of the stream is a
    [break], [ConnectionError] is swallowed, anything else is pending. *)
Lemma on_read_raises w cid e clk rnd delay x :
  on_read w cid (ReadRaises e) clk rnd delay x
  = cleanup w cid
      (match e with
       | IncompleteReadError | ConnectionError => None
       | _ => Some e
       end) x.
Proof. now destruct e. Qed.

(** A registered handler leaves on a failed read. *)
Lemma handler_exit x w cid e clk rnd delay :
  accepted_inv x ->
  handler_of w (handlers x) = Some (HRead cid) ->
  dict_mem w (clients (server x)) = true ->
  let y := exec [Read w (ReadRaises e) clk rnd delay; Closed w] x in
  handler_of w (handlers y)
  = Some (match e with
          | IncompleteReadError | ConnectionError => HReturned
          | _ => HRaised e
          end) /\
  clients (server y)
  = filter (fun p => negb (Nat.eqb (fst p) w)) (clients (server x)) /\
  dict_mem w (clients (server y)) = false /\
  closed y = closed x ++ [w] /\
  wire y = wire x /\
  audit_log y = audit_log x.
Proof.
  intros I Hh Hm. cbv zeta. cbn [exec step]. rewrite Hh, on_read_raises.
  set (pending := match e with
                  | IncompleteReadError | ConnectionError => None
                  | _ => Some e
                  end).
  unfold cleanup. destruct (dict_del w (clients (server x))) as [d |] eqn:Ed.
  2: { apply ServerLines.dict_del_raises in Ed. congruence. }
  destruct (dict_del_spec w _ d (acc_keys x I) Ed) as (_ & Hout & _).
  pose proof (dict_del_filter w _ d (acc_keys x I) Ed) as Hd.
  cbn [suspend close with_server handlers]. rewrite ServerLines.handler_of_set.
  unfold on_closed.
  cbn [suspend close with_server with_clients handlers server clients closed wire
       audit_log files log_file].
  rewrite ServerLines.handler_of_set.
  split; [unfold pending; now destruct e |].
  split; [exact Hd |]. split; [now apply dict_mem_out |].
  repeat split; reflexivity.
Qed.


End ServerRegistry.

Module ServerExchange.
Import Py Server ServerRegistry.

(** A request that is not dropped and passes the format check, from the
    read to the end of the drain. *)
Lemma exchange_steps (x : world) (w : writer) (cid : nat) (data text : string)
    (clk1 clk2 clk3 : clock) (rnd : Q) (delay n : Z) (res : io_result) :
  handler_of w (handlers x) = Some (HRead cid) ->
  decode_ascii data = Some text ->
  drops rnd = false ->
  parse_request (strip text) = Some n ->
  let reply := Pong (response_counter (server x)) n cid in
  let y := exec [Read w (Line data) clk1 rnd delay; Wake w clk2;
                 Drained w res clk3] x in
  wire y = wire x ++ [(w, reply)] /\
  (res = Completed ->
   audit_log y
   = audit_log x
       ++ [(date_str clk3 ++ ";" ++ time_str clk1 ++ ";" ++ strip text
              ++ ";" ++ time_str clk2 ++ ";" ++ render reply)%string] /\
   handler_of w (handlers y) = Some (HRead cid)) /\
  (forall e,
      res = Raises e ->
      audit_log y = audit_log x /\
      exists h, handler_of w (handlers y) = Some h /\ left_loop h = true).
Proof.
  intros Hh Hd Hr Hp. cbv zeta. cbn [exec].
  assert (H1 : step (Read w (Line data) clk1 rnd delay) x
               = Some (suspend w (HSleep cid (time_str clk1) (strip text) n delay) x)).
  { simpl. rewrite Hh. unfold on_read, on_line. now rewrite Hd, Hr, Hp. }
  rewrite H1. set (x1 := suspend _ _ x).
  assert (H2 : step (Wake w clk2) x1
               = Some (on_wake w cid (time_str clk1) (strip text) n clk2 x1)).
  { simpl. now rewrite ServerLines.handler_of_set. }
  rewrite H2. set (x2 := on_wake _ _ _ _ _ _ x1).
  assert (Hx2 : handler_of w (handlers x2)
                = Some (HDrain cid (time_str clk1) (strip text) (time_str clk2)
                          (Pong (response_counter (server x)) n cid))).
  { unfold x2, on_wake. simpl. rewrite ServerLines.handler_of_set.
    now rewrite Nat.sub_0_r. }
  assert (Hw2 : wire x2 = wire x ++ [(w, Pong (response_counter (server x)) n cid)]).
  { unfold x2, on_wake. simpl. now rewrite Nat.sub_0_r. }
  assert (Ha2 : audit_log x2 = audit_log x) by reflexivity.
  assert (H3 : step (Drained w res clk3) x2
               = Some (on_drained w cid (time_str clk1) (strip text) (time_str clk2)
                         (Pong (response_counter (server x)) n cid) res clk3 x2)).
  { cbn [step]. now rewrite Hx2. }
  rewrite H3. split; [| split].
  - rewrite <- Hw2. destruct res; [reflexivity |].
    unfold on_drained, raised. apply ServerIds.quiet_cleanup.
  - intros ->. unfold on_drained. split.
    + unfold audit_log at 1. simpl. now rewrite content_append.
    + simpl. apply ServerLines.handler_of_set.
  - intros e ->. unfold on_drained, raised. rewrite audit_log_cleanup. split;
      [exact Ha2 | apply cleanup_left_loop].
Qed.

End ServerExchange.

Section RegistryTheorems.
Import Py Server ServerRegistry.

(** X3.  Client ids follow the order in which the connections are
    accepted.  Whatever the handlers and the keepalive task have done, the
    client counter is the number of connections accepted so far; the id of
    every registered connection is its rank among them, counted from 1; and
    no two registered connections share a writer or an id. *)
Theorem client_ids_follow_acceptance (log : string) (f : Py.fs)
    (ls : list Server.label) :
  let x := Server.exec ls (Server.run (Server.init log) f) in
  let accepted := map fst (Server.handlers x) in
  Server.client_counter (Server.server x) = List.length accepted /\
  NoDup accepted /\
  (forall w c,
      In (w, c) (Server.clients (Server.server x)) ->
      1 <= c <= Server.client_counter (Server.server x) /\
      nth_error accepted (c - 1) = Some w) /\
  NoDup (map fst (Server.clients (Server.server x))) /\
  NoDup (map snd (Server.clients (Server.server x))).
Proof.
  cbv zeta. pose proof (reachable_inv log f ls) as I.
  set (x := exec ls (run (init log) f)) in *.
  assert (Hreg : forall w c, In (w, c) (clients (server x)) ->
             1 <= c <= client_counter (server x) /\
             nth_error (map fst (handlers x)) (c - 1) = Some w).
  { intros w c Hin. destruct (acc_registered x I w c Hin) as (Ha & _).
    pose proof (in_numbered _ _ _ _ _ Ha) as [H1 H2].
    split; [| exact H2]. split; [exact H1 |].
    apply (in_map snd) in Ha. rewrite (assigned_ids x I) in Ha.
    apply in_seq in Ha. simpl in Ha. lia. }
  split; [now rewrite length_map, (acc_count x I) |].
  split; [exact (acc_nodup x I) |].
  split; [exact Hreg |].
  split; [exact (acc_keys x I) |].
  pose proof (acc_keys x I) as Hk.
  assert (Hsub : forall p, In p (clients (server x)) -> In p (assigned x)).
  { intros [w c] Hin. now apply (acc_registered x I w c). }
  assert (Hids : NoDup (map snd (assigned x)))
    by (rewrite (assigned_ids x I); apply seq_NoDup).
  clear Hreg. induction (clients (server x)) as [| [w c] t IH]; simpl;
    [constructor |].
  inversion Hk as [| ? ? Hw Ht]; subst.
  constructor.
  - intros Hin. apply in_map_iff in Hin. destruct Hin as ([w' c'] & Hc & Hin).
    simpl in Hc. subst c'.
    assert (E : w' = w).
    { apply (NoDup_snd_unique (assigned x) w' w c Hids);
        apply Hsub; [now right | now left]. }
    subst w'. apply Hw. change w with (fst (w, c)). now apply in_map.
  - apply IH; [exact Ht |]. intros p Hp. apply Hsub. now right.
Qed.

Lemma client_ids_follow_acceptance_witness :
  nth_error
    (map fst
       (Server.handlers
          (Server.exec [Server.Accept 5; Server.Accept 3]
             (Server.run (Server.init "logs/server.log") (fun _ => None)))))
    (2 - 1)
  = Some 3.
Proof.
  pose proof (client_ids_follow_acceptance "logs/server.log" (fun _ => None)
                [Server.Accept 5; Server.Accept 3]) as H.
  cbv zeta in H. destruct H as (_ & _ & H & _).
  apply (H 3 2). right. left. reflexivity.
Defined.

(** X4.  The client id in a reply names the connection the reply was
    written to: it is the rank of that connection among those accepted,
    and two replies on the wire carry the same client id exactly when they
    went to the same connection. *)
Theorem reply_names_its_connection (log : string) (f : Py.fs)
    (ls : list Server.label) (w1 w2 : Server.writer) (r1 r2 : nat) (n1 n2 : Z)
    (c1 c2 : nat) :
  let x := Server.exec ls (Server.run (Server.init log) f) in
  In (w1, Server.Pong r1 n1 c1) (Server.wire x) ->
  In (w2, Server.Pong r2 n2 c2) (Server.wire x) ->
  nth_error (map fst (Server.handlers x)) (c1 - 1) = Some w1 /\
  (c1 = c2 <-> w1 = w2).
Proof.
  cbv zeta. pose proof (reachable_inv log f ls) as I.
  set (x := exec ls (run (init log) f)) in *. intros H1 H2.
  apply (acc_pong x I) in H1. apply (acc_pong x I) in H2.
  split; [exact (proj2 (in_numbered _ _ _ _ _ H1)) |].
  split; intros E; subst.
  - apply (NoDup_snd_unique (assigned x) w1 w2 c2); auto.
    rewrite (assigned_ids x I). apply seq_NoDup.
  - apply (NoDup_fst_unique (assigned x) w2 c1 c2); auto.
    rewrite (assigned_keys x I). exact (acc_nodup x I).
Qed.

Lemma reply_names_its_connection_witness :
  let x := Server.exec
             [Server.Accept 5; Server.Accept 3;
              Server.Read 3 (Server.Line (Py.line_of "[0] PING")) noon (1 # 2)%Q 100;
              Server.Read 5 (Server.Line (Py.line_of "[0] PING")) noon (1 # 2)%Q 100;
              Server.Wake 3 noon; Server.Wake 5 noon]
             (Server.run (Server.init "logs/server.log") (fun _ => None)) in
  map snd (Server.wire x) = [Server.Pong 0 0 2; Server.Pong 1 0 1] /\
  (2 = 1 <-> 3 = 5).
Proof.
  cbv zeta. split; [reflexivity |].
  apply (reply_names_its_connection "logs/server.log" (fun _ => None)
           [Server.Accept 5; Server.Accept 3;
            Server.Read 3 (Server.Line (Py.line_of "[0] PING")) noon (1 # 2)%Q 100;
            Server.Read 5 (Server.Line (Py.line_of "[0] PING")) noon (1 # 2)%Q 100;
            Server.Wake 3 noon; Server.Wake 5 noon]
           3 5 0 1 0%Z 0%Z 2 1).
  - left. reflexivity.
  - right. left. reflexivity.
Defined.

(** X5.  A stream is closed by the server at most once, and only by a
    handler that has unregistered it first and has left its loop: a closed
    stream is never in the registry, and every registry entry belongs to a
    handler that is still in its loop. *)
Theorem closed_after_unregistered (log : string) (f : Py.fs)
    (ls : list Server.label) :
  let x := Server.exec ls (Server.run (Server.init log) f) in
  NoDup (Server.closed x) /\
  (forall w,
      In w (Server.closed x) ->
      Server.dict_mem w (Server.clients (Server.server x)) = false /\
      exists h, Server.handler_of w (Server.handlers x) = Some h /\
                Server.left_loop h = true) /\
  (forall w c,
      In (w, c) (Server.clients (Server.server x)) ->
      exists h, Server.handler_of w (Server.handlers x) = Some h /\
                Server.left_loop h = false).
Proof.
  cbv zeta. pose proof (reachable_inv log f ls) as I.
  set (x := exec ls (run (init log) f)) in *.
  split; [exact (acc_closed_once x I) |]. split.
  - intros w Hin. destruct (acc_closed x I w Hin) as (h & Hh & Hl).
    split; [| now exists h]. apply dict_mem_out. intros Hk.
    apply in_map_iff in Hk. destruct Hk as ([w' c] & Hw & Hk). simpl in Hw. subst w'.
    destruct (acc_registered x I w c Hk) as (_ & h' & Hh' & Hl'). congruence.
  - intros w c Hin. now apply (acc_registered x I w c).
Qed.

Lemma closed_after_unregistered_witness :
  let x := Server.exec
             [Server.Accept 5; Server.Accept 3;
              Server.Read 5 (Server.ReadRaises Py.IncompleteReadError) noon
                (1 # 2)%Q 100]
             (Server.run (Server.init "logs/server.log") (fun _ => None)) in
  Server.closed x = [5] /\
  Server.dict_mem 5 (Server.clients (Server.server x)) = false.
Proof.
  cbv zeta. split; [reflexivity |].
  pose proof (closed_after_unregistered "logs/server.log" (fun _ => None)
                [Server.Accept 5; Server.Accept 3;
                 Server.Read 5 (Server.ReadRaises Py.IncompleteReadError) noon
                   (1 # 2)%Q 100]) as H.
  cbv zeta in H. destruct H as (_ & H & _).
  apply (H 5). left. reflexivity.
Defined.

End RegistryTheorems.



(** X7.  The audit entry of an exchange is written only once the drain of
    the reply has completed.  For an ASCII line that is not dropped and
    passes the format check, the reply goes on the wire when the handler
    wakes; when the drain completes, one entry is appended, made of the
    date at that moment, the time the request was read, the text of the
    request, the time the reply was written and the text of the reply, and
    the handler reads on; when the drain raises, the reply stays on the
    wire, no entry is written and the handler leaves its loop. *)
Theorem exchange_logged_after_drain (x : Server.world) (w : Server.writer)
    (cid : nat) (data text : string) (clk1 clk2 clk3 : Py.clock) (rnd : Q)
    (delay n : Z) (res : Server.io_result) :
  Server.handler_of w (Server.handlers x) = Some (Server.HRead cid) ->
  Py.decode_ascii data = Some text ->
  Server.drops rnd = false ->
  Server.parse_request (Py.strip text) = Some n ->
  let reply := Server.Pong (Server.response_counter (Server.server x)) n cid in
  let y := Server.exec [Server.Read w (Server.Line data) clk1 rnd delay;
                        Server.Wake w clk2; Server.Drained w res clk3] x in
  Server.wire y = Server.wire x ++ [(w, reply)] /\
  (res = Server.Completed ->
   Server.audit_log y
   = Server.audit_log x
       ++ [(Py.date_str clk3 ++ ";" ++ Py.time_str clk1 ++ ";" ++ Py.strip text
              ++ ";" ++ Py.time_str clk2 ++ ";" ++ Server.render reply)%string] /\
   Server.handler_of w (Server.handlers y) = Some (Server.HRead cid)) /\
  (forall e,
      res = Server.Raises e ->
      Server.audit_log y = Server.audit_log x /\
      exists h, Server.handler_of w (Server.handlers y) = Some h /\
                Server.left_loop h = true).
Proof.
  exact (ServerExchange.exchange_steps x w cid data text clk1 clk2 clk3 rnd delay
           n res).
Qed.

Lemma exchange_logged_after_drain_witness :
  let x := Server.exec [Server.Accept 1]
             (Server.run (Server.init "logs/server.log") (fun _ => None)) in
  let y := Server.exec
             [Server.Read 1 (Server.Line (Py.line_of "[7] PING")) noon (1 # 2)%Q 100;
              Server.Wake 1 noon; Server.Drained 1 Server.Completed noon] x in
  Server.audit_log y
  = ["2026-01-01;12:00:00.000;[7] PING;12:00:00.000;[0/7] PONG (1)"].
Proof.
  cbv zeta.
  pose proof (exchange_logged_after_drain
                (Server.exec [Server.Accept 1]
                   (Server.run (Server.init "logs/server.log") (fun _ => None)))
                1 1 (Py.line_of "[7] PING") (Py.line_of "[7] PING") noon noon noon
                (1 # 2)%Q 100%Z 7%Z Server.Completed
                eq_refl eq_refl eq_refl eq_refl) as H.
  cbv zeta in H. destruct H as (_ & H & _). destruct (H eq_refl) as [H1 _].
  rewrite H1. reflexivity.
Defined.

(* ================================================================== *)
(** * The server: the keepalive task *)
(* ================================================================== *)

Module ServerBroadcast.
Import Py Server ServerRegistry.

Lemma filter_twice {A} (f g : A -> bool) l :
  filter f (filter g l) = filter (fun a => g a && f a) l.
Proof.
  induction l as [| a t IH]; simpl; [reflexivity |].
  destruct (g a); simpl; [destruct (f a) |]; now rewrite IH.
Qed.

Lemma remove_disconnected_all ws x :
  NoDup ws -> NoDup (map fst (clients (server x))) ->
  (forall w, In w ws -> In w (map fst (clients (server x)))) ->
  remove_disconnected ws x
  = {| server := with_clients
                   (filter (fun p => negb (existsb (Nat.eqb (fst p)) ws))
                      (clients (server x))) (server x);
       files := files x; wire := wire x; closed := closed x;
       handlers := handlers x; keepalive := KSleep |}.
Proof.
  revert x. induction ws as [| w t IH]; intros x Hnd Hk Hin; simpl.
  - unfold suspend_keepalive, with_clients. destruct x as [[] ? ? ? ? ?]; simpl.
    do 2 f_equal. symmetry. apply forallb_filter_id.
    rewrite forallb_forall. reflexivity.
  - inversion Hnd as [| ? ? Hw Ht]; subst.
    destruct (dict_del w (clients (server x))) as [d |] eqn:E.
    + pose proof (dict_del_filter w _ d Hk E) as Hd.
      rewrite IH; cbn [with_server with_clients server clients files wire closed
                       handlers log_file response_counter client_counter].
      * f_equal. unfold with_clients. cbn [log_file response_counter client_counter].
        f_equal. rewrite Hd, filter_twice. apply filter_ext. intros [k u]. simpl.
        rewrite Nat.eqb_sym. now destruct (Nat.eqb w k).
      * exact Ht.
      * rewrite Hd. now apply NoDup_keys_filter.
      * intros w' Hw'. rewrite Hd. pose proof (Hin w' (or_intror Hw')) as Hk'.
        apply in_map_iff in Hk'. destruct Hk' as ([k u] & Hku & Hk').
        simpl in Hku. subst k. apply in_map_iff. exists (w', u). split; [reflexivity |].
        apply filter_In. split; [exact Hk' |]. simpl. apply negb_true_iff, Nat.eqb_neq.
        intros ->. contradiction.
    + exfalso. apply ServerLines.dict_del_raises, dict_mem_out in E.
      apply E, Hin. now left.
Qed.

Lemma failed_keys d os w : In w (failed d os) -> In w (map fst d).
Proof.
  revert os. induction d as [| [k u] t IH]; intros [| [| e] os] H; simpl in *;
    try contradiction.
  - right. now apply (IH os).
  - destruct H as [H | H]; [now left | right; now apply (IH os)].
Qed.

Lemma failed_nodup d os : NoDup (map fst d) -> NoDup (failed d os).
Proof.
  revert os. induction d as [| [k u] t IH]; intros [| [| e] os] H; simpl;
    try constructor; inversion H as [| ? ? Hk Ht]; subst.
  - now apply IH.
  - intros Hin. apply Hk. now apply (failed_keys t os).
  - now apply IH.
Qed.

(** The entries left once the failed writers are deleted. *)
Lemma kept_filter d os :
  NoDup (map fst d) -> List.length os = List.length d ->
  filter (fun p => negb (existsb (Nat.eqb (fst p)) (failed d os))) d = kept d os.
Proof.
  revert os. induction d as [| [k u] t IH]; intros [| o os] Hnd Hlen; simpl in *;
    try discriminate; [reflexivity |].
  inversion Hnd as [| ? ? Hk Ht]; subst.
  assert (Hout : forall ws, (forall w, In w ws -> In w (map fst t)) ->
             existsb (Nat.eqb k) ws = false).
  { intros ws Hws. destruct (existsb (Nat.eqb k) ws) eqn:E; [| reflexivity].
    apply existsb_exists in E. destruct E as (w & Hw & E).
    apply Nat.eqb_eq in E. subst w. exfalso. apply Hk. now apply Hws. }
  destruct o as [| e]; simpl.
  - rewrite (Hout (failed t os)) by (intros w; apply failed_keys). simpl.
    rewrite IH; [reflexivity | exact Ht | lia].
  - rewrite Nat.eqb_refl. simpl. rewrite <- (IH os Ht) by lia.
    apply filter_ext_in. intros [k' u'] Hin. simpl.
    destruct (Nat.eqb_spec k' k) as [-> | _]; [| reflexivity].
    exfalso. apply Hk. change k with (fst (k, u')). now apply in_map.
Qed.

Lemma remove_disconnected_keepalive ws x k :
  remove_disconnected ws (suspend_keepalive k x) = remove_disconnected ws x.
Proof.
  revert x. induction ws as [| w t IH]; intros x; simpl; [reflexivity |].
  destruct (dict_del w (clients (server x))); [| reflexivity].
  exact (IH (with_server _ x)).
Qed.

Lemma world_eta x :
  {| server := server x; files := files x; wire := wire x; closed := closed x;
     handlers := handlers x; keepalive := keepalive x |} = x.
Proof. now destruct x. Qed.

(** The rest of a broadcast: the drain of the copy written to [cur]
    completes or fails, the copies for the entries after it are written one
    by one, and the writers whose drain failed are deleted at the end. *)
Lemma broadcast_loop msg os :
  forall pre cur c post disc x,
    clients (server x) = pre ++ (cur, c) :: post ->
    keepalive x
    = KDrain msg (List.length (clients (server x))) (S (List.length pre)) cur disc ->
    List.length os = S (List.length post) ->
    (forall o, In o os -> o = Completed \/ o = Raises ConnectionError) ->
    exec (map KDrained os) x
    = remove_disconnected (disc ++ failed ((cur, c) :: post) os)
        {| server := server x; files := files x;
           wire := wire x ++ map (fun p => (fst p, msg)) post;
           closed := closed x; handlers := handlers x; keepalive := KSleep |}.
Proof.
  induction os as [| o os IH]; intros pre cur c post disc x Hd Hk Hlen Hos;
    [discriminate |].
  assert (Hnext : forall disc',
             step (KDrained o) x = Some (next_client msg (List.length (clients (server x)))
                                           (S (List.length pre)) disc' x) ->
             exec (map KDrained os) (next_client msg (List.length (clients (server x)))
                                       (S (List.length pre)) disc' x)
             = remove_disconnected (disc' ++ failed post os)
                 {| server := server x; files := files x;
                    wire := wire x ++ map (fun p => (fst p, msg)) post;
                    closed := closed x; handlers := handlers x;
                    keepalive := KSleep |}).
  { intros disc' _. unfold next_client. rewrite Nat.eqb_refl. cbn [negb].
    rewrite Hd at 1. rewrite nth_error_app2 by lia.
    replace (S (List.length pre) - List.length pre) with 1 by lia.
    destruct post as [| [w' c'] post']; cbn [nth_error].
    - destruct os; [| simpl in Hlen; lia]. cbn [map exec failed].
      rewrite !app_nil_r, <- (remove_disconnected_keepalive _ x KSleep).
      reflexivity.
    - set (x' := suspend_keepalive _ _).
      rewrite (IH (pre ++ [(cur, c)]) w' c' post' disc' x').
      + unfold x'. cbn [suspend_keepalive write server files wire closed handlers map fst].
        now rewrite <- app_assoc.
      + unfold x'. cbn [suspend_keepalive write server]. rewrite Hd, <- app_assoc.
        reflexivity.
      + unfold x'. cbn [suspend_keepalive write server keepalive].
        rewrite length_app. cbn [List.length]. now rewrite Nat.add_1_r.
      + simpl in Hlen. simpl. lia.
      + intros o' Ho'. apply Hos. now right. }
  cbn [map exec].
  assert (Hstep : step (KDrained o) x
                  = Some (on_keepalive_drained msg (List.length (clients (server x)))
                            (S (List.length pre)) cur disc o x))
    by (simpl; now rewrite Hk).
  rewrite Hstep. destruct (Hos o (or_introl eq_refl)) as [-> | ->];
    cbn [on_keepalive_drained is_ConnectionError failed].
  - apply Hnext. exact Hstep.
  - rewrite (Hnext (disc ++ [cur]) Hstep), <- app_assoc. reflexivity.
Qed.

Lemma kept_length d os : List.length (kept d os) <= List.length d.
Proof.
  revert os. induction d as [| p t IH]; intros [| [| e] os]; simpl; try lia;
    specialize (IH os); lia.
Qed.


Lemma keepalives_app a b : keepalives (a ++ b) = keepalives a ++ keepalives b.
Proof. apply filter_app. Qed.

(** Once the keepalive task has ended it is never resumed, and the
    handlers write no keepalive. *)
Lemma dead_step e l x y :
  keepalive x = KRaised e -> step l x = Some y ->
  keepalive y = KRaised e /\ keepalives (wire y) = keepalives (wire x).
Proof.
  intros Hk Hstep.
  assert (Hq : quiet x y -> keepalive y = KRaised e /\
                            keepalives (wire y) = keepalives (wire x)).
  { intros (Hw & _ & Hk'). rewrite Hw, Hk'. now split. }
  destruct l as [w | w res clk rnd delay | w clk | w res clk | w | | res];
    simpl in Hstep.
  - destruct (handler_of w (handlers x)); [discriminate |].
    inversion Hstep; subst. apply Hq. repeat split; reflexivity.
  - destruct (handler_of w (handlers x)) as [[] |]; try discriminate.
    inversion Hstep; subst. apply Hq. apply ServerIds.quiet_on_read.
  - destruct (handler_of w (handlers x)) as [[] |]; try discriminate.
    inversion Hstep; subst. unfold on_wake. simpl.
    rewrite keepalives_app, app_nil_r. now split.
  - destruct (handler_of w (handlers x)) as [[] |]; try discriminate.
    inversion Hstep; subst. apply Hq. apply ServerIds.quiet_on_drained.
  - destruct (handler_of w (handlers x)) as [[] |]; try discriminate.
    inversion Hstep; subst. apply Hq. repeat split; reflexivity.
  - rewrite Hk in Hstep. discriminate.
  - rewrite Hk in Hstep. discriminate.
Qed.

Lemma dead_exec e ls x :
  keepalive x = KRaised e ->
  keepalive (exec ls x) = KRaised e /\
  keepalives (wire (exec ls x)) = keepalives (wire x).
Proof.
  revert x. induction ls as [| l t IH]; intros x Hk; simpl; [now split |].
  destruct (step l x) as [y |] eqn:E; [| now apply IH].
  destruct (dead_step e l x y Hk E) as [Hy Hw].
  destruct (IH y Hy) as [H1 H2]. split; [exact H1 | now rewrite H2].
Qed.

(** The iterator of the broadcast finds the dict with another size. *)
Lemma broadcast_size_changed x msg used pos cur disc res ls :
  keepalive x = KDrain msg used pos cur disc ->
  List.length (clients (server x)) <> used ->
  res = Completed \/ res = Raises ConnectionError ->
  keepalive (exec (KDrained res :: ls) x) = KRaised RuntimeError /\
  keepalives (wire (exec (KDrained res :: ls) x)) = keepalives (wire x).
Proof.
  intros Hk Hne Hres. cbn [exec step]. rewrite Hk.
  assert (E : forall disc', next_client msg used pos disc' x
                            = suspend_keepalive (KRaised RuntimeError) x).
  { intros disc'. unfold next_client.
    apply Nat.eqb_neq in Hne. now rewrite Hne. }
  destruct Hres as [-> | ->]; cbn [on_keepalive_drained is_ConnectionError];
    rewrite E;
    exact (dead_exec RuntimeError ls (suspend_keepalive (KRaised RuntimeError) x)
             eq_refl).
Qed.

Lemma dict_del_length w d d' :
  dict_del w d = Some d' -> List.length d = S (List.length d').
Proof.
  revert d'. induction d as [| [k u] t IH]; simpl; intros d' H; [discriminate |].
  destruct (Nat.eqb k w); [now inversion H |].
  destruct (dict_del w t) as [t' |]; [| discriminate].
  inversion H; subst. simpl. now rewrite (IH t').
Qed.


End ServerBroadcast.

Section BroadcastTheorems.
Import Py Server ServerRegistry ServerBroadcast.

(** X8.  One keepalive broadcast, when no handler runs in between.  With
    the keepalive task asleep and a non-empty registry, a tick followed by
    the outcomes of the drains, each completed or failed with
    [ConnectionError], allocates one response id, writes one copy of the
    keepalive to every registered connection in the order of the
    registry, deletes from the registry exactly the connections whose
    drain failed, leaving the others in their order, and puts the task
    back to sleep; the handlers, the streams closed and the audit log are
    untouched. *)
Theorem keepalive_broadcast (log : string) (f : Py.fs) (ls : list Server.label)
    (os : list Server.io_result) :
  let x := Server.exec ls (Server.run (Server.init log) f) in
  let d := Server.clients (Server.server x) in
  let k := Server.response_counter (Server.server x) in
  Server.keepalive x = Server.KSleep ->
  d <> [] ->
  List.length os = List.length d ->
  (forall o, In o os ->
             o = Server.Completed \/ o = Server.Raises Py.ConnectionError) ->
  let y := Server.exec (Server.Tick :: map Server.KDrained os) x in
  Server.wire y
  = Server.wire x ++ map (fun p => (fst p, Server.Keepalive k)) d /\
  Server.response_counter (Server.server y) = S k /\
  Server.clients (Server.server y) = Server.kept d os /\
  Server.keepalive y = Server.KSleep /\
  Server.handlers y = Server.handlers x /\
  Server.closed y = Server.closed x /\
  Server.audit_log y = Server.audit_log x.
Proof.
  cbv zeta. pose proof (reachable_inv log f ls) as I.
  set (x := exec ls (run (init log) f)) in *. intros Hk Hne Hlen Hos.
  pose proof (acc_keys x I) as Hnd.
  cbn [exec]. assert (Hstep : step Tick x = Some (on_tick x)) by (simpl; now rewrite Hk).
  rewrite Hstep. unfold on_tick.
  destruct (clients (server x)) as [| [w0 c0] post] eqn:Hd; [contradiction |].
  cbn [_get_next_response_id]. unfold next_client.
  cbn [with_server server clients]. rewrite Hd, Nat.eqb_refl. cbn [negb nth_error].
  replace (S (response_counter (server x)) - 1) with (response_counter (server x))
    by lia.
  set (x1 := suspend_keepalive _ _).
  rewrite (broadcast_loop (Keepalive (response_counter (server x))) os []
             w0 c0 post [] x1);
    [| reflexivity | reflexivity | simpl in Hlen; simpl; lia | exact Hos].
  rewrite remove_disconnected_all.
  - unfold x1. cbn [suspend_keepalive write with_server server files wire closed
                    handlers keepalive clients response_counter with_clients
                    audit_log log_file app].
    rewrite (kept_filter ((w0, c0) :: post) os) by (try exact Hnd; exact Hlen).
    rewrite <- app_assoc. unfold audit_log.
    cbn [files server log_file with_clients]. repeat split; reflexivity.
  - now apply failed_nodup.
  - exact Hnd.
  - intros w Hw. now apply (failed_keys _ os).
Qed.

Lemma keepalive_broadcast_witness :
  let x := Server.exec [Server.Accept 5; Server.Accept 3]
             (Server.run (Server.init "logs/server.log") (fun _ => None)) in
  let y := Server.exec
             [Server.Tick; Server.KDrained (Server.Raises Py.ConnectionError);
              Server.KDrained Server.Completed] x in
  Server.wire y = [(5, Server.Keepalive 0); (3, Server.Keepalive 0)] /\
  Server.clients (Server.server y) = [(3, 2)].
Proof.
  cbv zeta.
  pose proof (keepalive_broadcast "logs/server.log" (fun _ => None)
                [Server.Accept 5; Server.Accept 3]
                [Server.Raises Py.ConnectionError; Server.Completed]) as H.
  cbv zeta in H.
  assert (Hos : forall o,
             In o [Server.Raises Py.ConnectionError; Server.Completed] ->
             o = Server.Completed \/ o = Server.Raises Py.ConnectionError).
  { intros o [<- | [<- | []]]; [now right | now left]. }
  destruct (H eq_refl ltac:(discriminate) eq_refl Hos) as (H1 & _ & H3 & _).
  split; [exact H1 | exact H3].
Defined.

(** X9.  The keepalive task does not survive a change of the registry
    during a broadcast.  While the task waits in the drain of a copy, with
    the registry still of the size it had when the loop began, the
    acceptance of a new connection, or the exit of the handler of a
    registered connection whose read hits the end of the stream, changes
    the size of the dict the loop iterates over: when the drain is over,
    completed or failed with [ConnectionError], the iterator raises
    [RuntimeError], which ends the task; whatever happens afterwards, no
    keepalive is written any more. *)
Theorem keepalive_ends_when_registry_changes (log : string) (f : Py.fs)
    (ls0 ls : list Server.label) (w : Server.writer) (msg : Server.outmsg)
    (pos : nat) (cur : Server.writer) (disc : list Server.writer)
    (res : Server.io_result) (clk : Py.clock) (rnd : Q) (delay : Z) (cid : nat) :
  let x := Server.exec ls0 (Server.run (Server.init log) f) in
  Server.keepalive x
  = Server.KDrain msg (List.length (Server.clients (Server.server x))) pos cur disc ->
  res = Server.Completed \/ res = Server.Raises Py.ConnectionError ->
  (Server.handler_of w (Server.handlers x) = None ->
   let y := Server.exec (Server.Accept w :: Server.KDrained res :: ls) x in
   Server.keepalive y = Server.KRaised Py.RuntimeError /\
   Server.keepalives (Server.wire y) = Server.keepalives (Server.wire x)) /\
  (Server.handler_of w (Server.handlers x) = Some (Server.HRead cid) ->
   Server.dict_mem w (Server.clients (Server.server x)) = true ->
   let y := Server.exec
              (Server.Read w (Server.ReadRaises Py.IncompleteReadError) clk rnd delay
                 :: Server.KDrained res :: ls) x in
   Server.keepalive y = Server.KRaised Py.RuntimeError /\
   Server.keepalives (Server.wire y) = Server.keepalives (Server.wire x)).
Proof.
  cbv zeta. pose proof (reachable_inv log f ls0) as I.
  set (x := exec ls0 (run (init log) f)) in *. intros Hk Hres. split.
  - intros Hn. change (exec (Accept w :: KDrained res :: ls) x)
      with (exec (KDrained res :: ls)
              (match step (Accept w) x with Some y => y | None => x end)).
    cbn [step]. rewrite Hn.
    refine (broadcast_size_changed (accept w x) msg
              (List.length (clients (server x))) pos cur disc res ls Hk _ Hres).
    unfold accept. cbn [_get_next_client_id with_clients with_server suspend server
                        clients].
    rewrite (dict_set_new _ _ _ (unregistered_without_handler x w I Hn)), length_app.
    simpl. lia.
  - intros Hh Hm. change (exec (Read w (ReadRaises IncompleteReadError) clk rnd delay
                                  :: KDrained res :: ls) x)
      with (exec (KDrained res :: ls)
              (match step (Read w (ReadRaises IncompleteReadError) clk rnd delay) x
               with Some y => y | None => x end)).
    cbn [step]. rewrite Hh. cbn [on_read]. unfold cleanup.
    destruct (dict_del w (clients (server x))) as [d |] eqn:E.
    + refine (broadcast_size_changed
                (suspend w (HClose cid None)
                   (close w (with_server (with_clients d (server x)) x)))
                msg (List.length (clients (server x))) pos cur disc res ls Hk _ Hres).
      cbn [with_clients with_server suspend close server clients].
      rewrite (dict_del_length _ _ _ E). lia.
    + apply ServerLines.dict_del_raises in E. congruence.
Qed.

Lemma keepalive_ends_when_registry_changes_witness :
  let x := Server.exec [Server.Accept 5; Server.Tick]
             (Server.run (Server.init "logs/server.log") (fun _ => None)) in
  let y := Server.exec
             [Server.Accept 3; Server.KDrained Server.Completed; Server.Tick;
              Server.KDrained Server.Completed] x in
  Server.keepalive y = Server.KRaised Py.RuntimeError /\
  Server.keepalives (Server.wire y) = [(5, Server.Keepalive 0)].
Proof.
  cbv zeta.
  pose proof (keepalive_ends_when_registry_changes "logs/server.log"
                (fun _ => None) [Server.Accept 5; Server.Tick]
                [Server.Tick; Server.KDrained Server.Completed]
                3 (Server.Keepalive 0) 1 5 [] Server.Completed noon (1 # 2)%Q
                100%Z 0 eq_refl (or_introl eq_refl)) as H.
  cbv zeta in H. destruct H as [H _]. destruct (H eq_refl) as [H1 H2].
  split; [exact H1 | rewrite H2; reflexivity].
Defined.

End BroadcastTheorems.

(* ================================================================== *)
(** * The client: start, pings that are answered, the receiver *)
(* ================================================================== *)

Module ClientRun.
Import Py Client.

Lemma connect_fails s e t rest :
  script s = {| result_of := Fails e; clock_of := t |} :: rest ->
  connect s
  = (if is_ConnectionError e then Returned false else Raised e,
     {| self := self s; files := files s; now := t; script := rest;
        trace := trace s ++ [Connect]; closed := closed s;
        next_handle := next_handle s |}).
Proof.
  intros Hs. cbv [connect try_except bind open_connection emit await raise ret].
  cbn [script]. rewrite Hs. cbn [result_of clock_of].
  now destruct (is_ConnectionError e).
Qed.


(** [connect] touches the streams only when it succeeds. *)
Lemma connect_self s :
  fst (connect s) = Returned true \/ self (snd (connect s)) = self s.
Proof.
  cbv [connect try_except bind open_connection emit await raise ret get_self set_self].
  cbn [script]. destruct (script s) as [| [o c] rest]; cbn; [now right |].
  destruct o as [| data | | e]; cbn; auto.
  destruct (is_ConnectionError e); cbn; auto.
Qed.


Lemma reconnect_never_raises s e : fst (reconnect s) <> Raised e.
Proof.
  destruct (ClientReconnect.reconnect_spec s) as (k & tail & H). cbn zeta in H.
  destruct H as (_ & _ & [(H & _) | [(H & _) | (H & _)]]); rewrite H; discriminate.
Qed.


Lemma await_reply_fails st rm s r t e rest :
  reader (self s) = Some r ->
  script s = {| result_of := Fails e; clock_of := t |} :: rest ->
  is_TimeoutError e = false ->
  await_reply st rm s
  = (Raised e,
     {| self := self s; files := files s; now := t; script := rest;
        trace := trace s ++ [WaitLine r 2000]; closed := closed s;
        next_handle := next_handle s |}).
Proof.
  intros Hr Hs He. unfold await_reply. rewrite (ClientPing.try_the_reader _ _ _ s r Hr).
  unfold try_except, bind at 1, readuntil, bind at 1, emit.
  unfold bind at 1, await. cbn [script]. rewrite Hs.
  cbn [result_of clock_of raise]. now rewrite He.
Qed.

Lemma logged_failed_attempts k : logged (failed_attempts k) = [].
Proof. induction k as [| k IH]; [reflexivity | exact IH]. Qed.

(** [reconnect] writes nothing to the audit log. *)
Lemma reconnect_logs_nothing s : audit_log (snd (reconnect s)) = audit_log s.
Proof.
  destruct (ClientEvolves.ok_reconnect s) as [_ _ _ _ (lines & Ha & Hl)].
  destruct (ClientReconnect.reconnect_spec s) as (k & tail & H). cbn zeta in H.
  destruct H as (Ht & _ & Hcases). rewrite Ht in Hl.
  rewrite !ClientEvolves.logged_app, logged_failed_attempts in Hl.
  assert (Hz : logged (closes s) = [] /\ logged tail = []).
  { split; [unfold closes; now destruct (writer (self s)) |].
    destruct Hcases as [(_ & _ & -> & _) | [(_ & _ & ->) | (_ & _ & ->)]];
      reflexivity. }
  destruct Hz as [Hz1 Hz2]. rewrite Hz1, Hz2 in Hl. simpl in Hl.
  apply app_inv_head in Hl. subst lines. now rewrite app_nil_r in Ha.
Qed.


Lemma log_line_request date send_time n receive_time response_msg :
  log_line date send_time (request_msg_of n) receive_time response_msg
  = (date ++ ";" ++ send_time ++ ";" ++ request_msg_of n ++ ";" ++ receive_time
          ++ ";" ++ response_msg)%string.
Proof.
  unfold log_line.
  change (request_msg_of n) with (String "[" (str_nat n ++ "] PING")) at 1.
  cbn [String.eqb].
  destruct (String.eqb_spec response_msg timeout_marker) as [-> | _]; reflexivity.
Qed.

Lemma await_reply_after_keepalive st n s r t1 t2 data1 text1 data2 text2 rest :
  reader (self s) = Some r ->
  script s = {| result_of := Data data1; clock_of := t1 |}
               :: {| result_of := Data data2; clock_of := t2 |} :: rest ->
  decode_ascii data1 = Some text1 ->
  contains "keepalive" (strip text1) = true ->
  decode_ascii data2 = Some text2 ->
  let e1 := log_line (date_str t1) EmptyString EmptyString (time_str t1) (strip text1) in
  let e2 := log_line (date_str t2) st (request_msg_of n) (time_str t2) (strip text2) in
  await_reply st (request_msg_of n) s
  = (Returned tt,
     {| self := self s;
        files := append_line (log_file (self s)) e2
                   (append_line (log_file (self s)) e1 (files s));
        now := t2; script := rest;
        trace := trace s ++ [WaitLine r 2000; Append e1; WaitLine r 100; Append e2];
        closed := closed s; next_handle := next_handle s |}).
Proof.
  intros Hr Hs Hd1 Hk Hd2. cbv zeta.
  unfold await_reply. rewrite (ClientPing.try_the_reader _ _ _ s r Hr).
  cbv [try_except bind readuntil emit await ret raise decode_strip _format_time
         _write_log _format_date the_reader get_self].
  repeat (cbn [script self now files trace closed next_handle result_of clock_of
                 fst snd];
          first [rewrite Hs | rewrite Hd1 | rewrite Hk | rewrite Hr | rewrite Hd2]).
  cbn [script self now files trace closed next_handle result_of clock_of fst snd].
  rewrite <- !app_assoc. reflexivity.
Qed.


Lemma await_reply_line st n s r t data text rest :
  reader (self s) = Some r ->
  script s = {| result_of := Data data; clock_of := t |} :: rest ->
  decode_ascii data = Some text ->
  contains "keepalive" (strip text) = false ->
  await_reply st (request_msg_of n) s
  = (Returned tt,
     {| self := self s;
        files := append_line (log_file (self s))
                   (log_line (date_str t) st (request_msg_of n) (time_str t)
                      (strip text)) (files s);
        now := t; script := rest;
        trace := trace s ++ [WaitLine r 2000;
                             Append (log_line (date_str t) st (request_msg_of n)
                                       (time_str t) (strip text))];
        closed := closed s; next_handle := next_handle s |}).
Proof.
  intros Hr Hs Hd Hk. unfold await_reply. rewrite (ClientPing.try_the_reader _ _ _ s r Hr).
  cbv [try_except bind readuntil emit await ret raise decode_strip _format_time
         _write_log _format_date the_reader get_self].
  repeat (cbn [script self now files trace closed next_handle result_of clock_of
                 fst snd];
          first [rewrite Hs | rewrite Hd | rewrite Hk | rewrite Hr]).
  cbn [script self now files trace closed next_handle result_of clock_of fst snd].
  rewrite <- app_assoc. reflexivity.
Qed.

(** A line that is not a keepalive ends the wait. *)
Lemma send_ping_answered (s : state) (h r : handle)
    (t1 t2 : clock) (data text : string) (rest : list answer) :
  writer (self s) = Some h ->
  reader (self s) = Some r ->
  existsb (Nat.eqb h) (closed s) = false ->
  script s
  = {| result_of := Done; clock_of := t1 |}
      :: {| result_of := Data data; clock_of := t2 |} :: rest ->
  decode_ascii data = Some text ->
  contains "keepalive" (strip text) = false ->
  let c := request_counter (self s) in
  let ping := request_msg_of c in
  let entry := (date_str t2 ++ ";" ++ time_str (now s) ++ ";" ++ ping
                  ++ ";" ++ time_str t2 ++ ";" ++ strip text)%string in
  exists s',
    send_ping s = (Returned tt, s') /\
    trace s'
    = trace s
        ++ [Write h ping; Sent h c; WaitLine r 2000;
            Append entry] /\
    audit_log s' = audit_log s ++ [entry] /\
    request_counter (self s') = c + 1 /\
    script s' = rest.
Proof.
  intros Hw Hr Hc Hs Hd Hk. cbv zeta.
  rewrite (ClientPing.send_ping_sent s h t1 _ Hw Hc Hs).
  unfold try_except.
  rewrite (await_reply_line (time_str (now s))
             (request_counter (self s))
             (after_sent h t1
                ({| result_of := Data data;
                    clock_of := t2 |} :: rest) s)
             r t2 data text rest Hr eq_refl Hd Hk).
  rewrite log_line_request.
  eexists. split; [reflexivity |].
  cbn [trace self request_counter writer
       script after_sent].
  split; [now rewrite <- app_assoc |].
  split; [apply content_append |].
  split; reflexivity.
Qed.

End ClientRun.

Section ClientTheorems.
Import Py Client ClientRun.


(** X11.  [run] leaves no open connection behind.  Once [run] has
    returned or raised, whatever happened in between, the client has no
    streams or has closed the ones it holds, and in the latter case closing
    them is the last thing it did. *)
Theorem run_closes_its_connection (sched : list Client.activity) (id : nat)
    (log : string) (f : Py.fs) (t : Py.clock) (answers : list Client.answer) :
  let r := Client.run sched (Client.start (Client.init id log) f t answers) in
  fst r <> Client.Suspended ->
  Client.stale (snd r) /\
  (forall h, Client.writer (Client.self (snd r)) = Some h ->
             exists tr, Client.trace (snd r) = tr ++ [Client.Close h]).
Proof.
  cbv zeta. destruct (run sched _) as [res s'] eqn:E. cbn [fst snd]. intros Hns.
  unfold run, bind at 1, truncate_log in E. unfold bind at 1 in E.
  match type of E with
  | context [connect ?s] => set (s1 := s) in E
  end.
  assert (Hw : writer (self s1) = None) by reflexivity.
  pose proof (connect_self s1) as Hc.
  destruct (connect s1) as [[[|] | e |] s2]; cbn [fst snd] in *.
  - unfold try_finally in E. destruct (perform_all sched s2) as [[[] | e |] s3];
      [| | inversion E; subst; now contradiction Hns];
      unfold bind, get_self in E; unfold stale;
      (destruct (writer (self s3)) as [h |] eqn:Ew;
       [ unfold close, bind, emit in E; inversion E; subst res s';
         cbn [self closed trace]; rewrite Ew; split; [now left |];
         intros h' Hh'; inversion Hh'; subst h'; now exists (trace s3)
       | cbn [ret] in E; inversion E; subst res s'; rewrite Ew; split; [exact I |];
         intros h' Hh'; discriminate ]).
  - destruct Hc as [Hc | Hc]; [discriminate |].
    cbn [ret] in E. inversion E; subst res s'.
    unfold stale. rewrite Hc, Hw. split; [exact I |]. intros h Hh. discriminate.
  - destruct Hc as [Hc | Hc]; [discriminate |].
    inversion E; subst res s'.
    unfold stale. rewrite Hc, Hw. split; [exact I |]. intros h Hh. discriminate.
  - inversion E; subst. now contradiction Hns.
Qed.

Lemma run_closes_its_connection_witness :
  Client.stale
    (snd (Client.run [Client.Cycle 300]
            (Client.start (Client.init 1 "logs/client_1.log") (fun _ => None) noon
               (map answered [Client.Opened; Client.Done;
                              Client.Fails Py.IncompleteReadError])))).
Proof.
  apply (run_closes_its_connection [Client.Cycle 300] 1 "logs/client_1.log"
           (fun _ => None) noon
           (map answered [Client.Opened; Client.Done;
                          Client.Fails Py.IncompleteReadError])).
  vm_compute. discriminate.
Defined.



(** X13.  A ping that is answered.  When the drain completes and the next
    line is ASCII and holds no ["keepalive"], [send_ping] returns after one
    entry has been appended to the audit log, pairing the request with the
    text of that line; the text is not compared with the request, so the
    reply to an earlier ping is logged as the reply to this one. *)
Theorem reply_logged_unchecked (s : Client.state) (h r : Client.handle)
    (t1 t2 : Py.clock) (data text : string) (rest : list Client.answer) :
  Client.writer (Client.self s) = Some h ->
  Client.reader (Client.self s) = Some r ->
  existsb (Nat.eqb h) (Client.closed s) = false ->
  Client.script s
  = {| Client.result_of := Client.Done; Client.clock_of := t1 |}
      :: {| Client.result_of := Client.Data data; Client.clock_of := t2 |} :: rest ->
  Py.decode_ascii data = Some text ->
  Py.contains "keepalive" (Py.strip text) = false ->
  let c := Client.request_counter (Client.self s) in
  let ping := Client.request_msg_of c in
  let entry := (Py.date_str t2 ++ ";" ++ Py.time_str (Client.now s) ++ ";" ++ ping
                  ++ ";" ++ Py.time_str t2 ++ ";" ++ Py.strip text)%string in
  exists s',
    Client.send_ping s = (Client.Returned tt, s') /\
    Client.trace s'
    = Client.trace s
        ++ [Client.Write h ping; Client.Sent h c; Client.WaitLine r 2000;
            Client.Append entry] /\
    Client.audit_log s' = Client.audit_log s ++ [entry] /\
    Client.request_counter (Client.self s') = c + 1 /\
    Client.script s' = rest.
Proof.
  exact (ClientRun.send_ping_answered s h r t1 t2 data text rest).
Qed.

Lemma reply_logged_unchecked_witness :
  exists s',
    Client.send_ping
      (connected (map answered [Client.Done;
                                Client.Data (Py.line_of "[9/1] PONG (1)")]))
    = (Client.Returned tt, s') /\
    Client.audit_log s'
    = ["2026-01-01;12:00:00.000;[3] PING;12:00:00.000;[9/1] PONG (1)"].
Proof.
  destruct (reply_logged_unchecked
              (connected (map answered [Client.Done;
                                        Client.Data (Py.line_of "[9/1] PONG (1)")]))
              1 1 noon noon (Py.line_of "[9/1] PONG (1)")
              (Py.line_of "[9/1] PONG (1)") []
              eq_refl eq_refl eq_refl eq_refl eq_refl eq_refl)
    as (s' & H1 & _ & H3 & _).
  exists s'. split; [exact H1 | exact H3].
Defined.

(** X14.  A keepalive, then another line within a tenth of a second.  The
    keepalive is logged as a push, and the line that follows is logged as
    the reply to the ping, whatever it holds. *)
Theorem line_after_keepalive_is_the_reply (s : Client.state) (h r : Client.handle)
    (t1 t2 t3 : Py.clock) (data1 text1 data2 text2 : string)
    (rest : list Client.answer) :
  Client.writer (Client.self s) = Some h ->
  Client.reader (Client.self s) = Some r ->
  existsb (Nat.eqb h) (Client.closed s) = false ->
  Client.script s
  = {| Client.result_of := Client.Done; Client.clock_of := t1 |}
      :: {| Client.result_of := Client.Data data1; Client.clock_of := t2 |}
      :: {| Client.result_of := Client.Data data2; Client.clock_of := t3 |} :: rest ->
  Py.decode_ascii data1 = Some text1 ->
  Py.contains "keepalive" (Py.strip text1) = true ->
  Py.decode_ascii data2 = Some text2 ->
  let c := Client.request_counter (Client.self s) in
  let ping := Client.request_msg_of c in
  let push := (Py.date_str t2 ++ ";;;" ++ Py.time_str t2 ++ ";"
                 ++ Py.strip text1)%string in
  let entry := (Py.date_str t3 ++ ";" ++ Py.time_str (Client.now s) ++ ";" ++ ping
                  ++ ";" ++ Py.time_str t3 ++ ";" ++ Py.strip text2)%string in
  exists s',
    Client.send_ping s = (Client.Returned tt, s') /\
    Client.trace s'
    = Client.trace s
        ++ [Client.Write h ping; Client.Sent h c; Client.WaitLine r 2000;
            Client.Append push; Client.WaitLine r 100; Client.Append entry] /\
    Client.audit_log s' = Client.audit_log s ++ [push; entry] /\
    Client.request_counter (Client.self s') = c + 1 /\
    Client.script s' = rest.
Proof.
  intros Hw Hr Hc Hs Hd1 Hk Hd2. cbv zeta.
  rewrite (ClientPing.send_ping_sent s h t1 _ Hw Hc Hs).
  unfold try_except.
  rewrite (await_reply_after_keepalive (time_str (now s))
             (request_counter (self s))
             (after_sent h t1 _ s)
             r t2 t3 data1 text1 data2 text2 rest Hr eq_refl Hd1 Hk Hd2).
  rewrite log_line_request.
  eexists. split; [reflexivity |].
  cbn [trace self request_counter writer
       script after_sent log_line String.eqb].
  split; [now rewrite <- app_assoc |].
  split; [| split; reflexivity].
  unfold audit_log. cbn [files self log_file after_sent].
  rewrite !content_append, <- app_assoc. reflexivity.
Qed.

Lemma line_after_keepalive_is_the_reply_witness :
  exists s',
    Client.send_ping
      (connected (map answered [Client.Done;
                                Client.Data (Py.line_of "[4] keepalive");
                                Client.Data (Py.line_of "[5/3] PONG (1)")]))
    = (Client.Returned tt, s') /\
    Client.audit_log s'
    = ["2026-01-01;;;12:00:00.000;[4] keepalive";
       "2026-01-01;12:00:00.000;[3] PING;12:00:00.000;[5/3] PONG (1)"].
Proof.
  destruct (line_after_keepalive_is_the_reply
              (connected (map answered [Client.Done;
                                        Client.Data (Py.line_of "[4] keepalive");
                                        Client.Data (Py.line_of "[5/3] PONG (1)")]))
              1 1 noon noon noon
              (Py.line_of "[4] keepalive") (Py.line_of "[4] keepalive")
              (Py.line_of "[5/3] PONG (1)") (Py.line_of "[5/3] PONG (1)") []
              eq_refl eq_refl eq_refl eq_refl eq_refl eq_refl eq_refl)
    as (s' & H1 & _ & H3 & _).
  exists s'. split; [exact H1 | exact H3].
Defined.



End ClientTheorems.

(** X16.  An exchange is recorded alike on both sides.  The client sends
    the ping for its request number [n], of at most 4300 digits; the
    server, which does not drop it, reads that line, answers and logs; the
    client reads the line the server wrote.  Then the entry in the audit
    log of the server and the entry in the audit log of the client carry
    the same request text and the same reply text, and the reply echoes
    [n] and names the server's id for the connection. *)
Theorem exchange_recorded_on_both_sides (x : Server.world) (w : Server.writer)
    (cid : nat) (s : Client.state) (h r : Client.handle)
    (clk1 clk2 clk3 t1 t2 : Py.clock) (rnd : Q) (delay : Z)
    (rest : list Client.answer) :
  Server.handler_of w (Server.handlers x) = Some (Server.HRead cid) ->
  Server.drops rnd = false ->
  Client.writer (Client.self s) = Some h ->
  Client.reader (Client.self s) = Some r ->
  existsb (Nat.eqb h) (Client.closed s) = false ->
  let n := Client.request_counter (Client.self s) in
  String.length (Py.str_nat n) <= 4300 ->
  let ping := Client.request_msg_of n in
  let reply := Server.Pong (Server.response_counter (Server.server x))
                 (Z.of_nat n) cid in
  Client.script s
  = {| Client.result_of := Client.Done; Client.clock_of := t1 |}
      :: {| Client.result_of := Client.Data (Py.line_of (Server.render reply));
            Client.clock_of := t2 |} :: rest ->
  let y := Server.exec
             [Server.Read w (Server.Line (Py.line_of ping)) clk1 rnd delay;
              Server.Wake w clk2; Server.Drained w Server.Completed clk3] x in
  exists s',
    Client.send_ping s = (Client.Returned tt, s') /\
    Client.writes (Client.trace s') = Client.writes (Client.trace s) ++ [(h, ping)] /\
    Server.wire y = Server.wire x ++ [(w, reply)] /\
    Server.audit_log y
    = Server.audit_log x
        ++ [(Py.date_str clk3 ++ ";" ++ Py.time_str clk1 ++ ";" ++ ping ++ ";"
               ++ Py.time_str clk2 ++ ";" ++ Server.render reply)%string] /\
    Client.audit_log s'
    = Client.audit_log s
        ++ [(Py.date_str t2 ++ ";" ++ Py.time_str (Client.now s) ++ ";" ++ ping
               ++ ";" ++ Py.time_str t2 ++ ";" ++ Server.render reply)%string].
Proof.
  intros Hh Hdrop Hw Hr Hc. cbv zeta. intros Hlen Hs.
  set (n := Client.request_counter (Client.self s)) in *.
  set (reply := Server.Pong _ _ _) in *.
  assert (Hparse : Server.parse_request
                     (Py.strip (Py.line_of (Client.request_msg_of n)))
                   = Some (Z.of_nat n)).
  { rewrite PyText.request_msg_strip, PyText.request_msg_parsed.
    apply Nat.leb_le in Hlen. now rewrite Hlen. }
  destruct (ServerExchange.exchange_steps x w cid
              (Py.line_of (Client.request_msg_of n))
              (Py.line_of (Client.request_msg_of n)) clk1 clk2 clk3 rnd delay
              (Z.of_nat n) Server.Completed Hh
              (PyText.decode_ascii_ok _
                 (PyText.line_ascii _ (PyText.request_msg_ascii n)))
              Hdrop Hparse) as (Hwire & Hlog & _).
  destruct (Hlog eq_refl) as [Hlog' _].
  assert (Hk : Py.contains "keepalive"
                 (Py.strip (Py.line_of (Server.render reply))) = false)
    by (rewrite PyText.render_strip; apply PyText.render_keepalive).
  destruct (ClientRun.send_ping_answered s h r t1 t2
              (Py.line_of (Server.render reply)) (Py.line_of (Server.render reply))
              rest Hw Hr Hc Hs
              (PyText.decode_ascii_ok _
                 (PyText.line_ascii _ (PyText.render_ascii reply)))
              Hk) as (s' & H1 & H2 & H3 & _).
  exists s'. split; [exact H1 |].
  rewrite PyText.render_strip in H3. rewrite PyText.request_msg_strip in Hlog'.
  split; [| split; [exact Hwire | split; [exact Hlog' | exact H3]]].
  rewrite H2. unfold Client.writes. rewrite flat_map_app. reflexivity.
Qed.

Lemma exchange_recorded_on_both_sides_witness :
  let x := Server.exec [Server.Accept 1]
             (Server.run (Server.init "logs/server.log") (fun _ => None)) in
  let s := connected (map answered [Client.Done;
                                    Client.Data (Py.line_of "[0/3] PONG (1)")]) in
  let y := Server.exec
             [Server.Read 1 (Server.Line (Py.line_of "[3] PING")) noon (1 # 2)%Q 100;
              Server.Wake 1 noon; Server.Drained 1 Server.Completed noon] x in
  exists s',
    Client.send_ping s = (Client.Returned tt, s') /\
    Server.audit_log y
    = ["2026-01-01;12:00:00.000;[3] PING;12:00:00.000;[0/3] PONG (1)"] /\
    Client.audit_log s'
    = ["2026-01-01;12:00:00.000;[3] PING;12:00:00.000;[0/3] PONG (1)"].
Proof.
  cbv zeta.
  destruct (exchange_recorded_on_both_sides
              (Server.exec [Server.Accept 1]
                 (Server.run (Server.init "logs/server.log") (fun _ => None)))
              1 1
              (connected (map answered [Client.Done;
                                        Client.Data (Py.line_of "[0/3] PONG (1)")]))
              1 1 noon noon noon noon noon (1 # 2)%Q 100%Z []
              eq_refl eq_refl eq_refl eq_refl eq_refl
              ltac:(vm_compute; lia) eq_refl)
    as (s' & H1 & _ & _ & H4 & H5).
  exists s'. split; [exact H1 |]. split; [exact H4 | exact H5].
Defined.

(* ================================================================== *)
(** * The audit logs: fields *)
(* ================================================================== *)

(** X17.  The entries of the server's audit log have five fields.  When
    the date, the two times and the text of the request hold no [';'],
    splitting an entry at [';'] gives back exactly the five values
    [_write_log] was given, the reply being free of [';'] by its format,
    and for a dropped request the marker twice.  The text of the request
    is copied as it came: one [';'] in it and the entry has six fields. *)
Theorem server_entry_fields (date request_time request_msg response_time : string)
    (m : Server.outmsg) :
  Py.free_of ";" date = true ->
  Py.free_of ";" request_time = true ->
  Py.free_of ";" request_msg = true ->
  Py.free_of ";" response_time = true ->
  Py.split_on ";" (Server.log_line date request_time request_msg
                     (Some (response_time, Server.render m)))
  = [date; request_time; request_msg; response_time; Server.render m] /\
  Py.split_on ";" (Server.log_line date request_time request_msg None)
  = [date; request_time; request_msg; Server.ignored; Server.ignored] /\
  (forall tail,
      Py.free_of ";" tail = true ->
      Py.split_on ";" (Server.log_line date request_time
                         (request_msg ++ ";" ++ tail)
                         (Some (response_time, Server.render m)))
      = [date; request_time; request_msg; tail; response_time; Server.render m]).
Proof.
  intros Hd Ht Hm Hr. unfold Server.log_line. split; [| split].
  - apply PyText.five_fields; auto. apply PyText.render_free.
  - apply PyText.five_fields; auto.
  - intros tail Htail. rewrite !PyText.append_assoc. cbn [append].
    repeat (rewrite PyText.split_on_app by assumption).
    rewrite PyText.split_on_free; [reflexivity | apply PyText.render_free].
Qed.

Lemma server_entry_fields_witness :
  Py.split_on ";" (Server.log_line "2026-01-01" "12:00:00.000" "[7] PING"
                     (Some ("12:00:00.250", Server.render (Server.Pong 0 7 1))))
  = ["2026-01-01"; "12:00:00.000"; "[7] PING"; "12:00:00.250"; "[0/7] PONG (1)"].
Proof.
  exact (proj1 (server_entry_fields "2026-01-01" "12:00:00.000" "[7] PING"
                  "12:00:00.250" (Server.Pong 0 7 1)
                  eq_refl eq_refl eq_refl eq_refl)).
Defined.

(** X18.  The entries of the client's audit log have five fields.  When
    the date, the two times and the text of the response hold no [';'],
    splitting an entry at [';'] gives back the five values of the entry:
    for a ping the request text is the third field; for a keepalive the
    second and the third field are empty. *)
Theorem client_entry_fields (date send_time receive_time response_msg : string)
    (n : nat) :
  Py.free_of ";" date = true ->
  Py.free_of ";" send_time = true ->
  Py.free_of ";" receive_time = true ->
  Py.free_of ";" response_msg = true ->
  Py.split_on ";" (Client.log_line date send_time (Client.request_msg_of n)
                     receive_time response_msg)
  = [date; send_time; Client.request_msg_of n; receive_time; response_msg] /\
  Py.split_on ";" (Client.log_line date send_time EmptyString receive_time
                     response_msg)
  = [date; EmptyString; EmptyString; receive_time; response_msg].
Proof.
  intros Hd Hs Hr Hm. split.
  - rewrite ClientRun.log_line_request. apply PyText.five_fields; auto.
    apply PyText.request_msg_free.
  - unfold Client.log_line. cbn [String.eqb].
    change (date ++ ";;;" ++ receive_time ++ ";" ++ response_msg)%string
      with (date ++ ";" ++ EmptyString ++ ";" ++ EmptyString ++ ";" ++ receive_time
                 ++ ";" ++ response_msg)%string.
    apply PyText.five_fields; auto.
Qed.

Lemma client_entry_fields_witness :
  Py.split_on ";" (Client.log_line "2026-01-01" "12:00:00.000" EmptyString
                     "12:00:05.000" "[4] keepalive")
  = ["2026-01-01"; EmptyString; EmptyString; "12:00:05.000"; "[4] keepalive"].
Proof.
  exact (proj2 (client_entry_fields "2026-01-01" "12:00:00.000" "12:00:05.000"
                  "[4] keepalive" 0 eq_refl eq_refl eq_refl eq_refl)).
Defined.

(* ================================================================== *)
(** * The launcher: command lines *)
(* ================================================================== *)

Module LauncherFacts.
Import Py Launcher PyText.

Lemma cancel_before sep a b ta tb :
  free_of sep a = true -> free_of sep b = true ->
  (a ++ String sep ta = b ++ String sep tb)%string -> a = b.
Proof.
  unfold free_of. revert b. induction a as [| c t IH]; intros [| d u]; simpl;
    intros Ha Hb E; try reflexivity.
  - inversion E; subst. now rewrite Ascii.eqb_refl in Hb.
  - inversion E; subst. now rewrite Ascii.eqb_refl in Ha.
  - apply andb_true_iff in Ha. apply andb_true_iff in Hb.
    inversion E; subst. f_equal. apply (IH u); tauto.
Qed.

Lemma default_log_inj a b :
  Client.default_log a = Client.default_log b -> a = b.
Proof.
  unfold Client.default_log. intros E. simpl in E. inversion E as [E'].
  apply str_inj.
  apply (cancel_before "." (str a) (str b) "log" "log"); auto;
    now apply free_of_str.
Qed.

Lemma range_nodup start stop : NoDup (range start stop).
Proof.
  unfold range. generalize (seq_NoDup (Z.to_nat (stop - start)) 0).
  induction (seq 0 (Z.to_nat (stop - start))) as [| i t IH]; simpl; intros H;
    [constructor |].
  inversion H as [| ? ? Hi Ht]; subst. constructor; [| now apply IH].
  intros Hin. apply in_map_iff in Hin. destruct Hin as (j & Hj & Hin).
  assert (j = i) by lia. subst j. contradiction.
Qed.

Lemma nodup_map_inj {A B} (g : A -> B) l :
  (forall a b, g a = g b -> a = b) -> NoDup l -> NoDup (map g l).
Proof.
  intros Hg. induction l as [| a t IH]; simpl; intros H; [constructor |].
  inversion H as [| ? ? Ha Ht]; subst. constructor; [| now apply IH].
  intros Hin. apply in_map_iff in Hin. destruct Hin as (b & Hb & Hin).
  apply Hg in Hb. now subst.
Qed.

Lemma client_cmd_options executable client_id timeout debug :
  option_value ["--debug"] "--id"
    (argv_1 (client_cmd executable client_id timeout debug)) = Some (str client_id) /\
  option_value ["--debug"] "--log"
    (argv_1 (client_cmd executable client_id timeout debug))
  = Some (Client.default_log client_id).
Proof. destruct debug; split; reflexivity. Qed.


End LauncherFacts.

Section LauncherTheorems.
Import Py Launcher PyText LauncherFacts.

(** X19.  The launcher gives every process its own log file.  It starts
    the server and then one client for each id from 1 to [clients], none
    when [clients] is not positive; the client with id [k] is told
    [--id k] and [--log logs/client_k.log], the file it would choose by
    itself; the server is told [logs/server.log]; and no two of these
    files are the same, so that no process empties the log of another when
    it starts. *)
Theorem launcher_log_files (executable : string) (clients timeout : Z)
    (debug : bool) :
  let cmds := Launcher.commands executable clients timeout debug in
  let ids := Py.range 1 (clients + 1) in
  let logs := map (fun cmd => Py.option_value ["--debug"] "--log"
                               (Launcher.argv_1 cmd)) cmds in
  List.length ids = Z.to_nat clients /\
  map (fun cmd => Py.option_value ["--debug"] "--id" (Launcher.argv_1 cmd)) (tl cmds)
  = map (fun id => Some (Py.str id)) ids /\
  logs = Some "logs/server.log" :: map (fun id => Some (Client.default_log id)) ids /\
  NoDup logs.
Proof.
  cbv zeta.
  assert (Hlogs : map (fun cmd => option_value ["--debug"] "--log" (argv_1 cmd))
                    (commands executable clients timeout debug)
                  = Some "logs/server.log"
                      :: map (fun id => Some (Client.default_log id))
                           (range 1 (clients + 1))).
  { unfold commands. cbn [map]. f_equal.
    rewrite map_map. apply map_ext. intros id. apply client_cmd_options. }
  split; [| split; [| split]].
  - unfold range. rewrite length_map, length_seq. f_equal. lia.
  - unfold commands. cbn [tl]. rewrite map_map. apply map_ext. intros id.
    apply client_cmd_options.
  - exact Hlogs.
  - rewrite Hlogs. constructor.
    + intros Hin. apply in_map_iff in Hin. destruct Hin as (id & E & _).
      unfold Client.default_log in E. simpl in E. discriminate.
    + apply nodup_map_inj; [| apply range_nodup].
      intros a b E. apply default_log_inj. congruence.
Qed.

End LauncherTheorems.

(* ================================================================== *)
(** * Time stamps *)
(* ================================================================== *)

Module TimeStamp.
Import Py PyText.

Lemma checked_below (P : nat -> bool) (N : nat) :
  forallb P (seq 0 N) = true -> forall n, n < N -> P n = true.
Proof.
  intros H n Hn. rewrite forallb_forall in H. apply H. apply in_seq. lia.
Qed.

Lemma two_digits n :
  n < 100 ->
  exists a b, zero_padded 2 n = String a (String b EmptyString) /\
              is_digit a = true /\ is_digit b = true /\
              int (zero_padded 2 n) = Some (Z.of_nat n).
Proof.
  intros Hn.
  pose proof (checked_below
                (fun n => match zero_padded 2 n with
                          | String a (String b EmptyString) =>
                              is_digit a && is_digit b &&
                              match int (zero_padded 2 n) with
                              | Some z => Z.eqb z (Z.of_nat n)
                              | None => false
                              end
                          | _ => false
                          end) 100 ltac:(vm_compute; reflexivity) n Hn) as H.
  cbv beta in H. destruct (zero_padded 2 n) as [| a [| b [| ? ?]]]; try discriminate.
  apply andb_true_iff in H. destruct H as [H H3].
  apply andb_true_iff in H. destruct H as [H1 H2].
  exists a, b. repeat split; auto.
  destruct (int _) as [z |]; [| discriminate]. apply Z.eqb_eq in H3. now subst.
Qed.

Lemma three_digits n :
  n < 1000 ->
  exists a b c, zero_padded 3 n = String a (String b (String c EmptyString)) /\
                is_digit a = true /\ is_digit b = true /\ is_digit c = true /\
                int (zero_padded 3 n) = Some (Z.of_nat n).
Proof.
  intros Hn.
  pose proof (checked_below
                (fun n => match zero_padded 3 n with
                          | String a (String b (String c EmptyString)) =>
                              is_digit a && is_digit b && is_digit c &&
                              match int (zero_padded 3 n) with
                              | Some z => Z.eqb z (Z.of_nat n)
                              | None => false
                              end
                          | _ => false
                          end) 1000 ltac:(vm_compute; reflexivity) n Hn) as H.
  cbv beta in H.
  destruct (zero_padded 3 n) as [| a [| b [| c [| ? ?]]]]; try discriminate.
  apply andb_true_iff in H. destruct H as [H H4].
  apply andb_true_iff in H. destruct H as [H H3].
  apply andb_true_iff in H. destruct H as [H1 H2].
  exists a, b, c. repeat split; auto.
  destruct (int _) as [z |]; [| discriminate]. apply Z.eqb_eq in H4. now subst.
Qed.

Lemma digit_not_semicolon c : is_digit c = true -> negb (Ascii.eqb c ";") = true.
Proof. intros H. now rewrite (proj2 (proj2 (proj2 (proj2 (proj2 (digit_cases c H)))))). Qed.


End TimeStamp.

Section TimeStampTheorems.
Import Py PyText TimeStamp.

(** X20.  [_format_time] gives [HH:MM:SS.mmm].  For a time of day the
    text has twelve characters and no [';'], so that it is one field of an
    audit entry; the milliseconds are the microseconds divided by 1000 and
    rounded down; and two times of day with the same text agree on the
    hour, the minute, the second and the millisecond. *)
Theorem time_stamp_shape (now now' : Py.datetime) :
  Py.time_of_day now -> Py.time_of_day now' ->
  String.length (Py.format_time now) = 12 /\
  Py.free_of ";" (Py.format_time now) = true /\
  (Py.format_time now = Py.format_time now' ->
   Py.hour now = Py.hour now' /\ Py.minute now = Py.minute now' /\
   Py.second now = Py.second now' /\
   (Py.microsecond now / 1000 = Py.microsecond now' / 1000)%N).
Proof.
  intros (Hh & Hm & Hs & Hu) (Hh' & Hm' & Hs' & Hu').
  assert (Hms : N.to_nat (microsecond now / 1000) < 1000).
  { assert (microsecond now / 1000 < 1000)%N
      by (apply N.Div0.div_lt_upper_bound; exact Hu).
    lia. }
  assert (Hms' : N.to_nat (microsecond now' / 1000) < 1000).
  { assert (microsecond now' / 1000 < 1000)%N
      by (apply N.Div0.div_lt_upper_bound; exact Hu').
    lia. }
  unfold format_time.
  destruct (two_digits (hour now)) as (h1 & h2 & Eh & Dh1 & Dh2 & Ih); [lia |].
  destruct (two_digits (minute now)) as (m1 & m2 & Em & Dm1 & Dm2 & Im); [lia |].
  destruct (two_digits (second now)) as (s1 & s2 & Es & Ds1 & Ds2 & Is); [lia |].
  destruct (three_digits (N.to_nat (microsecond now / 1000)))
    as (u1 & u2 & u3 & Eu & Du1 & Du2 & Du3 & Iu); [lia |].
  destruct (two_digits (hour now')) as (h1' & h2' & Eh' & _ & _ & Ih'); [lia |].
  destruct (two_digits (minute now')) as (m1' & m2' & Em' & _ & _ & Im'); [lia |].
  destruct (two_digits (second now')) as (s1' & s2' & Es' & _ & _ & Is'); [lia |].
  destruct (three_digits (N.to_nat (microsecond now' / 1000)))
    as (u1' & u2' & u3' & Eu' & _ & _ & _ & Iu'); [lia |].
  rewrite Eh, Em, Es, Eu in *. rewrite Eh', Em', Es', Eu' in *.
  cbn [append]. split; [reflexivity |]. split.
  - unfold free_of. cbn [list_ascii_of_string forallb].
    rewrite (digit_not_semicolon h1), (digit_not_semicolon h2),
      (digit_not_semicolon m1), (digit_not_semicolon m2),
      (digit_not_semicolon s1), (digit_not_semicolon s2),
      (digit_not_semicolon u1), (digit_not_semicolon u2),
      (digit_not_semicolon u3) by assumption.
    reflexivity.
  - intros E. inversion E; subst.
    rewrite Ih in Ih'. rewrite Im in Im'. rewrite Is in Is'. rewrite Iu in Iu'.
    injection Ih' as Xh. injection Im' as Xm. injection Is' as Xs.
    injection Iu' as Xu.
    apply Nat2Z.inj in Xh. apply Nat2Z.inj in Xm. apply Nat2Z.inj in Xs.
    apply Nat2Z.inj in Xu. apply N2Nat.inj in Xu. auto.
Qed.

Lemma time_stamp_shape_witness :
  Py.format_time {| Py.hour := 9; Py.minute := 5; Py.second := 7;
                    Py.microsecond := 45999 |}
  = "09:05:07.045" /\
  Py.free_of ";" (Py.format_time {| Py.hour := 9; Py.minute := 5; Py.second := 7;
                                    Py.microsecond := 45999 |}) = true.
Proof.
  split; [reflexivity |].
  assert (H : Py.time_of_day {| Py.hour := 9; Py.minute := 5; Py.second := 7;
                                Py.microsecond := 45999 |})
    by (unfold Py.time_of_day; simpl; lia).
  exact (proj1 (proj2 (time_stamp_shape _ _ H H))).
Defined.

End TimeStampTheorems.

(* ================================================================== *)
(** * The server: connections that are no longer registered *)
(* ================================================================== *)

Module ServerLost.
Import Py Server ServerRegistry ServerBroadcast.

Lemma dict_mem_set_other w w' v d :
  w' <> w -> dict_mem w (dict_set w' v d) = dict_mem w d.
Proof.
  intros Hne. induction d as [| [k u] t IH]; simpl.
  - destruct (Nat.eqb_spec w' w); [contradiction | reflexivity].
  - destruct (Nat.eqb_spec k w') as [-> | Hk]; simpl.
    + destruct (Nat.eqb_spec w' w); [contradiction | reflexivity].
    + destruct (Nat.eqb_spec k w); [reflexivity | exact IH].
Qed.

Lemma dict_mem_del w w' d d' :
  dict_del w' d = Some d' -> dict_mem w d = false -> dict_mem w d' = false.
Proof.
  revert d'. induction d as [| [k u] t IH]; simpl; intros d' Hd Hm; [discriminate |].
  destruct (Nat.eqb k w) eqn:Ekw; [discriminate |].
  destruct (Nat.eqb k w'); [now inversion Hd; subst |].
  destruct (dict_del w' t) as [t' |]; [| discriminate].
  inversion Hd; subst. simpl. rewrite Ekw. now apply IH.
Qed.

Lemma handler_kept w w' h hs :
  handler_of w hs <> None -> handler_of w (set_handler w' h hs) <> None.
Proof.
  intros H. destruct (Nat.eq_dec w w') as [-> | Hne].
  - now rewrite ServerLines.handler_of_set.
  - now rewrite handler_of_other.
Qed.

Lemma kept_suspend w w' h x :
  handler_of w (handlers x) <> None ->
  handler_of w (handlers (suspend w' h x)) <> None.
Proof. apply handler_kept. Qed.

Lemma lost_refl w x :
  handler_of w (handlers x) <> None -> dict_mem w (clients (server x)) = false ->
  forgotten w x x.
Proof. intros H1 H2. repeat split; auto. Qed.

(** Steps that touch neither the registry, nor the streams closed, and
    write no keepalive to [w]. *)
Lemma lost_same w x y :
  (handler_of w (handlers x) <> None -> handler_of w (handlers y) <> None) ->
  clients (server y) = clients (server x) ->
  sent_to w (keepalives (wire y)) = sent_to w (keepalives (wire x)) ->
  closed y = closed x ->
  handler_of w (handlers x) <> None -> dict_mem w (clients (server x)) = false ->
  forgotten w x y.
Proof.
  intros Hh Hc Hw Hcl H1 H2. unfold forgotten. rewrite Hc, Hw, Hcl. auto.
Qed.

Lemma lost_cleanup w w' cid pending x :
  handler_of w (handlers x) <> None -> dict_mem w (clients (server x)) = false ->
  forgotten w x (cleanup w' cid pending x).
Proof.
  intros H1 H2. unfold cleanup.
  destruct (dict_del w' (clients (server x))) as [d |] eqn:E.
  - unfold forgotten. cbn [suspend close with_server with_clients handlers server clients
                      wire closed].
    split; [now apply handler_kept |].
    split; [exact (dict_mem_del w w' _ d E H2) |]. split; [reflexivity |].
    intros Hin. apply in_app_or in Hin. destruct Hin as [Hin | [Hin | []]];
      [exact Hin |].
    subst w'. apply ServerLines.dict_del_raises in H2. congruence.
  - apply lost_same; auto. intros _. apply kept_suspend. exact H1.
Qed.

Lemma lost_remove_disconnected w ws x :
  handler_of w (handlers x) <> None -> dict_mem w (clients (server x)) = false ->
  forgotten w x (remove_disconnected ws x).
Proof.
  revert x. induction ws as [| w' t IH]; intros x H1 H2; simpl.
  - now apply lost_same.
  - destruct (dict_del w' (clients (server x))) as [d |] eqn:E.
    + exact (IH (with_server (with_clients d (server x)) x) H1
               (dict_mem_del w w' _ d E H2)).
    + now apply lost_same.
Qed.

Lemma sent_to_write w w' m wi :
  (w' <> w \/ exists r n c, m = Pong r n c) ->
  sent_to w (keepalives (wi ++ [(w', m)])) = sent_to w (keepalives wi).
Proof.
  intros H. unfold sent_to, keepalives. rewrite !filter_app. simpl.
  destruct H as [H | (r & n & c & ->)]; simpl; [| now rewrite app_nil_r].
  destruct m; simpl; rewrite ?app_nil_r; auto.
  destruct (Nat.eqb_spec w' w); [contradiction | now rewrite app_nil_r].
Qed.

Lemma lost_next_client w msg used pos disc x :
  handler_of w (handlers x) <> None -> dict_mem w (clients (server x)) = false ->
  forgotten w x (next_client msg used pos disc x).
Proof.
  intros H1 H2. unfold next_client. destruct (negb _); [now apply lost_same |].
  destruct (nth_error (clients (server x)) pos) as [[w' c] |] eqn:E.
  - apply lost_same; auto. cbn [suspend_keepalive write wire].
    apply sent_to_write. left. intros ->. apply nth_error_In in E.
    apply dict_mem_out in H2. apply H2. change w with (fst (w, c)).
    now apply in_map.
  - now apply lost_remove_disconnected.
Qed.

Lemma lost_step w l x y :
  handler_of w (handlers x) <> None -> dict_mem w (clients (server x)) = false ->
  step l x = Some y -> forgotten w x y.
Proof.
  intros H1 H2 Hstep.
  destruct l as [w' | w' res clk rnd delay | w' clk | w' res clk | w' | | res];
    simpl in Hstep.
  - destruct (handler_of w' (handlers x)) eqn:E; [discriminate |].
    inversion Hstep; subst. assert (Hne : w' <> w) by congruence.
    unfold forgotten, accept.
    cbn [_get_next_client_id suspend with_server with_clients handlers server
         clients wire closed].
    rewrite dict_mem_set_other by exact Hne.
    split; [now apply handler_kept |]. auto.
  - destruct (handler_of w' (handlers x)) as [[] |]; try discriminate.
    inversion Hstep; subst. unfold on_read, on_line, raised.
    destruct res as [data | e]; [| destruct e; now apply lost_cleanup].
    destruct (decode_ascii data); [| now apply lost_cleanup].
    destruct (drops rnd).
    + apply lost_same; auto. intros _. apply kept_suspend. exact H1.
    + destruct (parse_request _);
        (apply lost_same; auto; intros _; apply kept_suspend; exact H1).
  - destruct (handler_of w' (handlers x)) as [[] |]; try discriminate.
    inversion Hstep; subst. unfold on_wake.
    apply lost_same; auto; [intros _; apply kept_suspend; exact H1 |].
    cbn [_get_next_response_id suspend write with_server wire].
    apply sent_to_write. right. eauto.
  - destruct (handler_of w' (handlers x)) as [[] |]; try discriminate.
    inversion Hstep; subst. unfold on_drained, raised.
    destruct res; [| now apply lost_cleanup].
    apply lost_same; auto. intros _. apply kept_suspend. exact H1.
  - destruct (handler_of w' (handlers x)) as [[] |]; try discriminate.
    inversion Hstep; subst. unfold on_closed.
    apply lost_same; auto. intros _. apply kept_suspend. exact H1.
  - destruct (keepalive x); try discriminate. inversion Hstep; subst.
    pose proof (lost_refl w x H1 H2) as Hrefl.
    assert (Hx : dict_mem w (clients (server (with_server
                   (snd (_get_next_response_id (server x))) x))) = false)
      by exact H2.
    unfold on_tick. destruct (clients (server x)) eqn:E; [exact Hrefl |].
    cbn [_get_next_response_id].
    match goal with
    | |- forgotten w x (next_client ?m ?u ?p ?d ?x') =>
        exact (lost_next_client w m u p d x' H1 Hx)
    end.
  - destruct (keepalive x); try discriminate. inversion Hstep; subst.
    unfold on_keepalive_drained. destruct res as [| e];
      [now apply lost_next_client |].
    destruct (is_ConnectionError e); [now apply lost_next_client |].
    now apply lost_same.
Qed.

Lemma lost_exec w ls x :
  handler_of w (handlers x) <> None -> dict_mem w (clients (server x)) = false ->
  forgotten w x (exec ls x).
Proof.
  revert x. induction ls as [| l t IH]; intros x H1 H2; simpl;
    [now apply lost_refl |].
  destruct (step l x) as [y |] eqn:E; [| now apply IH].
  destruct (lost_step w l x y H1 H2 E) as (A1 & A2 & A3 & A4).
  destruct (IH y A1 A2) as (B1 & B2 & B3 & B4).
  repeat split; auto. congruence.
Qed.

End ServerLost.

(** X21.  A connection that has lost its registry entry never gets it
    back.  From any world in which a connection has a handler and no
    entry in the registry, as after the keepalive task has removed it,
    whatever happens next: it stays out of the registry, no keepalive is
    written to it any more, and the server never closes its stream; and
    when its handler, still reading, gets a failed read, the [del] of the
    [finally] block raises [KeyError] in place of the failure. *)
Theorem unregistered_connection_is_lost (x : Server.world) (w : Server.writer)
    (ls : list Server.label) :
  Server.handler_of w (Server.handlers x) <> None ->
  Server.dict_mem w (Server.clients (Server.server x)) = false ->
  let y := Server.exec ls x in
  Server.dict_mem w (Server.clients (Server.server y)) = false /\
  Server.sent_to w (Server.keepalives (Server.wire y))
  = Server.sent_to w (Server.keepalives (Server.wire x)) /\
  (In w (Server.closed y) -> In w (Server.closed x)) /\
  (forall cid e clk rnd delay,
      Server.handler_of w (Server.handlers y) = Some (Server.HRead cid) ->
      Server.handler_of w
        (Server.handlers
           (Server.exec [Server.Read w (Server.ReadRaises e) clk rnd delay] y))
      = Some (Server.HRaised Py.KeyError)).
Proof.
  intros H1 H2. cbv zeta.
  destruct (ServerLost.lost_exec w ls x H1 H2) as (_ & A2 & A3 & A4).
  split; [exact A2 |]. split; [exact A3 |]. split; [exact A4 |].
  intros cid e clk rnd delay Hh. cbn [Server.exec Server.step]. rewrite Hh.
  rewrite ServerRegistry.on_read_raises.
  rewrite ServerLines.cleanup_unregistered_raises by exact A2.
  cbn [Server.suspend Server.handlers]. apply ServerLines.handler_of_set.
Qed.

Lemma unregistered_connection_is_lost_witness :
  let x := Server.exec
             [Server.Accept 1; Server.Tick;
              Server.KDrained (Server.Raises Py.ConnectionError)]
             (Server.run (Server.init "logs/server.log") (fun _ => None)) in
  let y := Server.exec
             [Server.Accept 2; Server.Tick; Server.KDrained Server.Completed;
              Server.Read 1 (Server.Line (Py.line_of "[0] PING")) noon (1 # 2)%Q 100;
              Server.Wake 1 noon] x in
  map snd (Server.wire y)
  = [Server.Keepalive 0; Server.Keepalive 1; Server.Pong 2 0 1] /\
  Server.sent_to 1 (Server.keepalives (Server.wire y)) = [(1, Server.Keepalive 0)] /\
  Server.dict_mem 1 (Server.clients (Server.server y)) = false.
Proof.
  cbv zeta. split; [reflexivity |].
  pose proof (unregistered_connection_is_lost
                (Server.exec
                   [Server.Accept 1; Server.Tick;
                    Server.KDrained (Server.Raises Py.ConnectionError)]
                   (Server.run (Server.init "logs/server.log") (fun _ => None)))
                1
                [Server.Accept 2; Server.Tick; Server.KDrained Server.Completed;
                 Server.Read 1 (Server.Line (Py.line_of "[0] PING")) noon
                   (1 # 2)%Q 100;
                 Server.Wake 1 noon]
                ltac:(discriminate) eq_refl) as H.
  cbv zeta in H. destruct H as (H1 & H2 & _).
  split; [rewrite H2; reflexivity | exact H1].
Defined.

(* ================================================================== *)
(** * The client: its streams *)
(* ================================================================== *)

Module ClientStreams.
Import Py Client.
Local Open Scope py_scope.

Lemma keeps_handles_refl s : keeps_handles s s.
Proof. now intros H. Qed.

Lemma keeps_handles_trans a b c :
  keeps_handles a b -> keeps_handles b c -> keeps_handles a c.
Proof. unfold keeps_handles. auto. Qed.

Local Abbreviation hk := (keeps_at keeps_handles).

(** Steps that leave the streams alone. *)
Lemma hk_same {A} (m : M A) s :
  closed (snd (m s)) = closed s ->
  next_handle (snd (m s)) = next_handle s ->
  reader (self (snd (m s))) = reader (self s) ->
  writer (self (snd (m s))) = writer (self s) ->
  hk m s.
Proof.
  unfold keeps_at, keeps_handles, handles_ok. intros -> -> -> ->. auto.
Qed.

Lemma hk_ret {A} (a : A) s : hk (ret a) s.
Proof. now apply hk_same. Qed.

Lemma hk_raise {A} e s : hk (@raise A e) s.
Proof. now apply hk_same. Qed.

Lemma hk_suspended {A} s : hk (fun s => (@Suspended A, s)) s.
Proof. now apply hk_same. Qed.

Lemma hk_get_self s : hk get_self s.
Proof. now apply hk_same. Qed.

Lemma hk_is_closed h s : hk (is_closed h) s.
Proof. now apply hk_same. Qed.

Lemma hk_format_time s : hk _format_time s.
Proof. now apply hk_same. Qed.

Lemma hk_format_date s : hk _format_date s.
Proof. now apply hk_same. Qed.

Lemma hk_emit e s : hk (emit e) s.
Proof. now apply hk_same. Qed.

Lemma hk_await s : hk await s.
Proof. apply hk_same; unfold await; now destruct (script s). Qed.

Lemma hk_sleep d s : hk (sleep d) s.
Proof. apply hk_emit. Qed.

Create HintDb streams.
#[export] Hint Resolve hk_ret hk_raise hk_suspended hk_get_self hk_is_closed
  hk_format_time hk_format_date hk_emit hk_await hk_sleep : streams.

Ltac hk_auto :=
  repeat first
    [ progress auto with streams
    | apply (keeps_bind keeps_handles keeps_handles_trans); [| intros ? ? ?]
    | apply (keeps_try_except keeps_handles keeps_handles_trans); [| intros ? ? ? ?]
    | match goal with
      | |- keeps_at keeps_handles (match ?x with _ => _ end) _ => destruct x
      | |- keeps_at keeps_handles (if ?x then _ else _) _ => destruct x
      end ].

Lemma hk_drain h s : hk (drain h) s.
Proof. unfold drain. hk_auto. Qed.

Lemma hk_readuntil h t s : hk (readuntil h t) s.
Proof. unfold readuntil. hk_auto. Qed.

Lemma hk_decode_strip d s : hk (decode_strip d) s.
Proof. unfold decode_strip. hk_auto. Qed.

Lemma hk_write_log st rm rt resp s : hk (_write_log st rm rt resp) s.
Proof. now apply hk_same. Qed.

#[export] Hint Resolve hk_drain hk_readuntil hk_decode_strip hk_write_log : streams.

(** Closing the streams the client holds. *)
Lemma hk_close_held s :
  hk (c <- get_self ;;
      match writer c with
      | Some h => close h
      | None => ret tt
      end) s.
Proof.
  unfold keeps_at, keeps_handles, handles_ok. cbv [bind get_self].
  destruct (writer (self s)) as [h |] eqn:E; cbv [close bind emit ret];
    cbn [snd fst self closed next_handle]; intros (H1 & H2 & H3);
    repeat split; rewrite ?E; auto.
  intros h' [<- | Hin]; auto.
Qed.

(** What [connect] does to the streams. *)
Lemma connect_streams s :
  (fst (connect s) = Returned true /\
   writer (self (snd (connect s))) = Some (next_handle s) /\
   reader (self (snd (connect s))) = Some (next_handle s) /\
   next_handle (snd (connect s)) = S (next_handle s) /\
   closed (snd (connect s)) = closed s /\
   request_counter (self (snd (connect s))) = request_counter (self s)) \/
  (fst (connect s) <> Returned true /\
   self (snd (connect s)) = self s /\
   next_handle (snd (connect s)) = next_handle s /\
   closed (snd (connect s)) = closed s).
Proof.
  cbv [connect try_except bind open_connection emit await raise ret get_self set_self].
  cbn [script]. destruct (script s) as [| [o c] rest]; cbn;
    [right; repeat split; discriminate |].
  destruct o as [| data | | e]; cbn;
    try (right; repeat split; discriminate);
    [left; repeat split |].
  destruct (is_ConnectionError e); cbn; right; repeat split; discriminate.
Qed.

Lemma hk_connect s : hk connect s.
Proof.
  unfold keeps_at, keeps_handles, handles_ok. intros (H1 & H2 & H3).
  destruct (connect_streams s) as [(_ & Hw & Hr & Hn & Hc & _) | (_ & Hs & Hn & Hc)].
  - rewrite Hw, Hr, Hn, Hc. split; [| split; [| reflexivity]].
    + intros h Hh. apply H1 in Hh. lia.
    + intros h Hh. injection Hh as <-. lia.
  - rewrite Hs, Hn, Hc. auto.
Qed.

#[export] Hint Resolve hk_close_held hk_connect : streams.

Lemma hk_reconnect_turn r s : hk (reconnect_turn r) s.
Proof. unfold reconnect_turn. hk_auto. Qed.

#[export] Hint Resolve hk_reconnect_turn : streams.

Lemma hk_reconnect_loop fuel success retries s :
  hk (reconnect_loop fuel success retries) s.
Proof.
  revert success retries s. induction fuel as [| fuel IH]; intros success retries s;
    simpl; destruct (negb success && Nat.ltb retries max_retries); hk_auto.
Qed.

#[export] Hint Resolve hk_reconnect_loop : streams.

Lemma hk_reconnect s : hk reconnect s.
Proof.
  unfold reconnect.
  change (hk (bind (bind get_self (fun c => match writer c with
                                            | Some h => close h
                                            | None => ret tt
                                            end))
                (fun _ => reconnect_loop max_retries false 0)) s).
  hk_auto.
Qed.

#[export] Hint Resolve hk_reconnect : streams.

Lemma hk_the_reader s : hk the_reader s.
Proof. unfold the_reader. hk_auto. Qed.

#[export] Hint Resolve hk_the_reader : streams.

Lemma hk_await_reply st rm s : hk (await_reply st rm) s.
Proof. unfold await_reply. hk_auto. Qed.

#[export] Hint Resolve hk_await_reply : streams.

(** Counting a ping leaves the streams alone. *)
Lemma hk_count s :
  hk (c1 <- get_self ;;
      set_self {| client_id := client_id c1; log_file := log_file c1;
                  request_counter := request_counter c1 + 1;
                  reader := reader c1; writer := writer c1 |}) s.
Proof. now apply hk_same. Qed.

#[export] Hint Resolve hk_count : streams.

Lemma hk_send_ping s : hk send_ping s.
Proof.
  unfold send_ping.
  apply (keeps_bind keeps_handles keeps_handles_trans); [apply hk_get_self |].
  intros c s0 H0. destruct (writer c) as [w |]; [| apply hk_ret].
  apply (keeps_bind keeps_handles keeps_handles_trans); [apply hk_format_time |].
  intros send_time s1 H1.
  apply (keeps_try_except keeps_handles keeps_handles_trans); [| intros; hk_auto].
  apply (keeps_bind keeps_handles keeps_handles_trans); [hk_auto |].
  intros [] s2 H2.
  apply (keeps_bind keeps_handles keeps_handles_trans); [hk_auto |].
  intros [] s3 H3.
  apply (keeps_bind keeps_handles keeps_handles_trans); [hk_auto |].
  intros [] s4 H4.
  match goal with
  | |- keeps_at _ (bind get_self (fun c1 => bind (set_self ?c') ?k)) ?s =>
      change (keeps_at keeps_handles
                (bind (bind get_self (fun c1 => set_self
                         {| client_id := client_id c1; log_file := log_file c1;
                            request_counter := request_counter c1 + 1;
                            reader := reader c1; writer := writer c1 |}))
                   (fun _ => await_reply send_time (request_msg_of (request_counter c))))
                s)
  end.
  hk_auto.
Qed.

#[export] Hint Resolve hk_send_ping : streams.

Lemma hk_message_receiver_turn s : hk message_receiver_turn s.
Proof. unfold message_receiver_turn. hk_auto. Qed.

#[export] Hint Resolve hk_message_receiver_turn : streams.

Lemma hk_perform a s : hk (perform a) s.
Proof. destruct a; unfold perform; hk_auto. Qed.

#[export] Hint Resolve hk_perform : streams.

Lemma hk_perform_all sched s : hk (perform_all sched) s.
Proof. revert s. induction sched as [| a t IH]; intros s; simpl; hk_auto. Qed.

Lemma hk_truncate_log s : hk truncate_log s.
Proof. now apply hk_same. Qed.

Lemma hk_run sched s : hk (run sched) s.
Proof.
  unfold run.
  apply (keeps_bind keeps_handles keeps_handles_trans); [apply hk_truncate_log |].
  intros [] s1 _.
  apply (keeps_bind keeps_handles keeps_handles_trans); [apply hk_connect |].
  intros [|] s2 _; [| apply hk_ret].
  apply (keeps_try_finally keeps_handles keeps_handles_trans);
    [apply hk_perform_all | intros s3; apply hk_close_held].
Qed.

Lemma handles_ok_start c f t answers :
  writer c = None -> reader c = None -> handles_ok (start c f t answers).
Proof.
  intros Hw Hr. unfold handles_ok, start. cbn. rewrite Hw, Hr.
  repeat split; [contradiction | discriminate].
Qed.

(** What one turn of the loop of [reconnect] does to the streams. *)
Lemma reconnect_turn_streams retries s :
  let r := fst (reconnect_turn retries s) in
  let s' := snd (reconnect_turn retries s) in
  (r = Returned (true, retries) /\
   writer (self s') = Some (next_handle s) /\
   reader (self s') = Some (next_handle s) /\
   next_handle s' = S (next_handle s) /\
   closed s' = closed s /\
   request_counter (self s') = request_counter (self s)) \/
  (r = Returned (false, S retries) /\ self s' = self s /\
   next_handle s' = next_handle s /\ closed s' = closed s) \/
  r = Suspended.
Proof.
  cbv [reconnect_turn connect try_except bind open_connection emit await
         get_self set_self sleep ret raise].
  cbn [script]. destruct (script s) as [| [o c] rest]; cbn; [now right; right |].
  destruct o as [| data | | e]; cbn;
    [now right; right | now right; right | left; repeat split |].
  destruct (is_ConnectionError e); cbn; right; left; repeat split.
Qed.

(** A successful [reconnect] ends on streams opened by its last attempt. *)
Lemma reconnect_loop_success fuel retries s :
  handles_ok s ->
  fst (reconnect_loop fuel false retries s) = Returned true ->
  let s' := snd (reconnect_loop fuel false retries s) in
  exists h, writer (self s') = Some h /\ reader (self s') = Some h /\
            ~ In h (closed s') /\ next_handle s' = S h /\
            request_counter (self s') = request_counter (self s).
Proof.
  revert retries s. induction fuel as [| fuel IH]; intros retries s Hok;
    cbn [reconnect_loop]; destruct (Nat.ltb retries max_retries); cbn [negb andb];
    try discriminate.
  unfold bind.
  pose proof (reconnect_turn_streams retries s) as Ht.
  pose proof (hk_reconnect_turn retries s Hok) as Hok1.
  destruct (reconnect_turn retries s) as [r1 s1]. cbn [fst snd] in *.
  destruct Ht as [(-> & Hw & Hr & Hn & Hcl & Hcnt) | [(-> & Hs & Hn & Hcl) | ->]];
    cbn [fst snd]; [| | discriminate].
  - assert (E : reconnect_loop fuel true retries s1 = (Returned true, s1))
      by (destruct fuel; reflexivity).
    rewrite E. cbn [fst snd]. intros _.
    exists (next_handle s). rewrite Hcl. repeat split; auto.
    intros Hin. apply (proj1 Hok) in Hin. lia.
  - intros Hr. destruct (IH (S retries) s1 Hok1 Hr) as (h & H1 & H2 & H3 & H4 & H5).
    exists h. rewrite Hs in H5. auto.
Qed.

Lemma reconnect_success s :
  handles_ok s ->
  fst (reconnect s) = Returned true ->
  let s' := snd (reconnect s) in
  exists h, writer (self s') = Some h /\ reader (self s') = Some h /\
            ~ In h (closed s') /\
            (forall h0, writer (self s) = Some h0 -> h <> h0) /\
            request_counter (self s') = request_counter (self s).
Proof.
  intros Hok. rewrite ClientReconnect.reconnect_unfold. intros Hr.
  assert (Hok1 : handles_ok (after_close s)).
  { pose proof (hk_close_held s Hok) as H. unfold after_close.
    unfold keeps_at, bind at 1, get_self in H.
    destruct (writer (self s)); exact H. }
  destruct (reconnect_loop_success max_retries 0 (after_close s) Hok1 Hr)
    as (h & H1 & H2 & H3 & H4 & H5).
  destruct (ClientReconnect.reconnect_loop_spec max_retries 0 (after_close s))
    as (k & tail & Hspec); [lia | lia |].
  cbn zeta in Hspec. destruct Hspec as (_ & _ & Hcl & _).
  exists h. cbv zeta. split; [exact H1 |]. split; [exact H2 |]. split; [exact H3 |].
  split.
  - intros h0 Hw <-. apply H3. rewrite Hcl. unfold after_close. rewrite Hw.
    now left.
  - rewrite H5. unfold after_close. now destruct (writer (self s)).
Qed.

End ClientStreams.

(** X22.  The streams of the client.  A client starts without streams;
    every cycle of the sender, every turn of the receiver and [run] as a
    whole keep the reader and the writer the two ends of one connection,
    opened before any stream that is opened later.  Hence, when
    [reconnect] succeeds, the client holds streams it has not closed,
    which are not the ones it held before, and its request counter is what
    it was. *)
Theorem reconnect_opens_new_streams :
  (forall id log f t answers,
      Client.handles_ok (Client.start (Client.init id log) f t answers)) /\
  (forall a s,
      Client.handles_ok s -> Client.handles_ok (snd (Client.perform a s))) /\
  (forall sched s,
      Client.handles_ok s -> Client.handles_ok (snd (Client.run sched s))) /\
  (forall s,
      Client.handles_ok s ->
      fst (Client.reconnect s) = Client.Returned true ->
      let s' := snd (Client.reconnect s) in
      exists h,
        Client.writer (Client.self s') = Some h /\
        Client.reader (Client.self s') = Some h /\
        ~ In h (Client.closed s') /\
        (forall h0, Client.writer (Client.self s) = Some h0 -> h <> h0) /\
        Client.request_counter (Client.self s')
        = Client.request_counter (Client.self s)).
Proof.
  split; [| split; [| split]].
  - intros id log f t answers. now apply ClientStreams.handles_ok_start.
  - intros a s. apply ClientStreams.hk_perform.
  - intros sched s. apply ClientStreams.hk_run.
  - apply ClientStreams.reconnect_success.
Qed.

Lemma reconnect_opens_new_streams_witness :
  exists h,
    Client.writer (Client.self (snd (Client.reconnect reachable_again))) = Some h /\
    ~ In h (Client.closed (snd (Client.reconnect reachable_again))).
Proof.
  assert (Hok : Client.handles_ok reachable_again).
  { unfold Client.handles_ok. cbn. repeat split.
    - intros h [<- | []]. lia.
    - intros h Hh. injection Hh as <-. lia. }
  destruct (proj2 (proj2 (proj2 reconnect_opens_new_streams)) reachable_again
              Hok eq_refl) as (h & H1 & _ & H3 & _).
  exists h. split; [exact H1 | exact H3].
Defined.
